(** * Portal: transform library, teleporter and recursive renderer

    A shallow embedding of [PortalMath.h], [PortalTeleporter.h],
    [PortalRenderer.h] and of the recursive renderer and the player of
    [main_example.cpp].

    Numbers.  The program computes in IEEE [float].  Here every [float]
    is an exact rational ([Qc], the canonical rationals, whose equality
    is Leibniz equality): rounding is not modelled, so an equation
    proved below is the exact counterpart of what the program satisfies
    up to floating tolerance.  Division by zero, which yields an
    infinity or a NaN in the program, yields [0] in [Qc]; no theorem
    below relies on it. *)

From Stdlib Require Import QArith Qcanon ZArith List Bool Lia Lqa.
Import ListNotations.

Local Open Scope Qc_scope.

(** ** Scalars *)

(** A decimal literal of the source: [dec n d] is [n / d]. *)
Definition dec (n : Z) (d : positive) : Qc := Q2Qc (n # d).

(** The comparisons of the source, as booleans. *)
Definition Qcltb (x y : Qc) : bool :=
  match x ?= y with Lt => true | _ => false end.

Definition Qcleb (x y : Qc) : bool :=
  match x ?= y with Gt => false | _ => true end.

Infix "<?" := Qcltb (at level 70, no associativity) : Qc_scope.
Infix "<=?" := Qcleb (at level 70, no associativity) : Qc_scope.

(** ** The part of glm the program uses *)
Module Glm.

Record vec3 := Vec3 { x3 : Qc; y3 : Qc; z3 : Qc }.
Record vec4 := Vec4 { x4 : Qc; y4 : Qc; z4 : Qc; w4 : Qc }.

(** [glm::mat4] is column-major: [m[i]] is column [i], [m[i][j]] is the
    entry of column [i], row [j]. *)
Record mat4 := Mat4 { c0 : vec4; c1 : vec4; c2 : vec4; c3 : vec4 }.

(** [glm::abs], [glm::sign], [glm::max]. *)
Definition abs (a : Qc) : Qc := if a <? 0 then - a else a.

Definition sign (a : Qc) : Qc :=
  if 0 <? a then 1 else if a <? 0 then - (1) else 0.

Definition max (a b : Qc) : Qc := if a <? b then b else a.

(** [glm::vec3(v4)] drops [w]; [glm::vec4(v3, w)] appends it. *)
Definition xyz (v : vec4) : vec3 := Vec3 (x4 v) (y4 v) (z4 v).
Definition ext (v : vec3) (w : Qc) : vec4 := Vec4 (x3 v) (y3 v) (z3 v) w.

Definition add3 (a b : vec3) : vec3 :=
  Vec3 (x3 a + x3 b) (y3 a + y3 b) (z3 a + z3 b).
Definition sub3 (a b : vec3) : vec3 :=
  Vec3 (x3 a - x3 b) (y3 a - y3 b) (z3 a - z3 b).
Definition neg3 (a : vec3) : vec3 := Vec3 (- x3 a) (- y3 a) (- z3 a).
Definition scale3 (a : vec3) (s : Qc) : vec3 :=
  Vec3 (x3 a * s) (y3 a * s) (z3 a * s).
Definition dot3 (a b : vec3) : Qc :=
  x3 a * x3 b + y3 a * y3 b + z3 a * z3 b.

Definition add4 (a b : vec4) : vec4 :=
  Vec4 (x4 a + x4 b) (y4 a + y4 b) (z4 a + z4 b) (w4 a + w4 b).
Definition sub4 (a b : vec4) : vec4 :=
  Vec4 (x4 a - x4 b) (y4 a - y4 b) (z4 a - z4 b) (w4 a - w4 b).
Definition mul4 (a b : vec4) : vec4 :=
  Vec4 (x4 a * x4 b) (y4 a * y4 b) (z4 a * z4 b) (w4 a * w4 b).
Definition scale4 (a : vec4) (s : Qc) : vec4 :=
  Vec4 (x4 a * s) (y4 a * s) (z4 a * s) (w4 a * s).
Definition dot4 (a b : vec4) : Qc :=
  x4 a * x4 b + y4 a * y4 b + z4 a * z4 b + w4 a * w4 b.

(** [glm::mix(x, y, a)] is [x * (1 - a) + y * a]. *)
Definition mix (a b : vec3) (t : Qc) : vec3 :=
  add3 (scale3 a (1 - t)) (scale3 b t).

(** [glm::mat4(1.0f)]. *)
Definition identity : mat4 :=
  Mat4 (Vec4 1 0 0 0) (Vec4 0 1 0 0) (Vec4 0 0 1 0) (Vec4 0 0 0 1).

(** [m * v]: the linear combination of the columns. *)
Definition mulMV (m : mat4) (v : vec4) : vec4 :=
  add4 (add4 (scale4 (c0 m) (x4 v)) (scale4 (c1 m) (y4 v)))
       (add4 (scale4 (c2 m) (z4 v)) (scale4 (c3 m) (w4 v))).

(** [m1 * m2]: column [j] of the product is [m1 * m2[j]]. *)
Definition mulMM (m1 m2 : mat4) : mat4 :=
  Mat4 (mulMV m1 (c0 m2)) (mulMV m1 (c1 m2))
       (mulMV m1 (c2 m2)) (mulMV m1 (c3 m2)).

Definition scaleM (m : mat4) (s : Qc) : mat4 :=
  Mat4 (scale4 (c0 m) s) (scale4 (c1 m) s) (scale4 (c2 m) s) (scale4 (c3 m) s).

Definition transpose (m : mat4) : mat4 :=
  Mat4 (Vec4 (x4 (c0 m)) (x4 (c1 m)) (x4 (c2 m)) (x4 (c3 m)))
       (Vec4 (y4 (c0 m)) (y4 (c1 m)) (y4 (c2 m)) (y4 (c3 m)))
       (Vec4 (z4 (c0 m)) (z4 (c1 m)) (z4 (c2 m)) (z4 (c3 m)))
       (Vec4 (w4 (c0 m)) (w4 (c1 m)) (w4 (c2 m)) (w4 (c3 m))).

(** The unscaled inverse of [glm::inverse]: the cofactor matrix it
    builds from the eighteen 2x2 minors [Coef00 .. Coef23]. *)
Definition cofactors (m : mat4) : mat4 :=
  let '(Mat4 (Vec4 m00 m01 m02 m03) (Vec4 m10 m11 m12 m13)
             (Vec4 m20 m21 m22 m23) (Vec4 m30 m31 m32 m33)) := m in
  let Coef00 := m22 * m33 - m32 * m23 in
  let Coef02 := m12 * m33 - m32 * m13 in
  let Coef03 := m12 * m23 - m22 * m13 in
  let Coef04 := m21 * m33 - m31 * m23 in
  let Coef06 := m11 * m33 - m31 * m13 in
  let Coef07 := m11 * m23 - m21 * m13 in
  let Coef08 := m21 * m32 - m31 * m22 in
  let Coef10 := m11 * m32 - m31 * m12 in
  let Coef11 := m11 * m22 - m21 * m12 in
  let Coef12 := m20 * m33 - m30 * m23 in
  let Coef14 := m10 * m33 - m30 * m13 in
  let Coef15 := m10 * m23 - m20 * m13 in
  let Coef16 := m20 * m32 - m30 * m22 in
  let Coef18 := m10 * m32 - m30 * m12 in
  let Coef19 := m10 * m22 - m20 * m12 in
  let Coef20 := m20 * m31 - m30 * m21 in
  let Coef22 := m10 * m31 - m30 * m11 in
  let Coef23 := m10 * m21 - m20 * m11 in
  let Fac0 := Vec4 Coef00 Coef00 Coef02 Coef03 in
  let Fac1 := Vec4 Coef04 Coef04 Coef06 Coef07 in
  let Fac2 := Vec4 Coef08 Coef08 Coef10 Coef11 in
  let Fac3 := Vec4 Coef12 Coef12 Coef14 Coef15 in
  let Fac4 := Vec4 Coef16 Coef16 Coef18 Coef19 in
  let Fac5 := Vec4 Coef20 Coef20 Coef22 Coef23 in
  let V0 := Vec4 m10 m00 m00 m00 in
  let V1 := Vec4 m11 m01 m01 m01 in
  let V2 := Vec4 m12 m02 m02 m02 in
  let V3 := Vec4 m13 m03 m03 m03 in
  let Inv0 := add4 (sub4 (mul4 V1 Fac0) (mul4 V2 Fac1)) (mul4 V3 Fac2) in
  let Inv1 := add4 (sub4 (mul4 V0 Fac0) (mul4 V2 Fac3)) (mul4 V3 Fac4) in
  let Inv2 := add4 (sub4 (mul4 V0 Fac1) (mul4 V1 Fac3)) (mul4 V3 Fac5) in
  let Inv3 := add4 (sub4 (mul4 V0 Fac2) (mul4 V1 Fac4)) (mul4 V2 Fac5) in
  let SignA := Vec4 1 (- (1)) 1 (- (1)) in
  let SignB := Vec4 (- (1)) 1 (- (1)) 1 in
  Mat4 (mul4 Inv0 SignA) (mul4 Inv1 SignB) (mul4 Inv2 SignA) (mul4 Inv3 SignB).

(** [Dot1] of [glm::inverse]: the determinant, as the dot product of
    the first column of [m] with the first row of the cofactors. *)
Definition determinant (m : mat4) : Qc :=
  let I := cofactors m in
  let Row0 := Vec4 (x4 (c0 I)) (x4 (c1 I)) (x4 (c2 I)) (x4 (c3 I)) in
  let Dot0 := mul4 (c0 m) Row0 in
  (x4 Dot0 + y4 Dot0) + (z4 Dot0 + w4 Dot0).

(** [glm::inverse(m)]. *)
Definition inverse (m : mat4) : mat4 :=
  scaleM (cofactors m) (1 / determinant m).

(** [glm::rotate(glm::mat4(1.0f), glm::pi<float>(), vec3(0, 1, 0))] and
    [glm::rotate(glm::mat4(1.0f), glm::radians(180.0f), vec3(0, 1, 0))]:
    with [cos pi = -1] and [sin pi = 0] the rotation has the columns
    [(c, 0, -s), (0, 1, 0), (s, 0, c)]. *)
Definition rotate180Y : mat4 :=
  Mat4 (Vec4 (- (1)) 0 0 0) (Vec4 0 1 0 0) (Vec4 0 0 (- (1)) 0) (Vec4 0 0 0 1).

(** [glm::translate(glm::mat4(1.0f), t)]. *)
Definition translate (t : vec3) : mat4 :=
  Mat4 (Vec4 1 0 0 0) (Vec4 0 1 0 0) (Vec4 0 0 1 0) (ext t 1).

End Glm.

Import Glm.

(** ** PortalMath.h *)
Module PortalMath.

(** [GetSignedDistanceToPortal(point, portalMatrix)]. *)
Definition GetSignedDistanceToPortal (point : vec3) (portalMatrix : mat4) : Qc :=
  let portalNormal := neg3 (xyz (c2 portalMatrix)) in
  let portalPosition := xyz (c3 portalMatrix) in
  dot3 (sub3 point portalPosition) portalNormal.

(** [GetPortalPlane(portalMatrix)]. *)
Definition GetPortalPlane (portalMatrix : mat4) : vec4 :=
  let portalNormal := neg3 (xyz (c2 portalMatrix)) in
  let portalPosition := xyz (c3 portalMatrix) in
  let d := - dot3 portalNormal portalPosition in
  ext portalNormal d.

(** [ComputePortalTransform(sourcePortalMatrix, targetPortalMatrix)]. *)
Definition ComputePortalTransform (sourcePortalMatrix targetPortalMatrix : mat4) : mat4 :=
  let rotate180 := rotate180Y in
  mulMM (mulMM targetPortalMatrix rotate180) (inverse sourcePortalMatrix).

(** [TeleportPosition(worldPosition, sourcePortalMatrix, targetPortalMatrix)]. *)
Definition TeleportPosition (worldPosition : vec3)
           (sourcePortalMatrix targetPortalMatrix : mat4) : vec3 :=
  let rotate180 := rotate180Y in
  let teleportMatrix :=
    mulMM (mulMM targetPortalMatrix rotate180) (inverse sourcePortalMatrix) in
  let result := mulMV teleportMatrix (ext worldPosition 1) in
  xyz result.

(** [TeleportMatrix(worldMatrix, sourcePortalMatrix, targetPortalMatrix)]. *)
Definition TeleportMatrix (worldMatrix sourcePortalMatrix targetPortalMatrix : mat4) : mat4 :=
  let rotate180 := rotate180Y in
  let teleportMatrix :=
    mulMM (mulMM targetPortalMatrix rotate180) (inverse sourcePortalMatrix) in
  mulMM teleportMatrix worldMatrix.

(** [CalculatePortalViewMatrix(playerViewMatrix, sourcePortalMatrix,
    targetPortalMatrix)]. *)
Definition CalculatePortalViewMatrix
           (playerViewMatrix sourcePortalMatrix targetPortalMatrix : mat4) : mat4 :=
  let rotate180 := rotate180Y in
  let playerCameraMatrix := inverse playerViewMatrix in
  let sourcePortalInverse := inverse sourcePortalMatrix in
  let virtualCameraMatrix :=
    mulMM (mulMM (mulMM targetPortalMatrix rotate180) sourcePortalInverse)
          playerCameraMatrix in
  inverse virtualCameraMatrix.

(** [CalculatePortalView]: the same with the arguments reordered. *)
Definition CalculatePortalView
           (sourcePortalMatrix targetPortalMatrix playerViewMatrix : mat4) : mat4 :=
  CalculatePortalViewMatrix playerViewMatrix sourcePortalMatrix targetPortalMatrix.

(** [CalculateObliqueProjectionMatrix(projectionMatrix, clipPlane)]. *)
Definition CalculateObliqueProjectionMatrix (projectionMatrix : mat4) (clipPlane : vec4) : mat4 :=
  let p := projectionMatrix in
  let q := Vec4 ((sign (x4 clipPlane) + x4 (c2 p)) / x4 (c0 p))
                ((sign (y4 clipPlane) + y4 (c2 p)) / y4 (c1 p))
                (- (1))
                ((1 + z4 (c2 p)) / z4 (c3 p)) in
  let c := scale4 clipPlane (dec 2 1 / dot4 clipPlane q) in
  Mat4 (Vec4 (x4 (c0 p)) (y4 (c0 p)) (x4 c - w4 (c0 p)) (w4 (c0 p)))
       (Vec4 (x4 (c1 p)) (y4 (c1 p)) (y4 c - w4 (c1 p)) (w4 (c1 p)))
       (Vec4 (x4 (c2 p)) (y4 (c2 p)) (z4 c - w4 (c2 p)) (w4 (c2 p)))
       (Vec4 (x4 (c3 p)) (y4 (c3 p)) (w4 c - w4 (c3 p)) (w4 (c3 p))).

(** The vector [q] of [CalculateObliqueProjectionMatrix]. *)
Definition CalculateObliqueProjectionMatrix_q (projectionMatrix : mat4) (clipPlane : vec4) : vec4 :=
  let p := projectionMatrix in
  Vec4 ((sign (x4 clipPlane) + x4 (c2 p)) / x4 (c0 p))
       ((sign (y4 clipPlane) + y4 (c2 p)) / y4 (c1 p))
       (- (1))
       ((1 + z4 (c2 p)) / z4 (c3 p)).

(** [CalculateObliqueProjection(projectionMatrix, viewMatrix, worldPlane)]. *)
Definition CalculateObliqueProjection (projectionMatrix viewMatrix : mat4) (worldPlane : vec4) : mat4 :=
  let viewInverseTranspose := transpose (inverse viewMatrix) in
  let viewSpacePlane := mulMV viewInverseTranspose worldPlane in
  CalculateObliqueProjectionMatrix projectionMatrix viewSpacePlane.

(** [GetPortalClipPlane(portalMatrix, viewMatrix)]. *)
Definition GetPortalClipPlane (portalMatrix viewMatrix : mat4) : vec4 :=
  let portalNormal := neg3 (xyz (c2 portalMatrix)) in
  let portalPosition := xyz (c3 portalMatrix) in
  let d := - dot3 portalNormal portalPosition in
  let worldPlane := ext portalNormal d in
  let viewInverseTranspose := transpose (inverse viewMatrix) in
  mulMV viewInverseTranspose worldPlane.

Section Directions.

(** [glm::normalize] takes a square root, which the rationals lack:
    the two functions that call it are parameterised by it. *)
Variable normalize : vec3 -> vec3.

(** [GetPortalForward(portalMatrix)]. *)
Definition GetPortalForward (portalMatrix : mat4) : vec3 :=
  normalize (xyz (c2 portalMatrix)).

(** The vector that [TeleportDirection] hands to [glm::normalize]. *)
Definition TeleportDirection_result (worldDirection : vec3)
           (sourcePortalMatrix targetPortalMatrix : mat4) : vec4 :=
  let rotate180 := rotate180Y in
  let teleportMatrix :=
    mulMM (mulMM targetPortalMatrix rotate180) (inverse sourcePortalMatrix) in
  mulMV teleportMatrix (ext worldDirection 0).

(** [TeleportDirection(worldDirection, sourcePortalMatrix,
    targetPortalMatrix)]. *)
Definition TeleportDirection (worldDirection : vec3)
           (sourcePortalMatrix targetPortalMatrix : mat4) : vec3 :=
  let result :=
    TeleportDirection_result worldDirection sourcePortalMatrix targetPortalMatrix in
  normalize (xyz result).

End Directions.

End PortalMath.

(** ** The trace of a frame

    The renderers return nothing: what they do is the sequence of OpenGL
    commands they issue.  A renderer is modelled by the trace it produces,
    in program order.  A trace records the commands, the calls between the
    functions of the program (a call holds the trace of its callee) and the
    numbered steps into which the source divides its two recursive
    functions.  The debug groups, the console output and the texture
    bindings of the source are not recorded. *)
Module GL.

Inductive Capability := GL_STENCIL_TEST | GL_CULL_FACE.
Inductive CompareFunc := GL_ALWAYS | GL_EQUAL | GL_LESS | GL_LEQUAL.
Inductive StencilAction := GL_KEEP | GL_REPLACE | GL_INCR | GL_DECR.

(** The vertex arrays: those of [main_example.cpp] and the mesh of a
    portal ([portal->meshVAO]). *)
Inductive Mesh :=
| g_PortalSurfaceVAO | g_PortalFrameVAO | g_SkyboxVAO
| g_FloorVAO | g_WallVAO | g_BoxVAO | g_PillarVAO
| meshVAO (portal : nat).

(** The shader programs and the uniform matrices they take. *)
Inductive Program := g_SceneShader | g_SkyboxShader | shaderProgram (portal : nat).
Inductive Uniform := uMVP | uViewProj | uModel | uView | uProjection.

Inductive Command :=
| glEnable (cap : Capability)
| glDisable (cap : Capability)
| glStencilFunc (func : CompareFunc) (ref : Z) (mask : Z)
| glStencilOp (sfail dpfail dppass : StencilAction)
| glStencilMask (mask : Z)
| glColorMask (rgba : bool)
| glDepthMask (flag : bool)
| glDepthFunc (func : CompareFunc)
| glDepthRange (near far : Qc)
| glClearColor
| glClearStencil (s : Z)
| glClear (color depth stencil : bool)
| glUseProgram (program : Program)
| glBindVertexArray (array : option Mesh)
| glUniformMatrix4fv (location : Uniform) (value : mat4)
| glUniform1f_uTime (time : Qc)
| glDrawArrays
| glDrawElements.

(** The functions whose calls are recorded, with the arguments that
    matter below. *)
Inductive Callee :=
| FRenderPortalsRecursive (viewMatrix projectionMatrix : mat4)
                          (recursionLevel stencilValue : Z) (excludePortal : option nat)
| FRenderPortalContent (portal : nat) (viewMatrix projectionMatrix : mat4)
                       (recursionLevel stencilValue viewingSide : Z)
| FCalculatePortalViewMatrix (playerViewMatrix sourcePortalMatrix targetPortalMatrix : mat4)
| FComputePortalTransform (sourcePortalMatrix targetPortalMatrix : mat4)
| FCalculateObliqueProjectionMatrix (projectionMatrix : mat4) (clipPlane : vec4)
| Fperspective (near far : Qc)
| FRenderSkybox (viewMatrix projectionMatrix : mat4)
| FRenderScene (viewMatrix projectionMatrix : mat4)
| FRenderPortalFramesExcluding (viewMatrix projectionMatrix : mat4)
                               (excludePortal : option nat)
| FRenderPortalRecursive (portal : nat) (viewMatrix projectionMatrix : mat4)
                         (currentRecursion : Z)
| FCalculatePortalView (sourcePortalMatrix targetPortalMatrix playerViewMatrix : mat4)
| FCalculateObliqueProjection (projectionMatrix viewMatrix : mat4) (worldPlane : vec4)
| FrenderScene (view projection : mat4).

(** The steps of a traversal, as the comments of the source number
    them in [RenderPortalContent] (steps 1 to 7, with 6.5) and in
    [RenderPortalRecursive] (steps 1 to 7). *)
Inductive StepName :=
| MarkStencil | ComputeVirtualCamera | ComputeObliqueProjection
| ClearPortalDepth | RenderPortalScene | RecurseNestedPortals
| SealPortalDepth | RestoreStencilState.

#[warnings="-register-all"] Inductive Event :=
| Gl (c : Command)
| Step (s : StepName) (body : list Event)
| Call (f : Callee) (body : list Event).

Definition Trace := list Event.

(** [for (size_t i = 0; i < v.size(); i++) body(i, v[i])]. *)
Fixpoint forEachFrom {A : Type} (i : nat) (v : list A) (body : nat -> A -> Trace) : Trace :=
  match v with
  | [] => []
  | a :: v' => body i a ++ forEachFrom (S i) v' body
  end.

Definition forEach {A : Type} (v : list A) (body : nat -> A -> Trace) : Trace :=
  forEachFrom 0 v body.

(** The number of calls, at any depth of the trace, that satisfy [p]. *)
Fixpoint countCalls (p : Callee -> bool) (e : Event) : nat :=
  match e with
  | Gl _ => 0
  | Step _ body => list_sum (map (countCalls p) body)
  | Call f body => (if p f then 1 else 0) + list_sum (map (countCalls p) body)
  end.

Definition countCallsIn (p : Callee -> bool) (t : Trace) : nat :=
  list_sum (map (countCalls p) t).

(** The number of drawing commands, at any depth of the trace. *)
Fixpoint countDraws (e : Event) : nat :=
  match e with
  | Gl glDrawArrays | Gl glDrawElements => 1
  | Gl _ => 0
  | Step _ body | Call _ body => list_sum (map countDraws body)
  end.

Definition countDrawsIn (t : Trace) : nat := list_sum (map countDraws t).

(** The steps at the top of a trace, in order. *)
Definition steps (t : Trace) : list StepName :=
  flat_map (fun e => match e with Step s _ => [s] | _ => [] end) t.

(** The calls at the top of a trace or of its steps, in order. *)
Definition calls (t : Trace) : list (Callee * Trace) :=
  flat_map (fun e => match e with
                     | Call f b => [(f, b)]
                     | Step _ body =>
                         flat_map (fun e' => match e' with
                                             | Call f b => [(f, b)]
                                             | _ => []
                                             end) body
                     | Gl _ => []
                     end) t.

End GL.

(** ** The state of the OpenGL context

    The part of the context's state that the commands of a trace set:
    the two capabilities, the stencil, colour and depth state, the
    program in use and the bound vertex array.  The contents of the
    buffers and the values of the uniforms are not part of it. *)
Module GLState.
Import GL.

Record State := mkState {
  stencilTest : bool;
  cullFace : bool;
  stencilFunc : CompareFunc * Z * Z;
  stencilOp : StencilAction * StencilAction * StencilAction;
  stencilWritemask : Z;
  colorWritemask : bool;
  depthWritemask : bool;
  depthFunc : CompareFunc;
  depthRange : Qc * Qc;
  stencilClearValue : Z;
  currentProgram : option Program;
  vertexArrayBinding : option Mesh
}.

(** The state of a fresh context. *)
Definition initial : State :=
  mkState false false (GL_ALWAYS, 0%Z, 255%Z) (GL_KEEP, GL_KEEP, GL_KEEP) 255
          true true GL_LESS (0, 1) 0 None None.

Definition setCapability (cap : Capability) (on : bool) (s : State) : State :=
  match cap with
  | GL_STENCIL_TEST =>
      mkState on (cullFace s) (stencilFunc s) (stencilOp s) (stencilWritemask s)
              (colorWritemask s) (depthWritemask s) (depthFunc s) (depthRange s)
              (stencilClearValue s) (currentProgram s) (vertexArrayBinding s)
  | GL_CULL_FACE =>
      mkState (stencilTest s) on (stencilFunc s) (stencilOp s) (stencilWritemask s)
              (colorWritemask s) (depthWritemask s) (depthFunc s) (depthRange s)
              (stencilClearValue s) (currentProgram s) (vertexArrayBinding s)
  end.

(** The effect of a command on the state; clears, uniforms and draws
    leave it as it is. *)
Definition exec (c : Command) (s : State) : State :=
  match c with
  | glEnable cap => setCapability cap true s
  | glDisable cap => setCapability cap false s
  | glStencilFunc func ref mask =>
      mkState (stencilTest s) (cullFace s) (func, ref, mask) (stencilOp s)
              (stencilWritemask s) (colorWritemask s) (depthWritemask s)
              (depthFunc s) (depthRange s) (stencilClearValue s)
              (currentProgram s) (vertexArrayBinding s)
  | glStencilOp sfail dpfail dppass =>
      mkState (stencilTest s) (cullFace s) (stencilFunc s) (sfail, dpfail, dppass)
              (stencilWritemask s) (colorWritemask s) (depthWritemask s)
              (depthFunc s) (depthRange s) (stencilClearValue s)
              (currentProgram s) (vertexArrayBinding s)
  | glStencilMask mask =>
      mkState (stencilTest s) (cullFace s) (stencilFunc s) (stencilOp s)
              mask (colorWritemask s) (depthWritemask s)
              (depthFunc s) (depthRange s) (stencilClearValue s)
              (currentProgram s) (vertexArrayBinding s)
  | glColorMask rgba =>
      mkState (stencilTest s) (cullFace s) (stencilFunc s) (stencilOp s)
              (stencilWritemask s) rgba (depthWritemask s)
              (depthFunc s) (depthRange s) (stencilClearValue s)
              (currentProgram s) (vertexArrayBinding s)
  | glDepthMask flag =>
      mkState (stencilTest s) (cullFace s) (stencilFunc s) (stencilOp s)
              (stencilWritemask s) (colorWritemask s) flag
              (depthFunc s) (depthRange s) (stencilClearValue s)
              (currentProgram s) (vertexArrayBinding s)
  | glDepthFunc func =>
      mkState (stencilTest s) (cullFace s) (stencilFunc s) (stencilOp s)
              (stencilWritemask s) (colorWritemask s) (depthWritemask s)
              func (depthRange s) (stencilClearValue s)
              (currentProgram s) (vertexArrayBinding s)
  | glDepthRange near far =>
      mkState (stencilTest s) (cullFace s) (stencilFunc s) (stencilOp s)
              (stencilWritemask s) (colorWritemask s) (depthWritemask s)
              (depthFunc s) (near, far) (stencilClearValue s)
              (currentProgram s) (vertexArrayBinding s)
  | glClearStencil v =>
      mkState (stencilTest s) (cullFace s) (stencilFunc s) (stencilOp s)
              (stencilWritemask s) (colorWritemask s) (depthWritemask s)
              (depthFunc s) (depthRange s) v
              (currentProgram s) (vertexArrayBinding s)
  | glUseProgram program =>
      mkState (stencilTest s) (cullFace s) (stencilFunc s) (stencilOp s)
              (stencilWritemask s) (colorWritemask s) (depthWritemask s)
              (depthFunc s) (depthRange s) (stencilClearValue s)
              (Some program) (vertexArrayBinding s)
  | glBindVertexArray array =>
      mkState (stencilTest s) (cullFace s) (stencilFunc s) (stencilOp s)
              (stencilWritemask s) (colorWritemask s) (depthWritemask s)
              (depthFunc s) (depthRange s) (stencilClearValue s)
              (currentProgram s) array
  | glClearColor | glClear _ _ _ | glUniformMatrix4fv _ _ | glUniform1f_uTime _
  | glDrawArrays | glDrawElements => s
  end.

(** The state after an event, and after a trace. *)
Fixpoint run (e : Event) (s : State) : State :=
  match e with
  | Gl c => exec c s
  | Step _ body | Call _ body => fold_left (fun s' e' => run e' s') body s
  end.

Definition runTrace (t : Trace) (s : State) : State :=
  fold_left (fun s' e' => run e' s') t s.

(** The state in which [main] enters its loop: it enables face
    culling (and the depth test, which no command of a trace turns
    off). *)
Definition mainState : State := exec (glEnable GL_CULL_FACE) initial.

(** The state that the passes of a frame share: colour and depth
    writes on, the depth comparison [GL_LESS] over the whole depth
    range, face culling on. *)
Definition baseline (s : State) : bool :=
  colorWritemask s && depthWritemask s && cullFace s &&
  match depthFunc s with GL_LESS => true | _ => false end &&
  match depthRange s with (near, far) => Qc_eq_bool near 0 && Qc_eq_bool far 1 end.

(** The stencil state under which the content of a traversal with the
    tag [tag] is to be drawn: the test is on and passes where the
    buffer holds the tag, and nothing writes the buffer. *)
Definition confinedTo (tag : Z) (s : State) : bool :=
  stencilTest s &&
  match stencilFunc s with
  | (GL_EQUAL, ref, mask) => (ref =? tag)%Z && (mask =? 255)%Z
  | _ => false
  end &&
  (stencilWritemask s =? 0)%Z.

(** The stencil test and the stencil update of a fragment, at a pixel
    whose stencil value is [stored]: the comparison of the masked
    reference with the masked value, the action chosen by the outcome
    of the stencil and the depth test, and the write under the write
    mask.  The buffer has eight bits. *)
Definition stencilPasses (func : CompareFunc) (ref mask stored : Z) : bool :=
  match func with
  | GL_ALWAYS => true
  | GL_EQUAL => (Z.land ref mask =? Z.land stored mask)%Z
  | GL_LESS => (Z.land ref mask <? Z.land stored mask)%Z
  | GL_LEQUAL => (Z.land ref mask <=? Z.land stored mask)%Z
  end.

Definition applyStencilAction (action : StencilAction) (ref stored : Z) : Z :=
  match action with
  | GL_KEEP => stored
  | GL_REPLACE => ref
  | GL_INCR => Z.min 255 (stored + 1)
  | GL_DECR => Z.max 0 (stored - 1)
  end.

Definition writeMasked (mask value stored : Z) : Z :=
  Z.lor (Z.land value mask) (Z.land stored (Z.lnot mask)).

Definition stencilAfterFragment (s : State) (depthPasses : bool) (stored : Z) : Z :=
  if stencilTest s then
    match stencilFunc s, stencilOp s with
    | (func, ref, mask), (sfail, dpfail, dppass) =>
        let action :=
          if stencilPasses func ref mask stored
          then (if depthPasses then dppass else dpfail)
          else sfail in
        writeMasked (stencilWritemask s) (applyStencilAction action ref stored) stored
    end
  else stored.

(** The traversal that a call opens, if it opens one: its level and
    its tag. *)
Definition traversalOf (f : Callee) (around : option (Z * Z)) : option (Z * Z) :=
  match f with
  | FRenderPortalContent _ _ _ recursionLevel stencilValue _ =>
      Some (recursionLevel, stencilValue)
  | _ => around
  end.

(** A drawing command of a trace: the innermost traversal and the
    innermost step around it, and the state in which it is issued. *)
Record Draw := mkDraw {
  traversal : option (Z * Z);
  step : option StepName;
  state : State
}.

Fixpoint draws (around : option (Z * Z)) (inStep : option StepName) (e : Event) (s : State)
  : list Draw :=
  match e with
  | Gl glDrawArrays | Gl glDrawElements => [mkDraw around inStep s]
  | Gl _ => []
  | Step name body =>
      (fix go (t : list Event) (s : State) :=
         match t with
         | [] => []
         | e' :: t' => draws around (Some name) e' s ++ go t' (run e' s)
         end) body s
  | Call f body =>
      (fix go (t : list Event) (s : State) :=
         match t with
         | [] => []
         | e' :: t' => draws (traversalOf f around) inStep e' s ++ go t' (run e' s)
         end) body s
  end.

Fixpoint drawsIn (around : option (Z * Z)) (inStep : option StepName) (t : Trace) (s : State)
  : list Draw :=
  match t with
  | [] => []
  | e :: t' => draws around inStep e s ++ drawsIn around inStep t' (run e s)
  end.

(** A state in which a draw leaves the stencil buffer as it is, at
    every pixel and whatever the depth test says. *)
Definition keepsStencil (s : State) : Prop :=
  forall depthPasses stored, stencilAfterFragment s depthPasses stored = stored.

(** A state in which a draw writes [tag] where the depth test passes
    and leaves the other pixels as they are. *)
Definition writesTag (tag : Z) (s : State) : Prop :=
  forall stored, (0 <= stored <= 255)%Z ->
    stencilAfterFragment s true stored = tag /\
    stencilAfterFragment s false stored = stored.

(** Who writes the stencil buffer: the mark of a traversal at level 0
    writes the tag of the traversal; no other draw writes. *)
Definition stencilWrites (d : Draw) : Prop :=
  match traversal d, step d with
  | Some (level, tag), Some MarkStencil =>
      if (level =? 0)%Z then (0 <= tag <= 255)%Z -> writesTag tag (state d)
      else keepsStencil (state d)
  | _, _ => keepsStencil (state d)
  end.

(** Where a traversal draws: after its mark, inside the pixels that
    hold its tag. *)
Definition confined (d : Draw) : Prop :=
  match traversal d, step d with
  | Some (level, tag), Some MarkStencil => True
  | Some (level, tag), _ => confinedTo tag (state d) = true
  | None, _ => True
  end.

End GLState.

(** ** PortalRenderer.h: the portal record *)
Module PortalRenderer.

(** [struct Portal].  A [Portal*] is the index of the portal in the
    registry that owns it ([g_Portals], [allPortals]); [nullptr] is
    [None].  The OpenGL handles of the record play no role below. *)
Record Portal := mkPortal {
  transform : mat4;
  width : Qc;
  height : Qc;
  linkedPortal : option nat;
  isActive : bool
}.

Definition MAX_PORTAL_RECURSION : Z := 4.

(** [struct RenderContext]. *)
Record RenderContext := mkContext {
  viewMatrix : mat4;
  projectionMatrix : mat4;
  cameraPosition : vec3;
  cameraForward : vec3;
  screenWidth : Z;
  screenHeight : Z
}.

Import GL.

Section Recursive.

(** [allPortals] and the [renderScene] callback. *)
Variable allPortals : list Portal.
Variable renderScene : mat4 -> mat4 -> Trace.

(** The body of [RenderPortalRecursive(portal, context, currentRecursion,
    allPortals, renderScene)]; [RenderPortalRecursive] stands for the
    function itself in its recursive call. *)
Definition RenderPortalRecursive_body
           (RenderPortalRecursive : nat -> RenderContext -> Z -> Trace)
           (portal : nat) (context : RenderContext) (currentRecursion : Z) : Trace :=
  if (MAX_PORTAL_RECURSION <=? currentRecursion)%Z then [] else
  match nth_error allPortals portal with
  | None => []
  | Some this =>
  match linkedPortal this with
  | None => []
  | Some linked =>
  if negb (isActive this) then [] else
  match nth_error allPortals linked with
  | None => []
  | Some target =>
  (* Step 1 *)
  let virtualView :=
    PortalMath.CalculatePortalView (transform this) (transform target)
                                   (viewMatrix context) in
  let virtualCameraPos := xyz (c3 (inverse virtualView)) in
  (* Step 2 *)
  let portalPlaneWorld := PortalMath.GetPortalPlane (transform target) in
  let obliqueProj :=
    PortalMath.CalculateObliqueProjection (projectionMatrix context)
                                          virtualView portalPlaneWorld in
  let nestedContext :=
    mkContext virtualView obliqueProj virtualCameraPos (cameraForward context)
              (screenWidth context) (screenHeight context) in
  [ Step ComputeVirtualCamera
      [ Call (FCalculatePortalView (transform this) (transform target)
                                   (viewMatrix context)) [] ];
    Step ComputeObliqueProjection
      [ Call (FCalculateObliqueProjection (projectionMatrix context)
                                          virtualView portalPlaneWorld) [] ];
    (* Step 3 *)
    Step MarkStencil
      [ Gl (glEnable GL_STENCIL_TEST);
        Gl (glStencilFunc GL_EQUAL currentRecursion 255);
        Gl (glStencilOp GL_KEEP GL_KEEP GL_INCR);
        Gl (glColorMask false);
        Gl (glDepthMask false);
        Gl (glUseProgram (shaderProgram portal));
        Gl (glBindVertexArray (Some (meshVAO portal)));
        Gl (glUniformMatrix4fv uModel (transform this));
        Gl (glUniformMatrix4fv uView (viewMatrix context));
        Gl (glUniformMatrix4fv uProjection (projectionMatrix context));
        Gl glDrawElements ];
    (* Step 4 *)
    Step ClearPortalDepth
      [ Gl (glColorMask false);
        Gl (glDepthMask true);
        Gl (glDepthFunc GL_ALWAYS);
        Gl (glStencilFunc GL_EQUAL (currentRecursion + 1) 255);
        Gl (glStencilOp GL_KEEP GL_KEEP GL_KEEP);
        Gl glDrawElements;
        Gl (glDepthFunc GL_LESS);
        Gl (glColorMask true) ];
    (* Step 5 *)
    Step RecurseNestedPortals
      (forEach allPortals (fun other otherPortal =>
         if negb (Nat.eqb other portal) && isActive otherPortal
         then [ Call (FRenderPortalRecursive other virtualView obliqueProj
                                             (currentRecursion + 1))
                     (RenderPortalRecursive other nestedContext
                                            (currentRecursion + 1)%Z) ]
         else []));
    (* Step 6 *)
    Step RenderPortalScene
      [ Gl (glStencilFunc GL_EQUAL (currentRecursion + 1) 255);
        Gl (glStencilOp GL_KEEP GL_KEEP GL_KEEP);
        Call (FrenderScene virtualView obliqueProj)
             (renderScene virtualView obliqueProj) ];
    (* Step 7 *)
    Step RestoreStencilState
      [ Gl (glStencilFunc GL_EQUAL (currentRecursion + 1) 255);
        Gl (glStencilOp GL_KEEP GL_KEEP GL_DECR);
        Gl (glColorMask false);
        Gl (glDepthMask false);
        Gl glDrawElements;
        Gl (glColorMask true);
        Gl (glDepthMask true);
        Gl (glBindVertexArray None) ] ]
  end end end.

(** [fuel] bounds the depth of the recursion of the model;
    [RenderPortalRecursive] below supplies enough of it. *)
Fixpoint RenderPortalRecursive_fuel (fuel : nat) : nat -> RenderContext -> Z -> Trace :=
  match fuel with
  | O => fun _ _ _ => []
  | S fuel' => RenderPortalRecursive_body (RenderPortalRecursive_fuel fuel')
  end.

(** The recursion stops at [MAX_PORTAL_RECURSION]: from
    [currentRecursion], that many levels and one call are enough. *)
Definition fuelFor (currentRecursion : Z) : nat :=
  S (Z.to_nat (MAX_PORTAL_RECURSION - currentRecursion)).

Definition RenderPortalRecursive (portal : nat) (context : RenderContext)
           (currentRecursion : Z) : Trace :=
  RenderPortalRecursive_fuel (fuelFor currentRecursion) portal context currentRecursion.

(** [RenderPortals(portals, context, renderScene)], with [portals] the
    list [allPortals]. *)
Definition RenderPortals (context : RenderContext) : Trace :=
  [ Gl (glClearStencil 0); Gl (glClear false false true) ] ++
  forEach allPortals (fun portal _ =>
    [ Call (FRenderPortalRecursive portal (viewMatrix context)
                                   (projectionMatrix context) 0)
           (RenderPortalRecursive portal context 0) ]) ++
  [ Gl (glDisable GL_STENCIL_TEST) ] ++
  forEach allPortals (fun portal this =>
    if negb (isActive this) then [] else
    [ Gl (glUseProgram (shaderProgram portal));
      Gl (glBindVertexArray (Some (meshVAO portal)));
      Gl (glUniformMatrix4fv uModel (transform this));
      Gl (glUniformMatrix4fv uView (viewMatrix context));
      Gl (glUniformMatrix4fv uProjection (projectionMatrix context));
      Gl glDrawElements;
      Gl (glBindVertexArray None) ]).

End Recursive.

(** The portals that the calls of [RenderPortalRecursive] at the top of a
    trace, or of its steps, render: the callee did not return at once. *)
Definition rendered (t : Trace) : list (nat * Z) :=
  flat_map (fun c => match c with
                     | (FRenderPortalRecursive portal _ _ level, _ :: _) => [(portal, level)]
                     | _ => []
                     end) (calls t).

(** A call of the [renderScene] callback. *)
Definition isSceneCallback (f : GL.Callee) : bool :=
  match f with GL.FrenderScene _ _ => true | _ => false end.

(** [1 + (n - 1) * (1 + (n - 1) * ...)], [depth] terms deep: with [n]
    portals and [depth] levels left, one call of
    [RenderPortalRecursive] runs the callback no more often. *)
Fixpoint callbackBound (n depth : nat) : nat :=
  match depth with
  | O => O
  | S depth' => 1 + (n - 1) * callbackBound n depth'
  end.

(** [Portal::GetPosition()]. *)
Definition GetPosition (portal : Portal) : vec3 := xyz (c3 (transform portal)).

Section Axes.

Variable normalize : vec3 -> vec3.

(** [Portal::GetNormal()], [Portal::GetUp()], [Portal::GetRight()]. *)
Definition GetNormal (portal : Portal) : vec3 := normalize (xyz (c2 (transform portal))).
Definition GetUp (portal : Portal) : vec3 := normalize (xyz (c1 (transform portal))).
Definition GetRight (portal : Portal) : vec3 := normalize (xyz (c0 (transform portal))).

End Axes.

(** [CreatePortalMesh(portal)]: the arrays [vertices] (four rows of
    position, normal and uv) and [indices] that it uploads. *)
Definition CreatePortalMesh_vertices (portal : Portal) : list Qc :=
  let hw := width portal * dec 5 10 in
  let hh := height portal * dec 5 10 in
  [ - hw; - hh; 0;   0; 0; 1;   0; 0;
      hw; - hh; 0;   0; 0; 1;   1; 0;
      hw;   hh; 0;   0; 0; 1;   1; 1;
    - hw;   hh; 0;   0; 0; 1;   0; 1 ].

Definition CreatePortalMesh_indices : list nat := [0; 1; 2; 2; 3; 0]%nat.

(** The position attribute of vertex [i]: three floats at offset 0 of a
    row of eight floats (the first [glVertexAttribPointer], of size 3,
    stride [8 * sizeof(float)] and offset 0). *)
Definition aPos (vertices : list Qc) (i : nat) : vec3 :=
  Vec3 (nth (8 * i) vertices 0) (nth (8 * i + 1) vertices 0)
       (nth (8 * i + 2) vertices 0).

(** [vWorldPos] of the portal vertex shader: [uModel * vec4(aPos, 1.0)]. *)
Definition vWorldPos (uModel : mat4) (aPos : vec3) : vec3 :=
  xyz (mulMV uModel (ext aPos 1)).

End PortalRenderer.

(** ** main_example.cpp: the recursive renderer *)
Module MainExample.
Import GL PortalRenderer.

Definition MAX_PORTAL_RECURSION : Z := 4.

(** [glm::mat4(glm::mat3(m))]. *)
Definition mat3of (m : mat4) : mat4 :=
  Mat4 (ext (xyz (c0 m)) 0) (ext (xyz (c1 m)) 0) (ext (xyz (c2 m)) 0) (Vec4 0 0 0 1).

(** [glm::perspective(fov, aspect, zNear, zFar)], given the tangent of
    half the field of view. *)
Definition perspective (tanHalfFovy aspect zNear zFar : Qc) : mat4 :=
  Mat4 (Vec4 (1 / (aspect * tanHalfFovy)) 0 0 0)
       (Vec4 0 (1 / tanHalfFovy) 0 0)
       (Vec4 0 0 (- (zFar + zNear) / (zFar - zNear)) (- (1)))
       (Vec4 0 0 (- (dec 2 1 * zFar * zNear) / (zFar - zNear)) 0).

(** [RenderScene(viewMatrix, projectionMatrix)]. *)
Definition RenderScene (viewMatrix projectionMatrix : mat4) : Trace :=
  [ Gl (glUseProgram g_SceneShader);
    Gl (glUniformMatrix4fv uMVP (mulMM projectionMatrix viewMatrix));
    Gl (glBindVertexArray (Some g_FloorVAO)); Gl glDrawArrays;
    Gl (glBindVertexArray (Some g_WallVAO)); Gl glDrawArrays;
    Gl (glBindVertexArray (Some g_BoxVAO)); Gl glDrawArrays;
    Gl (glBindVertexArray (Some g_PillarVAO)); Gl glDrawArrays;
    Gl (glBindVertexArray None) ].

(** [RenderSkybox(viewMatrix, projectionMatrix, time)]. *)
Definition RenderSkybox (viewMatrix projectionMatrix : mat4) (time : Qc) : Trace :=
  let viewNoTranslation := mat3of viewMatrix in
  let viewProj := mulMM projectionMatrix viewNoTranslation in
  [ Gl (glDepthFunc GL_LEQUAL);
    Gl (glDepthMask false);
    Gl (glUseProgram g_SkyboxShader);
    Gl (glUniformMatrix4fv uViewProj viewProj);
    Gl (glUniform1f_uTime time);
    Gl (glBindVertexArray (Some g_SkyboxVAO)); Gl glDrawArrays;
    Gl (glBindVertexArray None);
    Gl (glDepthMask true);
    Gl (glDepthFunc GL_LESS) ].

(** The outcome of step 3 of [RenderPortalContent]: the branch is left
    ([skipPortalRender], or the portal is too near in the fallback), or
    the oblique projection is used with the clip plane, or a perspective
    projection with [safeNearPlane] as its near plane. *)
Inductive ClipStrategy :=
| SkipPortalRender
| ObliqueClipping (clipPlane : vec4)
| DistanceNearPlane (safeNearPlane : Qc).

(** The checks of step 3, from the clip normal and the position of the
    destination portal in the view space of the virtual camera. *)
Definition chooseClipStrategy (clipNormalView clipPosView : vec3) : ClipStrategy :=
  let clipD := - dot3 clipNormalView clipPosView in
  let clipPlane :=
    Vec4 (x3 clipNormalView) (y3 clipNormalView) (z3 clipNormalView)
         (clipD - dec 1 100) in
  let useObliqueClipping := negb (abs (z3 clipNormalView) <? dec 5 100) in
  let skipPortalRender := dec (-1) 100 <? clipD in
  if skipPortalRender then SkipPortalRender else
  if useObliqueClipping then ObliqueClipping clipPlane else
  let portalDist := - z3 clipPosView in
  if portalDist <? dec 1 10 then SkipPortalRender else
  DistanceNearPlane (max (dec 1 100) (portalDist * dec 9 10)).

(** The extra turn of the source frame for a portal seen from behind:
    [effectiveSrcTransform] of [RenderPortalContent]. *)
Definition effectiveSrcTransform (portal : Portal) (viewingSide : Z) : mat4 :=
  if (viewingSide <? 0)%Z then mulMM (transform portal) rotate180Y
  else transform portal.

Section Renderer.

(** [glm::normalize] and [glm::length] take a square root, which the
    rationals lack: the renderer is parameterised by them. *)
Variable normalize : vec3 -> vec3.
Variable length : vec3 -> Qc.

(** The global [g_Portals]. *)
Variable g_Portals : list Portal.

(** [IsPortalVisible(portal, cameraPos, cameraForward)]. *)
Definition IsPortalVisible (portal : Portal) (cameraPos cameraForward : vec3) : bool :=
  let portalPos := xyz (c3 (transform portal)) in
  let toPortal := sub3 portalPos cameraPos in
  if dot3 toPortal cameraForward <? - (1) then false
  else if dec 100 1 <? length toPortal then false
  else true.

(** [GetPortalViewingSide(portal, cameraPos)]. *)
Definition GetPortalViewingSide (portal : Portal) (cameraPos : vec3) : Z :=
  let portalPos := xyz (c3 (transform portal)) in
  let portalNormal := xyz (mulMV (transform portal) (Vec4 0 0 1 0)) in
  let toCamera := sub3 cameraPos portalPos in
  if 0 <? dot3 toCamera portalNormal then 1%Z else (-1)%Z.

(** [portal == excludePortal || portal == excludePortal->linkedPortal],
    under [excludePortal != nullptr]. *)
Definition isExcluded (excludePortal : option nat) (portal : nat) : bool :=
  match excludePortal with
  | None => false
  | Some exclude =>
      Nat.eqb portal exclude ||
      match nth_error g_Portals exclude with
      | Some e => match linkedPortal e with
                  | Some linked => Nat.eqb portal linked
                  | None => false
                  end
      | None => false
      end
  end.

(** [RenderPortalFramesExcluding(viewMatrix, projectionMatrix, time,
    excludePortal)]. *)
Definition RenderPortalFramesExcluding (viewMatrix projectionMatrix : mat4)
           (time : Qc) (excludePortal : option nat) : Trace :=
  [ Gl (glUseProgram g_SceneShader) ] ++
  forEach g_Portals (fun i portal =>
    if isExcluded excludePortal i then [] else
    [ Gl (glUniformMatrix4fv uMVP
            (mulMM (mulMM projectionMatrix viewMatrix) (transform portal)));
      Gl (glBindVertexArray (Some g_PortalFrameVAO));
      Gl glDrawArrays ]) ++
  [ Gl (glBindVertexArray None) ].

(** The clip normal and the position of the destination portal in the
    view space of the virtual camera (step 3). *)
Definition clipPosView (virtualViewMatrix : mat4) (destPortal : Portal) : vec3 :=
  let destPortalPos := xyz (c3 (transform destPortal)) in
  xyz (mulMV virtualViewMatrix (ext destPortalPos 1)).

Definition clipNormalView (virtualViewMatrix : mat4) (destPortal : Portal) : vec3 :=
  let destPortalNormal :=
    normalize (xyz (mulMV (transform destPortal) (Vec4 0 0 1 0))) in
  let clipNormalView :=
    normalize (xyz (mulMV virtualViewMatrix (ext destPortalNormal 0))) in
  if 0 <? z3 clipNormalView then neg3 clipNormalView else clipNormalView.

(** The projection of the virtual camera for a strategy that does not
    skip (step 3).  In the fallback the source recovers the field of
    view as [2 * atan(1 / projectionMatrix[1][1])]; the tangent of its
    half is [1 / projectionMatrix[1][1]]. *)
Definition virtualProjectionFor (projectionMatrix : mat4) (strategy : ClipStrategy) : mat4 :=
  match strategy with
  | SkipPortalRender => projectionMatrix
  | ObliqueClipping clipPlane =>
      PortalMath.CalculateObliqueProjectionMatrix projectionMatrix clipPlane
  | DistanceNearPlane safeNearPlane =>
      let tanHalfFov := 1 / y4 (c1 projectionMatrix) in
      let aspect := y4 (c1 projectionMatrix) / x4 (c0 projectionMatrix) in
      let farPlane := dec 100 1 in
      perspective tanHalfFov aspect safeNearPlane farPlane
  end.

(** What step 3 does once the strategy is chosen: it disables the
    stencil test before the function returns, or computes the oblique
    projection, or the perspective projection of the fallback. *)
Definition applyClipStrategy (projectionMatrix : mat4) (strategy : ClipStrategy) : Trace :=
  match strategy with
  | SkipPortalRender => [ Gl (glDisable GL_STENCIL_TEST) ]
  | ObliqueClipping clipPlane =>
      [ Call (FCalculateObliqueProjectionMatrix projectionMatrix clipPlane) [] ]
  | DistanceNearPlane safeNearPlane =>
      [ Call (Fperspective safeNearPlane (dec 100 1)) [] ]
  end.

(** The draw of the portal's surface with the matrices of the caller. *)
Definition drawPortalSurface (viewMatrix projectionMatrix : mat4) (portal : Portal) : Trace :=
  [ Gl (glUseProgram g_SceneShader);
    Gl (glUniformMatrix4fv uMVP
          (mulMM (mulMM projectionMatrix viewMatrix) (transform portal)));
    Gl (glBindVertexArray (Some g_PortalSurfaceVAO));
    Gl glDrawArrays ].

(** [RenderPortalContent(portal, viewMatrix, projectionMatrix, cameraPos,
    recursionLevel, stencilValue, currentTime, viewingSide)].
    [RenderPortalsRecursive] stands for the function of that name,
    declared before and defined after this one in the source.  The
    call of a portal that is not in [g_Portals], or whose partner is
    not, dereferences a dangling pointer; the model returns. *)
Definition RenderPortalContent
           (RenderPortalsRecursive :
              mat4 -> mat4 -> vec3 -> vec3 -> Z -> Z -> Qc -> option nat -> Trace)
           (portal : nat) (viewMatrix projectionMatrix : mat4) (cameraPos : vec3)
           (recursionLevel stencilValue : Z) (currentTime : Qc) (viewingSide : Z) : Trace :=
  match nth_error g_Portals portal with
  | None => []
  | Some this =>
  match linkedPortal this with
  | None => []
  | Some linked =>
  match nth_error g_Portals linked with
  | None => []
  | Some destPortal =>
  let effectiveSrcTransform := effectiveSrcTransform this viewingSide in
  (* step 2 *)
  let virtualViewMatrix :=
    PortalMath.CalculatePortalViewMatrix viewMatrix (transform this)
                                         (transform destPortal) in
  let portalTransform :=
    PortalMath.ComputePortalTransform (transform this) (transform destPortal) in
  let currentCameraPos := xyz (c3 (inverse viewMatrix)) in
  let virtualCameraPos := xyz (mulMV portalTransform (ext currentCameraPos 1)) in
  (* step 3 *)
  let strategy :=
    chooseClipStrategy (clipNormalView virtualViewMatrix destPortal)
                       (clipPosView virtualViewMatrix destPortal) in
  let virtualProjection := virtualProjectionFor projectionMatrix strategy in
  (* step 6 *)
  let invVirtualView := inverse virtualViewMatrix in
  let virtualCameraForward := neg3 (normalize (xyz (c2 invVirtualView))) in
  [ Step MarkStencil
      ([ Gl (glEnable GL_STENCIL_TEST);
         Gl (if (recursionLevel =? 0)%Z
             then glStencilFunc GL_ALWAYS stencilValue 255
             else glStencilFunc GL_EQUAL (stencilValue - 1) 255);
         Gl (glStencilOp GL_KEEP GL_KEEP GL_REPLACE);
         Gl (glStencilMask 255);
         Gl (glColorMask false);
         Gl (glDepthMask false);
         Gl (glDisable GL_CULL_FACE) ] ++
       drawPortalSurface viewMatrix projectionMatrix this ++
       [ Gl (glEnable GL_CULL_FACE);
         Gl (glColorMask true);
         Gl (glDepthMask true) ]);
    Step ComputeVirtualCamera
      [ Call (FCalculatePortalViewMatrix viewMatrix (transform this)
                                         (transform destPortal)) [];
        Call (FComputePortalTransform (transform this) (transform destPortal)) [] ];
    Step ComputeObliqueProjection (applyClipStrategy projectionMatrix strategy) ]
  ++
  match strategy with
  | SkipPortalRender => []
  | _ =>
  [ Step ClearPortalDepth
      ([ Gl (glStencilFunc GL_EQUAL stencilValue 255);
         Gl (glStencilOp GL_KEEP GL_KEEP GL_KEEP);
         Gl (glStencilMask 0);
         Gl (glDisable GL_CULL_FACE);
         Gl (glColorMask false);
         Gl (glDepthMask true);
         Gl (glDepthFunc GL_ALWAYS);
         Gl (glDepthRange 1 1) ] ++
       drawPortalSurface viewMatrix projectionMatrix this ++
       [ Gl (glDepthRange 0 1);
         Gl (glDepthFunc GL_LESS);
         Gl (glColorMask true);
         Gl (glEnable GL_CULL_FACE);
         Gl (glStencilMask 255) ]);
    Step RenderPortalScene
      [ Gl (glEnable GL_STENCIL_TEST);
        Gl (glStencilFunc GL_EQUAL stencilValue 255);
        Gl (glStencilOp GL_KEEP GL_KEEP GL_KEEP);
        Gl (glStencilMask 0);
        Call (FRenderSkybox virtualViewMatrix virtualProjection)
             (RenderSkybox virtualViewMatrix virtualProjection currentTime);
        Call (FRenderScene virtualViewMatrix virtualProjection)
             (RenderScene virtualViewMatrix virtualProjection);
        Call (FRenderPortalFramesExcluding virtualViewMatrix virtualProjection
                                           (Some portal))
             (RenderPortalFramesExcluding virtualViewMatrix virtualProjection
                                          currentTime (Some portal)) ];
    Step RecurseNestedPortals
      [ Call (FRenderPortalsRecursive virtualViewMatrix virtualProjection
                                      (recursionLevel + 1) stencilValue (Some portal))
             (RenderPortalsRecursive virtualViewMatrix virtualProjection
                                     virtualCameraPos virtualCameraForward
                                     (recursionLevel + 1)%Z stencilValue currentTime
                                     (Some portal)) ];
    Step SealPortalDepth
      ([ Gl (glEnable GL_STENCIL_TEST);
         Gl (glStencilFunc GL_EQUAL stencilValue 255);
         Gl (glStencilOp GL_KEEP GL_KEEP GL_KEEP);
         Gl (glStencilMask 0);
         Gl (glColorMask false);
         Gl (glDepthMask true);
         Gl (glDepthFunc GL_ALWAYS);
         Gl (glDisable GL_CULL_FACE) ] ++
       drawPortalSurface viewMatrix projectionMatrix this ++
       [ Gl (glColorMask true);
         Gl (glDepthFunc GL_LESS);
         Gl (glEnable GL_CULL_FACE);
         Gl (glStencilMask 255) ]);
    Step RestoreStencilState
      [ Gl (glStencilFunc GL_EQUAL
              (if (recursionLevel =? 0)%Z then 0 else stencilValue - 1)%Z 255);
        Gl (glStencilOp GL_KEEP GL_KEEP GL_KEEP);
        Gl (glDisable GL_STENCIL_TEST) ] ]
  end
  end end end.

(** [RenderPortalsRecursive(viewMatrix, projectionMatrix, cameraPos,
    cameraForward, recursionLevel, stencilValue, currentTime,
    excludePortal)].  [fuel] bounds the depth of the recursion of the
    model; [RenderPortalsRecursive] below supplies enough of it. *)
Fixpoint RenderPortalsRecursive_fuel (fuel : nat)
         (viewMatrix projectionMatrix : mat4) (cameraPos cameraForward : vec3)
         (recursionLevel stencilValue : Z) (currentTime : Qc)
         (excludePortal : option nat) : Trace :=
  match fuel with
  | O => []
  | S fuel' =>
  if (MAX_PORTAL_RECURSION <=? recursionLevel)%Z then [] else
  forEach g_Portals (fun i portal =>
    if negb (isActive portal) ||
       match linkedPortal portal with None => true | Some _ => false end
    then [] else
    if isExcluded excludePortal i then [] else
    let actualCameraPos := xyz (c3 (inverse viewMatrix)) in
    if negb (IsPortalVisible portal actualCameraPos cameraForward) then [] else
    let viewingSide := GetPortalViewingSide portal actualCameraPos in
    [ Call (FRenderPortalContent i viewMatrix projectionMatrix recursionLevel
                                 (stencilValue + Z.of_nat i + 1) viewingSide)
           (RenderPortalContent (RenderPortalsRecursive_fuel fuel')
                                i viewMatrix projectionMatrix actualCameraPos
                                recursionLevel (stencilValue + Z.of_nat i + 1)%Z
                                currentTime viewingSide) ])
  end.

(** The recursion stops at [MAX_PORTAL_RECURSION]: from
    [recursionLevel], that many levels and one call are enough. *)
Definition fuelFor (recursionLevel : Z) : nat :=
  S (Z.to_nat (MAX_PORTAL_RECURSION - recursionLevel)).

Definition RenderPortalsRecursive
           (viewMatrix projectionMatrix : mat4) (cameraPos cameraForward : vec3)
           (recursionLevel stencilValue : Z) (currentTime : Qc)
           (excludePortal : option nat) : Trace :=
  RenderPortalsRecursive_fuel (fuelFor recursionLevel) viewMatrix projectionMatrix
                              cameraPos cameraForward recursionLevel stencilValue
                              currentTime excludePortal.

(** [RenderPortalFrames(viewMatrix, projectionMatrix, time)]. *)
Definition RenderPortalFrames (viewMatrix projectionMatrix : mat4) (time : Qc) : Trace :=
  [ Gl (glEnable GL_STENCIL_TEST);
    Gl (glStencilFunc GL_EQUAL 0 255);
    Gl (glStencilOp GL_KEEP GL_KEEP GL_KEEP);
    Gl (glStencilMask 0);
    Call (FRenderPortalFramesExcluding viewMatrix projectionMatrix None)
         (RenderPortalFramesExcluding viewMatrix projectionMatrix time None);
    Gl (glDisable GL_STENCIL_TEST);
    Gl (glStencilMask 255) ].

(** [RenderFrame()], from the view and projection matrices, the camera
    position and direction and the time it computes at its start. *)
Definition RenderFrame (viewMatrix projectionMatrix : mat4)
           (g_CameraPosition front : vec3) (currentTime : Qc) : Trace :=
  [ Gl glClearColor;
    Gl (glClear true true true);
    Call (FRenderScene viewMatrix projectionMatrix)
         (RenderScene viewMatrix projectionMatrix);
    Call (FRenderSkybox viewMatrix projectionMatrix)
         (RenderSkybox viewMatrix projectionMatrix currentTime);
    Call (FRenderPortalsRecursive viewMatrix projectionMatrix 0 0 None)
         (RenderPortalsRecursive viewMatrix projectionMatrix g_CameraPosition front
                                 0 0 currentTime None) ] ++
  RenderPortalFrames viewMatrix projectionMatrix currentTime.

End Renderer.

(** A traversal is a call of [RenderPortalContent]. *)
Definition isTraversal (f : Callee) : bool :=
  match f with FRenderPortalContent _ _ _ _ _ _ => true | _ => false end.

(** A content pass is a call of [RenderScene]. *)
Definition isContentPass (f : Callee) : bool :=
  match f with FRenderScene _ _ => true | _ => false end.



(** The levels of a trace of [RenderPortalsRecursive] at [level]: every
    traversal it starts is at [level], below [MAX_PORTAL_RECURSION], and
    every call of [RenderPortalsRecursive] inside a traversal is at the
    level of the traversal plus one. *)
Fixpoint levelsOk (level : Z) (e : Event) : bool :=
  match e with
  | Gl _ => true
  | Step _ body => forallb (levelsOk level) body
  | Call (FRenderPortalContent _ _ _ l _ _) body =>
      (l =? level)%Z && (l <? MAX_PORTAL_RECURSION)%Z && forallb (levelsOk level) body
  | Call (FRenderPortalsRecursive _ _ l _ _) body =>
      (l =? level + 1)%Z && forallb (levelsOk l) body
  | Call _ body => forallb (levelsOk level) body
  end.

(** [n * (1 + n * (1 + ...))], [depth] factors deep: with [n] portals and
    [depth] levels left, no walk issues more content passes. *)
Fixpoint passBound (n depth : nat) : nat :=
  match depth with
  | O => O
  | S depth' => n * (1 + passBound n depth')
  end.

(** The portals of the traversals a trace starts at its top. *)
Definition traversed (t : Trace) : list nat :=
  flat_map (fun e => match e with
                     | Call (FRenderPortalContent portal _ _ _ _ _) _ => [portal]
                     | _ => []
                     end) t.

(** The stencil tags of the traversals a trace starts at its top. *)
Definition tags (t : Trace) : list Z :=
  flat_map (fun e => match e with
                     | Call (FRenderPortalContent _ _ _ _ stencilValue _) _ => [stencilValue]
                     | _ => []
                     end) t.

(** Every traversal in the event carries a tag above the tag of the
    traversal around it ([parent] at the top) and at most [limit]. *)
Fixpoint tagsWithin (parent limit : Z) (e : Event) : bool :=
  match e with
  | Gl _ => true
  | Step _ body => forallb (tagsWithin parent limit) body
  | Call (FRenderPortalContent _ _ _ _ tag _) body =>
      (parent <? tag)%Z && (tag <=? limit)%Z && forallb (tagsWithin tag limit) body
  | Call _ body => forallb (tagsWithin parent limit) body
  end.

(** The projection helper of [main_example.cpp], under a name space of
    its own: a step of the traversal bears the same name. *)
Module Oblique.

(** [ComputeObliqueProjection(projection, clipPlane)]. *)
Definition ComputeObliqueProjection (projection : mat4) (clipPlane : vec4) : mat4 :=
  let result := projection in
  let q := Vec4 ((sign (x4 clipPlane) + x4 (c2 result)) / x4 (c0 result))
                ((sign (y4 clipPlane) + y4 (c2 result)) / y4 (c1 result))
                (- (1))
                ((1 + z4 (c2 result)) / z4 (c3 result)) in
  let c := scale4 clipPlane (dec 2 1 / dot4 clipPlane q) in
  Mat4 (Vec4 (x4 (c0 result)) (y4 (c0 result)) (x4 c) (w4 (c0 result)))
       (Vec4 (x4 (c1 result)) (y4 (c1 result)) (y4 c) (w4 (c1 result)))
       (Vec4 (x4 (c2 result)) (y4 (c2 result)) (z4 c + 1) (w4 (c2 result)))
       (Vec4 (x4 (c3 result)) (y4 (c3 result)) (w4 c) (w4 (c3 result))).

End Oblique.

End MainExample.

(** ** PortalTeleporter.h *)
Module PortalTeleporter.

Record TeleportableEntity := mkEntity {
  position : vec3;
  previousPosition : vec3;
  velocity : vec3;
  transform : mat4;
  isNearPortal : bool;
  lastTeleportTime : Qc
}.

(** [IsPointInPortalBounds(worldPoint, portalMatrix, halfWidth, halfHeight)]. *)
Definition IsPointInPortalBounds (worldPoint : vec3) (portalMatrix : mat4)
           (halfWidth halfHeight : Qc) : bool :=
  let portalInverse := inverse portalMatrix in
  let localPoint := mulMV portalInverse (ext worldPoint 1) in
  (abs (x4 localPoint) <=? halfWidth) && (abs (y4 localPoint) <=? halfHeight).

(** The two function-local statics named [s_time]: one belongs to
    [GetCurrentTime], the other to [SetCurrentTime]. *)
Record Statics := mkStatics {
  GetCurrentTime_s_time : Qc;
  SetCurrentTime_s_time : Qc
}.

(** Both are initialised to [0.0f]. *)
Definition initialStatics : Statics := mkStatics 0 0.

(** [GetCurrentTime()]: returns its own static. *)
Definition GetCurrentTime (s : Statics) : Qc * Statics :=
  (GetCurrentTime_s_time s, s).

(** [SetCurrentTime(time)]: assigns its own static. *)
Definition SetCurrentTime (time : Qc) (s : Statics) : Statics :=
  mkStatics (GetCurrentTime_s_time s) time.

Definition TELEPORT_COOLDOWN : Qc := dec 3 10.

(** The test of the cooldown [if] of [ShouldTeleport]. *)
Definition cooldownActive (entity : TeleportableEntity) (currentTime : Qc) : bool :=
  (0 <? currentTime) && (currentTime - lastTeleportTime entity <? TELEPORT_COOLDOWN).

(** [crossedPortal] of [ShouldTeleport]. *)
Definition crossedPortal (prevDist currDist : Qc) : bool :=
  ((0 <? prevDist) && (currDist <=? 0)) || ((prevDist <? 0) && (0 <=? currDist)).

(** [crossPoint] of [ShouldTeleport]. *)
Definition crossPoint (entity : TeleportableEntity) (prevDist currDist : Qc) : vec3 :=
  let t := prevDist / (prevDist - currDist) in
  mix (previousPosition entity) (position entity) t.

(** [ShouldTeleport(entity, portal, halfWidth, halfHeight, currentTime)]:
    the result and the entity after the call ([entity] is passed by
    reference and [lastTeleportTime] is stamped on success). *)
Definition ShouldTeleport (entity : TeleportableEntity) (portal : PortalRenderer.Portal)
           (halfWidth halfHeight currentTime : Qc) : bool * TeleportableEntity :=
  if cooldownActive entity currentTime then (false, entity) else
  let prevDist :=
    PortalMath.GetSignedDistanceToPortal (previousPosition entity)
                                         (PortalRenderer.transform portal) in
  let currDist :=
    PortalMath.GetSignedDistanceToPortal (position entity)
                                         (PortalRenderer.transform portal) in
  if negb (crossedPortal prevDist currDist) then (false, entity) else
  if IsPointInPortalBounds (crossPoint entity prevDist currDist)
                           (PortalRenderer.transform portal) halfWidth halfHeight
  then (true, mkEntity (position entity) (previousPosition entity) (velocity entity)
                       (transform entity) (isNearPortal entity) currentTime)
  else (false, entity).

Section Teleport.

(** [glm::normalize] and [glm::length], as in the renderer. *)
Variable normalize : vec3 -> vec3.
Variable length : vec3 -> Qc.

(** [TeleportEntity(entity, sourcePortal, targetPortal)]: the entity
    after the call. *)
Definition TeleportEntity (entity : TeleportableEntity)
           (sourcePortal targetPortal : PortalRenderer.Portal) : TeleportableEntity :=
  let source := PortalRenderer.transform sourcePortal in
  let target := PortalRenderer.transform targetPortal in
  mkEntity (PortalMath.TeleportPosition (position entity) source target)
           (PortalMath.TeleportPosition (previousPosition entity) source target)
           (scale3 (PortalMath.TeleportDirection normalize (velocity entity) source target)
                   (length (velocity entity)))
           (PortalMath.TeleportMatrix (transform entity) source target)
           (isNearPortal entity) (lastTeleportTime entity).

End Teleport.

(** [CalculateCloneTransform(entityTransform, portal)]; [portals] is the
    registry in which [portal->linkedPortal] is looked up.  A partner
    that is not in the registry is a dangling pointer; the model
    returns the transform unchanged. *)
Definition CalculateCloneTransform (portals : list PortalRenderer.Portal)
           (entityTransform : mat4) (portal : PortalRenderer.Portal) : mat4 :=
  match PortalRenderer.linkedPortal portal with
  | None => entityTransform
  | Some linked =>
      match nth_error portals linked with
      | None => entityTransform
      | Some linkedPortal =>
          PortalMath.TeleportMatrix entityTransform (PortalRenderer.transform portal)
                                    (PortalRenderer.transform linkedPortal)
      end
  end.

(** [ShouldRenderClone(entity, portal, threshold)]. *)
Definition ShouldRenderClone (entity : TeleportableEntity)
           (portal : PortalRenderer.Portal) (threshold : Qc) : bool :=
  let dist :=
    abs (PortalMath.GetSignedDistanceToPortal (position entity)
                                              (PortalRenderer.transform portal)) in
  dist <? threshold.

End PortalTeleporter.

(** ** The vocabulary of the specification *)
Module Spec.

(** A portal's position and its local +Z axis. *)
Definition portalPosition (m : mat4) : vec3 := xyz (c3 m).
Definition portalZ (m : mat4) : vec3 := xyz (c2 m).

(** A rigid frame: the bottom row is [(0, 0, 0, 1)], the three basis
    columns are orthonormal and right-handed (determinant one). *)
Definition affine (m : mat4) : Prop :=
  w4 (c0 m) = 0 /\ w4 (c1 m) = 0 /\ w4 (c2 m) = 0 /\ w4 (c3 m) = 1.

Definition orthonormal (m : mat4) : Prop :=
  let a := xyz (c0 m) in let b := xyz (c1 m) in let c := xyz (c2 m) in
  dot3 a a = 1 /\ dot3 b b = 1 /\ dot3 c c = 1 /\
  dot3 a b = 0 /\ dot3 a c = 0 /\ dot3 b c = 0.

Definition det3 (m : mat4) : Qc :=
  let '(Mat4 (Vec4 a b c _) (Vec4 d e f _) (Vec4 g h i _) _) := m in
  a * (e * i - h * f) - d * (b * i - h * c) + g * (b * f - e * c).

Definition rigid (m : mat4) : Prop :=
  affine m /\ orthonormal m /\ det3 m = 1.

(** The sign of the signed distance flips, in either direction, with a
    strict comparison on at least one side: from the front or the plane
    to the back or the plane, or the other way round, and not from the
    plane to the plane. *)
Definition signFlips (prevDist currDist : Qc) : Prop :=
  (0 < prevDist /\ currDist <= 0) \/ (0 <= prevDist /\ currDist < 0) \/
  (prevDist < 0 /\ 0 <= currDist) \/ (prevDist <= 0 /\ 0 < currDist).

(** The previous position lies strictly on one side of the plane and
    the current one on the plane or on the other side. *)
Definition leavesSide (prevDist currDist : Qc) : Prop :=
  (0 < prevDist /\ currDist <= 0) \/ (prevDist < 0 /\ 0 <= currDist).

(** The divisions of [CalculateObliqueProjectionMatrix] are defined:
    none of its four divisors is zero. *)
Definition obliqueDefined (projectionMatrix : mat4) (clipPlane : vec4) : Prop :=
  x4 (c0 projectionMatrix) <> 0 /\ y4 (c1 projectionMatrix) <> 0 /\
  z4 (c3 projectionMatrix) <> 0 /\
  dot4 clipPlane
       (PortalMath.CalculateObliqueProjectionMatrix_q projectionMatrix clipPlane) <> 0.

(** A world point, expressed in the portal's local frame, lies in the
    portal's rectangle. *)
Definition inRectangle (worldPoint : vec3) (portalMatrix : mat4)
           (halfWidth halfHeight : Qc) : Prop :=
  let localPoint := mulMV (inverse portalMatrix) (ext worldPoint 1) in
  abs (x4 localPoint) <= halfWidth /\ abs (y4 localPoint) <= halfHeight.

(** The coordinates of a world point in the local frame of a portal. *)
Definition localPoint (portalMatrix : mat4) (worldPoint : vec3) : vec4 :=
  mulMV (inverse portalMatrix) (ext worldPoint 1).

(** The passes of a traversal, as section 4.4 names them. *)
Inductive Phase :=
| Cull | Mark | ClearDepth | ComputeVirtualView
| RecurseChildren | RenderContent | SealDepth | RestoreStencil.

(** The pass to which a step of the source belongs; computing the
    projection is part of computing the virtual view. *)
Definition phaseOf (s : GL.StepName) : Phase :=
  match s with
  | GL.MarkStencil => Mark
  | GL.ComputeVirtualCamera | GL.ComputeObliqueProjection => ComputeVirtualView
  | GL.ClearPortalDepth => ClearDepth
  | GL.RenderPortalScene => RenderContent
  | GL.RecurseNestedPortals => RecurseChildren
  | GL.SealPortalDepth => SealDepth
  | GL.RestoreStencilState => RestoreStencil
  end.

Definition Phase_eqb (a b : Phase) : bool :=
  match a, b with
  | Cull, Cull | Mark, Mark | ClearDepth, ClearDepth
  | ComputeVirtualView, ComputeVirtualView | RecurseChildren, RecurseChildren
  | RenderContent, RenderContent | SealDepth, SealDepth
  | RestoreStencil, RestoreStencil => true
  | _, _ => false
  end.

(** A pass that spans consecutive steps is listed once. *)
Fixpoint merge (l : list Phase) : list Phase :=
  match l with
  | a :: (b :: _) as l' => if Phase_eqb a b then merge l' else a :: merge l'
  | _ => l
  end.

(** The passes of a traversal, in the order in which it executes them. *)
Definition phases (t : GL.Trace) : list Phase := merge (map phaseOf (GL.steps t)).

(** The order of the passes after the cull, as section 4.4 states it. *)
Definition statedOrder : list Phase :=
  [Mark; ClearDepth; ComputeVirtualView; RecurseChildren; RenderContent;
   SealDepth; RestoreStencil].

End Spec.

(** ** The scene of [main_example.cpp] and the inputs of the examples *)
Module Scene.
Import PortalRenderer.

(** [glm::rotate(m, angle, vec3(0, 1, 0))], given the cosine and the sine
    of the angle: [m] times the rotation with the columns
    [(c, 0, -s), (0, 1, 0), (s, 0, c)]. *)
Definition rotateY (m : mat4) (c s : Qc) : mat4 :=
  mulMM m (Mat4 (Vec4 c 0 (- s) 0) (Vec4 0 1 0 0) (Vec4 s 0 c 0) (Vec4 0 0 0 1)).

Definition PORTAL_WIDTH : Qc := dec 2 1.
Definition PORTAL_HEIGHT : Qc := dec 3 1.

(** [SetupPortals]: portal A at [(-5, 1.5, 0)] turned by 180 degrees,
    portal B at [(5, 1.5, -10)] turned by -90 degrees, linked to each
    other, and pushed to [g_Portals] in this order. *)
Definition portalA : Portal :=
  mkPortal (rotateY (translate (Vec3 (dec (-5) 1) (dec 3 2) 0)) (- (1)) 0)
           PORTAL_WIDTH PORTAL_HEIGHT (Some 1%nat) true.

Definition portalB : Portal :=
  mkPortal (rotateY (translate (Vec3 (dec 5 1) (dec 3 2) (dec (-10) 1))) 0 (- (1)))
           PORTAL_WIDTH PORTAL_HEIGHT (Some 0%nat) true.

Definition g_Portals : list Portal := [portalA; portalB].

(** [g_CameraPosition] at start-up. *)
Definition g_CameraPosition : vec3 := Vec3 0 (dec 17 10) (dec 5 1).

(** A portal at the origin, in the identity frame, with no partner. *)
Definition originPortal : Portal := mkPortal identity (dec 2 1) (dec 2 1) None true.

(** An entity that moves from [(0, 0, 1)] to [(0, 0, -1)] and whose last
    teleport was at time [last]. *)
Definition crossingEntity (last : Qc) : PortalTeleporter.TeleportableEntity :=
  PortalTeleporter.mkEntity (Vec3 0 0 (- (1))) (Vec3 0 0 1) (Vec3 0 0 0)
                            identity false last.

(** Stand-ins for [glm::length] and [glm::normalize] on the rationals:
    the integer square root, exact on the vectors of rational length. *)
Definition sqrtQc (q : Qc) : Qc :=
  Q2Qc (Z.sqrt (Qnum q * Zpos (Qden q)) # Qden q).

Definition lengthQ (v : vec3) : Qc := sqrtQc (dot3 v v).

Definition normalizeQ (v : vec3) : vec3 := scale3 v (1 / lengthQ v).

(** The camera of the first frame: at [g_CameraPosition], looking along
    -Z ([g_CameraYaw = -90], [g_CameraPitch = 0]), so that [glm::lookAt]
    is the translation by the opposite of the position. *)
Definition front : vec3 := Vec3 0 0 (- (1)).

Definition viewMatrix : mat4 :=
  translate (Vec3 0 (dec (-17) 10) (dec (-5) 1)).

(** A perspective projection with the aspect, near and far planes of
    [RenderFrame] and a field of view whose half has tangent 1/2. *)
Definition projectionMatrix : mat4 :=
  MainExample.perspective (dec 1 2) (dec 1280 720) (dec 1 10) (dec 1000 1).




(** A render context for [PortalRenderer::RenderPortals]. *)
Definition context : RenderContext :=
  mkContext viewMatrix projectionMatrix g_CameraPosition front 1280 720.

End Scene.

(** ** main_example.cpp: the player *)
Module Player.
Import PortalRenderer PortalTeleporter.

(** The globals that [SetupPlayer] and [UpdatePlayer] read and write. *)
Record Globals := mkGlobals {
  g_Player : TeleportableEntity;
  g_CameraPosition : vec3;
  g_CameraYaw : Qc;
  g_CameraPitch : Qc
}.

(** The globals at start-up: [g_Player] is zero-initialised, but for
    the defaults of its members. *)
Definition initialGlobals : Globals :=
  mkGlobals (mkEntity (Vec3 0 0 0) (Vec3 0 0 0) (Vec3 0 0 0)
                      (Mat4 (Vec4 0 0 0 0) (Vec4 0 0 0 0) (Vec4 0 0 0 0) (Vec4 0 0 0 0))
                      false 0)
            Scene.g_CameraPosition (dec (-90) 1) 0.

(** [SetupPlayer()]. *)
Definition SetupPlayer (g : Globals) : Globals :=
  mkGlobals (mkEntity (g_CameraPosition g) (g_CameraPosition g) (Vec3 0 0 0)
                      (translate (g_CameraPosition g))
                      (isNearPortal (g_Player g)) (lastTeleportTime (g_Player g)))
            (g_CameraPosition g) (g_CameraYaw g) (g_CameraPitch g).

(** [glm::clamp(x, minVal, maxVal)] is [min(max(x, minVal), maxVal)]. *)
Definition clamp (x minVal maxVal : Qc) : Qc :=
  let m := max x minVal in if maxVal <? m then maxVal else m.

Section Update.

(** [glm::normalize] and [glm::length], and the trigonometry of the
    camera angles, in degrees: [cos(glm::radians(a))],
    [sin(glm::radians(a))], [glm::degrees(atan2(y, x))] and
    [glm::degrees(asin(x))]. *)
Variable normalize : vec3 -> vec3.
Variable length : vec3 -> Qc.
Variables cosDegrees sinDegrees asinDegrees : Qc -> Qc.
Variable atan2Degrees : Qc -> Qc -> Qc.

(** The global [g_Portals]. *)
Variable g_Portals : list Portal.

(** The body of the [if] of [UpdatePlayer]: the entity, the camera
    position and the camera angles after the teleport. *)
Definition teleportPlayer (g : Globals) (portal linkedPortal : Portal) : Globals :=
  let player := TeleportEntity normalize length (g_Player g) portal linkedPortal in
  let currentForward :=
    normalize (Vec3 (cosDegrees (g_CameraYaw g) * cosDegrees (g_CameraPitch g))
                    (sinDegrees (g_CameraPitch g))
                    (sinDegrees (g_CameraYaw g) * cosDegrees (g_CameraPitch g))) in
  let newForward :=
    PortalMath.TeleportDirection normalize currentForward
                                 (PortalRenderer.transform portal)
                                 (PortalRenderer.transform linkedPortal) in
  mkGlobals player (position player)
            (atan2Degrees (z3 newForward) (x3 newForward))
            (asinDegrees (clamp (y3 newForward) (- (1)) 1)).

(** The loop of [UpdatePlayer] over the portals that are left.  A
    partner that is not in [g_Portals] is a dangling pointer; the
    model leaves the loop without teleporting. *)
Fixpoint UpdatePlayer_loop (portals : list Portal) (currentTime : Qc) (g : Globals) : Globals :=
  match portals with
  | [] => g
  | portal :: rest =>
      match PortalRenderer.linkedPortal portal with
      | None => UpdatePlayer_loop rest currentTime g
      | Some linked =>
          if negb (isActive portal) then UpdatePlayer_loop rest currentTime g else
          let (hit, player) :=
            ShouldTeleport (g_Player g) portal
                           (Scene.PORTAL_WIDTH / dec 2 1) (Scene.PORTAL_HEIGHT / dec 2 1)
                           currentTime in
          let g' := mkGlobals player (g_CameraPosition g) (g_CameraYaw g) (g_CameraPitch g) in
          if hit then
            match nth_error g_Portals linked with
            | Some linkedPortal => teleportPlayer g' portal linkedPortal
            | None => g'
            end
          else UpdatePlayer_loop rest currentTime g'
      end
  end.

(** [UpdatePlayer(deltaTime, currentTime)]. *)
Definition UpdatePlayer (deltaTime currentTime : Qc) (g : Globals) : Globals :=
  let player :=
    mkEntity (g_CameraPosition g) (position (g_Player g)) (velocity (g_Player g))
             (PortalTeleporter.transform (g_Player g))
             (isNearPortal (g_Player g)) (lastTeleportTime (g_Player g)) in
  UpdatePlayer_loop g_Portals currentTime
                    (mkGlobals player (g_CameraPosition g) (g_CameraYaw g) (g_CameraPitch g)).

End Update.

End Player.

(** * Properties *)

Lemma Qcltb_lt (x y : Qc) : (x <? y) = true <-> x < y.
Proof.
  unfold Qcltb. rewrite Qclt_alt. destruct (x ?= y); intuition congruence.
Qed.

Lemma Qcleb_le (x y : Qc) : (x <=? y) = true <-> x <= y.
Proof.
  unfold Qcleb. rewrite Qcle_alt. destruct (x ?= y); intuition congruence.
Qed.

(** Closed equations and comparisons between rationals, by evaluation. *)
Ltac qc_compute := apply Qc_is_canon; vm_compute; reflexivity.

Module GlmFacts.
Import Spec.

Lemma vec4_eq a b c d a' b' c' d' :
  a = a' -> b = b' -> c = c' -> d = d' -> Vec4 a b c d = Vec4 a' b' c' d'.
Proof. congruence. Qed.

Lemma mat4_eq a b c d a' b' c' d' :
  a = a' -> b = b' -> c = c' -> d = d' -> Mat4 a b c d = Mat4 a' b' c' d'.
Proof. congruence. Qed.

(** Unfold the vector and matrix operations down to the field
    operations on the entries, and no further. *)
Ltac glm_unfold :=
  cbv beta iota zeta delta
      [identity rotate180Y translate inverse determinant cofactors
       transpose scaleM mulMM mulMV mix dot4 scale4 mul4 sub4 add4
       dot3 scale3 neg3 sub3 add3 ext xyz
       x3 y3 z3 x4 y4 z4 w4 c0 c1 c2 c3] in *.

Ltac mat_ext := apply mat4_eq; apply vec4_eq; glm_unfold.

Lemma mul_neg1 (a : Qc) : a * - (1) = - a.
Proof. ring. Qed.

Lemma mulMV_assoc (m n : mat4) (v : vec4) :
  mulMV (mulMM m n) v = mulMV m (mulMV n v).
Proof.
  destruct m as [[] [] [] []], n as [[] [] [] []], v.
  apply vec4_eq; glm_unfold; ring.
Qed.

Lemma mulMM_assoc (m n p : mat4) :
  mulMM (mulMM m n) p = mulMM m (mulMM n p).
Proof.
  unfold mulMM at 1 3. cbn [c0 c1 c2 c3].
  apply mat4_eq; apply mulMV_assoc.
Qed.

Lemma inverse_left (m : mat4) :
  determinant m <> 0 -> mulMM (inverse m) m = identity.
Proof.
  destruct m as [[] [] [] []]. glm_unfold.
  rewrite !mul_neg1, !Qcmult_1_r.
  intros Hd. mat_ext; rewrite ?mul_neg1, ?Qcmult_1_r; field;
    contradict Hd; (etransitivity; [| exact Hd]); ring.
Qed.

Lemma inverse_right (m : mat4) :
  determinant m <> 0 -> mulMM m (inverse m) = identity.
Proof.
  destruct m as [[] [] [] []]. glm_unfold.
  rewrite !mul_neg1, !Qcmult_1_r.
  intros Hd. mat_ext; rewrite ?mul_neg1, ?Qcmult_1_r; field;
    contradict Hd; (etransitivity; [| exact Hd]); ring.
Qed.

Lemma rotate180Y_involutive : mulMM rotate180Y rotate180Y = identity.
Proof. mat_ext; ring. Qed.

Lemma mulMM_identity_l (m : mat4) : mulMM identity m = m.
Proof. destruct m as [[] [] [] []]. mat_ext; ring. Qed.

Lemma mulMV_identity (v : vec4) : mulMV identity v = v.
Proof. destruct v. apply vec4_eq; glm_unfold; ring. Qed.

Lemma ext_xyz (v : vec4) : w4 v = 1 -> ext (xyz v) 1 = v.
Proof. destruct v; glm_unfold; intros ->; reflexivity. Qed.

Lemma xyz_ext (p : vec3) (w : Qc) : xyz (ext p w) = p.
Proof. destruct p; reflexivity. Qed.

(** An affine matrix keeps the homogeneous weight of a vector. *)
Lemma affine_mulMV_w (m : mat4) (v : vec4) : affine m -> w4 (mulMV m v) = w4 v.
Proof.
  destruct m as [[] [] [] []], v. unfold affine; glm_unfold.
  intros (-> & -> & -> & ->). ring.
Qed.

Lemma affine_mulMM (a b : mat4) : affine a -> affine b -> affine (mulMM a b).
Proof.
  intros Ha (H0 & H1 & H2 & H3). unfold affine, mulMM; cbn [c0 c1 c2 c3].
  rewrite !affine_mulMV_w by assumption. auto.
Qed.

Lemma affine_rotate180Y : affine rotate180Y.
Proof. unfold affine; glm_unfold; auto. Qed.

(** For an affine matrix glm's determinant is that of the 3x3 block. *)
Lemma determinant_affine (m : mat4) : affine m -> determinant m = det3 m.
Proof.
  destruct m as [[] [] [] []]. unfold affine, det3; glm_unfold.
  intros (-> & -> & -> & ->). ring.
Qed.

Lemma one_neq_zero : (1 : Qc) <> 0.
Proof. discriminate. Qed.

Lemma rigid_invertible (m : mat4) : rigid m -> determinant m <> 0.
Proof.
  intros (Ha & _ & Hd). rewrite (determinant_affine m Ha), Hd.
  exact one_neq_zero.
Qed.

Lemma affine_inverse (m : mat4) :
  affine m -> determinant m <> 0 -> affine (inverse m).
Proof.
  destruct m as [[] [] [] []]. unfold affine; glm_unfold.
  intros (-> & -> & -> & ->). rewrite !mul_neg1, !Qcmult_1_r.
  intros Hd. repeat split; field;
    contradict Hd; (etransitivity; [| exact Hd]); ring.
Qed.

(** The pair transform of two invertible frames, composed with the
    pair transform of the swapped pair, is the identity. *)
Lemma pair_transform_swap (a b : mat4) :
  determinant a <> 0 -> determinant b <> 0 ->
  mulMM (PortalMath.ComputePortalTransform b a) (PortalMath.ComputePortalTransform a b)
  = identity.
Proof.
  intros Ha Hb. unfold PortalMath.ComputePortalTransform.
  rewrite !mulMM_assoc.
  rewrite <- (mulMM_assoc (inverse b) b), (inverse_left b Hb), mulMM_identity_l.
  rewrite <- (mulMM_assoc rotate180Y rotate180Y), rotate180Y_involutive, mulMM_identity_l.
  apply inverse_right, Ha.
Qed.

End GlmFacts.

(** ** The transform library *)
Module PortalMathFacts.
Import GlmFacts Spec PortalMath.

(** What the function computes: the negated component of the offset
    along the portal's local +Z axis. *)
Lemma GetSignedDistanceToPortal_eq (p : vec3) (m : mat4) :
  GetSignedDistanceToPortal p m = - dot3 (sub3 p (portalPosition m)) (portalZ m).
Proof.
  destruct p, m as [[] [] [] []].
  unfold GetSignedDistanceToPortal, portalPosition, portalZ. glm_unfold. ring.
Qed.

(** The plane of [GetPortalPlane] has the same negated normal: its
    equation, at a point, is the signed distance of the point. *)
Lemma GetPortalPlane_eq (p : vec3) (m : mat4) :
  dot4 (GetPortalPlane m) (ext p 1) = GetSignedDistanceToPortal p m.
Proof.
  destruct p, m as [[] [] [] []].
  unfold GetSignedDistanceToPortal, GetPortalPlane. glm_unfold. ring.
Qed.

(** C1.  The signed distance of the specification is
    [dot(p - portalPosition, portalNormal)] with the local +Z axis as
    normal, positive in front of the portal.  The function negates the
    axis: for every point and portal it returns the opposite number, and
    at the portal in the identity frame the point [(0, 0, 1)], one unit
    in front along +Z, where the specified distance is [1], gets [-1],
    which is not positive. *)
Theorem GetSignedDistanceToPortal_negated :
  (forall p m, GetSignedDistanceToPortal p m
               = - dot3 (sub3 p (portalPosition m)) (portalZ m)) /\
  portalZ identity = Vec3 0 0 1 /\
  dot3 (sub3 (Vec3 0 0 1) (portalPosition identity)) (portalZ identity) = 1 /\
  GetSignedDistanceToPortal (Vec3 0 0 1) identity = - (1) /\
  ~ 0 < GetSignedDistanceToPortal (Vec3 0 0 1) identity.
Proof.
  split; [exact GetSignedDistanceToPortal_eq |].
  split; [reflexivity |].
  split; [qc_compute |].
  assert (E : GetSignedDistanceToPortal (Vec3 0 0 1) identity = - (1))
    by qc_compute.
  split; [exact E |]. rewrite E. intros H. discriminate H.
Qed.

(** [TeleportPosition] applies [ComputePortalTransform] with weight one. *)
Lemma TeleportPosition_eq (p : vec3) (a b : mat4) :
  TeleportPosition p a b = xyz (mulMV (ComputePortalTransform a b) (ext p 1)).
Proof. reflexivity. Qed.

Lemma affine_ComputePortalTransform (a b : mat4) :
  affine a -> affine b -> determinant a <> 0 -> affine (ComputePortalTransform a b).
Proof.
  intros Ha Hb Hd. unfold ComputePortalTransform.
  repeat apply affine_mulMM; auto using affine_rotate180Y, affine_inverse.
Qed.

(** The round trip for affine invertible frames. *)
Lemma TeleportPosition_round_trip_affine (a b : mat4) (p : vec3) :
  affine a -> affine b -> determinant a <> 0 -> determinant b <> 0 ->
  TeleportPosition (TeleportPosition p a b) b a = p.
Proof.
  intros Ha Hb Da Db. rewrite !TeleportPosition_eq.
  rewrite ext_xyz.
  - rewrite <- mulMV_assoc, pair_transform_swap by assumption.
    rewrite mulMV_identity. apply xyz_ext.
  - rewrite affine_mulMV_w by (apply affine_ComputePortalTransform; assumption).
    destruct p; reflexivity.
Qed.

(** C2.  For rigid frames [A], [B] and every point [p], carrying [p]
    through the pair from [A] to [B] and back from [B] to [A] returns
    [p]: the pair transform from [B] to [A] is the inverse of the pair
    transform from [A] to [B]. *)
Theorem TeleportPosition_round_trip (A B : mat4) (p : vec3) :
  rigid A -> rigid B ->
  TeleportPosition (TeleportPosition p A B) B A = p /\
  mulMM (ComputePortalTransform B A) (ComputePortalTransform A B) = identity.
Proof.
  intros HA HB.
  pose proof (rigid_invertible A HA) as DA. pose proof (rigid_invertible B HB) as DB.
  split.
  - apply TeleportPosition_round_trip_affine; [apply HA | apply HB | exact DA | exact DB].
  - apply pair_transform_swap; assumption.
Qed.

Lemma TeleportPosition_round_trip_witness :
  rigid (PortalRenderer.transform Scene.portalA) /\
  rigid (PortalRenderer.transform Scene.portalB) /\
  TeleportPosition
    (TeleportPosition Scene.g_CameraPosition
                      (PortalRenderer.transform Scene.portalA)
                      (PortalRenderer.transform Scene.portalB))
    (PortalRenderer.transform Scene.portalB)
    (PortalRenderer.transform Scene.portalA)
  = Scene.g_CameraPosition.
Proof.
  assert (HA : rigid (PortalRenderer.transform Scene.portalA))
    by (unfold rigid, affine, orthonormal; repeat split; qc_compute).
  assert (HB : rigid (PortalRenderer.transform Scene.portalB))
    by (unfold rigid, affine, orthonormal; repeat split; qc_compute).
  split; [exact HA |]. split; [exact HB |].
  exact (proj1 (TeleportPosition_round_trip _ _ Scene.g_CameraPosition HA HB)).
Defined.

End PortalMathFacts.

(** ** The teleporter *)
Module PortalTeleporterFacts.
Import Spec PortalTeleporter.

Ltac bool_reflect :=
  repeat match goal with
  | H : _ && _ = true |- _ => apply andb_true_iff in H; destruct H
  | H : _ || _ = true |- _ => apply orb_true_iff in H; destruct H
  | H : (_ <? _) = true |- _ => apply Qcltb_lt in H
  | H : (_ <=? _) = true |- _ => apply Qcleb_le in H
  end.

Lemma crossedPortal_leavesSide (prevDist currDist : Qc) :
  crossedPortal prevDist currDist = true <-> leavesSide prevDist currDist.
Proof.
  unfold crossedPortal, leavesSide. split.
  - intros H. bool_reflect; auto.
  - intros [[H1 H2] | [H1 H2]]; apply orb_true_iff; [left | right];
      apply andb_true_iff; split;
      first [apply Qcltb_lt | apply Qcleb_le]; assumption.
Qed.

Lemma IsPointInPortalBounds_inRectangle (p : vec3) (m : mat4) (hw hh : Qc) :
  IsPointInPortalBounds p m hw hh = true <-> inRectangle p m hw hh.
Proof.
  unfold IsPointInPortalBounds, inRectangle.
  rewrite andb_true_iff, !Qcleb_le. reflexivity.
Qed.

(** A successful call stamps the time of the call. *)
Lemma ShouldTeleport_stamps (e : TeleportableEntity) (portal : PortalRenderer.Portal)
      (hw hh t : Qc) :
  fst (ShouldTeleport e portal hw hh t) = true ->
  lastTeleportTime (snd (ShouldTeleport e portal hw hh t)) = t.
Proof.
  unfold ShouldTeleport.
  destruct (cooldownActive e t); [discriminate |].
  destruct (negb _); [discriminate |].
  destruct (IsPointInPortalBounds _ _ _ _); [reflexivity | discriminate].
Qed.

Lemma cooldown_suppresses (e : TeleportableEntity) (portal : PortalRenderer.Portal)
      (hw hh t : Qc) :
  0 < t -> t - lastTeleportTime e < TELEPORT_COOLDOWN ->
  ShouldTeleport e portal hw hh t = (false, e).
Proof.
  intros Ht Hc. unfold ShouldTeleport, cooldownActive.
  apply Qcltb_lt in Ht, Hc. rewrite Ht, Hc. reflexivity.
Qed.

(** No cooldown is in force once 0.3 s have elapsed since the last
    teleport, and when no time is passed ([currentTime = 0], the default
    argument). *)
Lemma cooldownActive_elapsed (e : TeleportableEntity) (t : Qc) :
  TELEPORT_COOLDOWN <= t - lastTeleportTime e \/ t <= 0 -> cooldownActive e t = false.
Proof.
  unfold cooldownActive. intros [H | H].
  - destruct (t - lastTeleportTime e <? TELEPORT_COOLDOWN) eqn:E.
    + apply Qcltb_lt in E. exfalso. exact (Qclt_not_le _ _ E H).
    + apply andb_false_r.
  - destruct (0 <? t) eqn:E; [| reflexivity].
    apply Qcltb_lt in E. exfalso. exact (Qclt_not_le _ _ E H).
Qed.

(** The two crossings of section 8: through the centre of the portal at
    the origin, with the crossing point at the origin, and two units to
    the side of it, outside the rectangle. *)
Example ShouldTeleport_through_centre :
  let e := Scene.crossingEntity 0 in
  fst (ShouldTeleport e Scene.originPortal 1 1 0) = true /\
  crossPoint e (PortalMath.GetSignedDistanceToPortal (previousPosition e) identity)
               (PortalMath.GetSignedDistanceToPortal (position e) identity)
  = Vec3 0 0 0.
Proof.
  split; [vm_compute; reflexivity |].
  apply (f_equal3 Vec3); qc_compute.
Qed.

Example ShouldTeleport_out_of_bounds :
  let e := mkEntity (Vec3 (dec 2 1) 0 (- (1))) (Vec3 (dec 2 1) 0 1) (Vec3 0 0 0)
                    identity false 0 in
  fst (ShouldTeleport e Scene.originPortal 1 1 0) = false.
Proof. vm_compute. reflexivity. Qed.

(** The test of the source is the sign flip of the specification, but for
    a previous position on the plane. *)
Lemma leavesSide_signFlips (prevDist currDist : Qc) :
  leavesSide prevDist currDist <-> signFlips prevDist currDist /\ prevDist <> 0.
Proof.
  unfold leavesSide, signFlips. split.
  - intros [[H1 H2] | [H1 H2]].
    + split; [auto |]. intros E. rewrite E in H1. exact (Qclt_not_le _ _ H1 (Qcle_refl 0)).
    + split; [auto |]. intros E. rewrite E in H1. exact (Qclt_not_le _ _ H1 (Qcle_refl 0)).
  - intros [[[H1 H2] | [[H1 H2] | [[H1 H2] | [H1 H2]]]] Hn].
    + left. auto.
    + left. split; [| apply Qclt_le_weak, H2].
      destruct (Qcle_lt_or_eq _ _ H1) as [H | H]; [exact H | congruence].
    + right. auto.
    + right. split; [| apply Qclt_le_weak, H2].
      destruct (Qcle_lt_or_eq _ _ H1) as [H | H]; [exact H | congruence].
Qed.

(** C3, as the code has it.  With no cooldown in force (the cooldown test
    of the function is false), [ShouldTeleport] returns true exactly when
    the signed distances of the previous and the current position flip
    sign, in either direction, the previous position does not lie on the
    plane of the portal, and the interpolated crossing point, in the
    portal's local frame, lies in the portal's rectangle; an entity whose
    previous distance is zero is not a crossing, wherever it is now. *)
Theorem ShouldTeleport_iff_crossing
        (e : TeleportableEntity) (portal : PortalRenderer.Portal) (hw hh t : Qc) :
  cooldownActive e t = false ->
  let m := PortalRenderer.transform portal in
  let prevDist := PortalMath.GetSignedDistanceToPortal (previousPosition e) m in
  let currDist := PortalMath.GetSignedDistanceToPortal (position e) m in
  (fst (ShouldTeleport e portal hw hh t) = true <->
   signFlips prevDist currDist /\ prevDist <> 0 /\
   inRectangle (mix (previousPosition e) (position e) (prevDist / (prevDist - currDist)))
               m hw hh) /\
  (prevDist = 0 -> fst (ShouldTeleport e portal hw hh t) = false).
Proof.
  intros Hc m prevDist currDist. unfold ShouldTeleport. rewrite Hc.
  fold m prevDist currDist. unfold crossPoint.
  rewrite <- IsPointInPortalBounds_inRectangle.
  assert (Hx : crossedPortal prevDist currDist = true <->
               signFlips prevDist currDist /\ prevDist <> 0)
    by (rewrite crossedPortal_leavesSide; apply leavesSide_signFlips).
  split.
  - destruct (crossedPortal prevDist currDist); cbn [negb];
      destruct (IsPointInPortalBounds _ _ _ _); cbn [fst]; intuition congruence.
  - intros E.
    destruct (crossedPortal prevDist currDist); cbn [negb]; [| reflexivity].
    destruct (proj1 Hx eq_refl) as [_ Hn]. destruct (Hn E).
Qed.

Lemma ShouldTeleport_iff_crossing_witness :
  let e := Scene.crossingEntity 0 in
  cooldownActive e 0 = false /\
  fst (ShouldTeleport e Scene.originPortal 1 1 0) = true.
Proof.
  intros e.
  assert (Hc : cooldownActive e 0 = false) by (vm_compute; reflexivity).
  split; [exact Hc |].
  apply (proj1 (ShouldTeleport_iff_crossing e Scene.originPortal 1 1 0 Hc)).
  split; [| split].
  - right. right. left. split; [vm_compute; reflexivity | vm_compute; discriminate].
  - intros E. vm_compute in E. discriminate E.
  - split; vm_compute; discriminate.
Defined.

(** The claim as the specification states it fails for an entity that
    starts on the plane: at the portal in the identity frame, from the
    origin to [(0, 0, -1)], with no cooldown in force, the distance goes
    from zero to a positive number, a flip that is strict on one side,
    and the crossing point, the origin, is in the rectangle; the call
    returns false. *)
Lemma ShouldTeleport_iff_crossing_counterexample :
  let e := mkEntity (Vec3 0 0 (- (1))) (Vec3 0 0 0) (Vec3 0 0 0) identity false 0 in
  let m := PortalRenderer.transform Scene.originPortal in
  let prevDist := PortalMath.GetSignedDistanceToPortal (previousPosition e) m in
  let currDist := PortalMath.GetSignedDistanceToPortal (position e) m in
  cooldownActive e 0 = false /\
  signFlips prevDist currDist /\
  inRectangle (mix (previousPosition e) (position e) (prevDist / (prevDist - currDist)))
              m 1 1 /\
  fst (ShouldTeleport e Scene.originPortal 1 1 0) = false.
Proof.
  intros e m prevDist currDist.
  split; [vm_compute; reflexivity |].
  split; [right; right; right; split; [vm_compute; discriminate | vm_compute; reflexivity] |].
  split; [split; vm_compute; discriminate |].
  vm_compute. reflexivity.
Qed.

(** C8, as the code has it.  At a positive [currentTime] less than 0.3 s
    after the entity's last teleport, [ShouldTeleport] returns false and
    leaves the entity as it is; so when a call at [t1] is honoured, a call
    for the same entity 0.1 s later, at a positive time, returns false. *)
Theorem ShouldTeleport_cooldown
        (e e2 : TeleportableEntity) (portal : PortalRenderer.Portal)
        (hw hh t1 t2 : Qc) :
  (0 < t2 -> t2 - lastTeleportTime e2 < TELEPORT_COOLDOWN ->
   ShouldTeleport e2 portal hw hh t2 = (false, e2)) /\
  (fst (ShouldTeleport e portal hw hh t1) = true ->
   lastTeleportTime e2 = lastTeleportTime (snd (ShouldTeleport e portal hw hh t1)) ->
   t2 = t1 + dec 1 10 -> 0 < t2 ->
   fst (ShouldTeleport e2 portal hw hh t2) = false).
Proof.
  split; [apply cooldown_suppresses |].
  intros H1 He2 -> Hpos. rewrite cooldown_suppresses; [reflexivity | assumption |].
  rewrite He2, (ShouldTeleport_stamps _ _ _ _ _ H1).
  replace (t1 + dec 1 10 - t1) with (dec 1 10) by ring.
  reflexivity.
Qed.

Lemma ShouldTeleport_cooldown_witness :
  let e := Scene.crossingEntity 0 in
  let e2 := Scene.crossingEntity 1 in
  (0 < 1 + dec 1 10 /\
   1 + dec 1 10 - lastTeleportTime e2 < TELEPORT_COOLDOWN /\
   ShouldTeleport e2 Scene.originPortal 1 1 (1 + dec 1 10) = (false, e2)) /\
  (fst (ShouldTeleport e Scene.originPortal 1 1 1) = true /\
   fst (ShouldTeleport e2 Scene.originPortal 1 1 (1 + dec 1 10)) = false).
Proof.
  intros e e2.
  pose proof (ShouldTeleport_cooldown e e2 Scene.originPortal 1 1 1 (1 + dec 1 10))
    as [H1 H2].
  assert (Hpos : 0 < 1 + dec 1 10) by (vm_compute; reflexivity).
  assert (Hcd : 1 + dec 1 10 - lastTeleportTime e2 < TELEPORT_COOLDOWN)
    by (vm_compute; reflexivity).
  assert (Hfirst : fst (ShouldTeleport e Scene.originPortal 1 1 1) = true)
    by (vm_compute; reflexivity).
  split; [split; [exact Hpos | split; [exact Hcd | exact (H1 Hpos Hcd)]] |].
  split; [exact Hfirst |].
  apply H2; [exact Hfirst | qc_compute | reflexivity | exact Hpos].
Defined.

(** The claim as the specification states it fails at [currentTime = 0]:
    the entity of the example, never teleported ([lastTeleportTime = 0]),
    is within the cooldown interval, [0 - 0 < 0.3], and the crossing is
    honoured. *)
Lemma ShouldTeleport_cooldown_counterexample :
  let e := Scene.crossingEntity 0 in
  0 - lastTeleportTime e < TELEPORT_COOLDOWN /\
  fst (ShouldTeleport e Scene.originPortal 1 1 0) = true.
Proof. split; vm_compute; reflexivity. Qed.

Lemma SetCurrentTime_keeps_GetCurrentTime (ts : list Qc) (s : Statics) :
  GetCurrentTime_s_time (fold_left (fun s t => SetCurrentTime t s) ts s)
  = GetCurrentTime_s_time s.
Proof.
  revert s. induction ts as [| t ts IH]; intros s; [reflexivity |].
  cbn [fold_left]. rewrite IH. reflexivity.
Qed.

(** C10.  After any sequence of [SetCurrentTime] calls, with arbitrary
    arguments, [GetCurrentTime] returns [0.0]: the two functions own
    distinct statics. *)
Theorem GetCurrentTime_after_SetCurrentTime (ts : list Qc) :
  fst (GetCurrentTime (fold_left (fun s t => SetCurrentTime t s) ts initialStatics)) = 0.
Proof.
  unfold GetCurrentTime. cbn [fst].
  apply SetCurrentTime_keeps_GetCurrentTime.
Qed.

End PortalTeleporterFacts.

(** ** Traces *)
Module TraceFacts.
Import GL.

Lemma countCallsIn_app (p : Callee -> bool) (t u : Trace) :
  countCallsIn p (t ++ u) = (countCallsIn p t + countCallsIn p u)%nat.
Proof. unfold countCallsIn. rewrite map_app, list_sum_app. reflexivity. Qed.

Lemma countDrawsIn_app (t u : Trace) :
  countDrawsIn (t ++ u) = (countDrawsIn t + countDrawsIn u)%nat.
Proof. unfold countDrawsIn. rewrite map_app, list_sum_app. reflexivity. Qed.

Lemma forEachFrom_ext {A : Type} (v : list A) (body body' : nat -> A -> Trace) (i : nat) :
  (forall j a, body j a = body' j a) -> forEachFrom i v body = forEachFrom i v body'.
Proof.
  intros H. revert i. induction v as [| a v IH]; intros i; [reflexivity |].
  cbn [forEachFrom]. rewrite H, IH. reflexivity.
Qed.

(** An event of a loop comes from one of its iterations. *)
Lemma forEachFrom_In {A : Type} (v : list A) (body : nat -> A -> Trace) (i : nat) (e : Event) :
  In e (forEachFrom i v body) ->
  exists j a, nth_error v j = Some a /\ In e (body (i + j)%nat a).
Proof.
  revert i. induction v as [| a v IH]; intros i; cbn [forEachFrom]; [intros [] |].
  rewrite in_app_iff. intros [H | H].
  - exists 0%nat, a. rewrite Nat.add_0_r. auto.
  - destruct (IH _ H) as (j & b & Hj & Hin).
    exists (S j), b. rewrite Nat.add_succ_r. auto.
Qed.

Lemma forEachFrom_forallb {A : Type} (P : Event -> bool) (v : list A)
      (body : nat -> A -> Trace) (i : nat) :
  (forall j a, forallb P (body j a) = true) -> forallb P (forEachFrom i v body) = true.
Proof.
  intros H. revert i. induction v as [| a v IH]; intros i; [reflexivity |].
  cbn [forEachFrom]. rewrite forallb_app, H, IH. reflexivity.
Qed.

(** A loop whose iterations make at most [k] calls each makes at most
    [length v * k]. *)
Lemma forEachFrom_countCalls {A : Type} (p : Callee -> bool) (v : list A)
      (body : nat -> A -> Trace) (i k : nat) :
  (forall j a, (countCallsIn p (body j a) <= k)%nat) ->
  (countCallsIn p (forEachFrom i v body) <= length v * k)%nat.
Proof.
  intros H. revert i. induction v as [| a v IH]; intros i; [apply Nat.le_refl |].
  cbn [forEachFrom length]. rewrite countCallsIn_app.
  specialize (H i a). specialize (IH (S i)). lia.
Qed.

Lemma forEachFrom_countCalls_zero {A : Type} (p : Callee -> bool) (v : list A)
      (body : nat -> A -> Trace) (i : nat) :
  (forall j a, countCallsIn p (body j a) = 0%nat) ->
  countCallsIn p (forEachFrom i v body) = 0%nat.
Proof.
  intros H.
  assert (Hle : (countCallsIn p (forEachFrom i v body) <= length v * 0)%nat).
  { apply forEachFrom_countCalls. intros j a. rewrite H. apply Nat.le_refl. }
  lia.
Qed.

(** The converse: an event of an iteration is an event of the loop. *)
Lemma forEachFrom_In_intro {A : Type} (v : list A) (body : nat -> A -> Trace)
      (i j : nat) (a : A) (e : Event) :
  nth_error v j = Some a -> In e (body (i + j)%nat a) -> In e (forEachFrom i v body).
Proof.
  revert i j. induction v as [| b v IH]; intros i j Hj Hin; [destruct j; discriminate |].
  cbn [forEachFrom]. apply in_or_app. destruct j as [| j].
  - injection Hj as ->. rewrite Nat.add_0_r in Hin. left. exact Hin.
  - right. apply (IH (S i) j Hj). rewrite <- Nat.add_succ_comm in Hin. exact Hin.
Qed.

(** A call inside a step at the top of a trace is one of its calls. *)
Lemma calls_Step (t : Trace) (s : StepName) (body : Trace) (f : Callee) (b : Trace) :
  In (Step s body) t -> In (Call f b) body -> In (f, b) (calls t).
Proof.
  intros Ht Hb. unfold calls. apply in_flat_map. exists (Step s body).
  split; [exact Ht |]. apply in_flat_map. exists (Call f b).
  split; [exact Hb | left; reflexivity].
Qed.

End TraceFacts.

(** ** The recursive renderer of main_example.cpp *)
Module MainExampleFacts.
Import GL PortalRenderer MainExample TraceFacts.




Lemma passBound_4 (n : nat) :
  passBound n 4 = (n + n * n + n * n * n + n * n * n * n)%nat.
Proof. cbn [passBound]. nia. Qed.

Section Walk.

Variable normalize : vec3 -> vec3.
Variable length : vec3 -> Qc.
Variable g_Portals : list Portal.

(** The traversal depends on the recursive function only through the calls
    at the next level. *)
Lemma RenderPortalContent_ext
      (rec rec' : mat4 -> mat4 -> vec3 -> vec3 -> Z -> Z -> Qc -> option nat -> Trace)
      (portal : nat) (viewMatrix projectionMatrix : mat4) (cameraPos : vec3)
      (recursionLevel stencilValue : Z) (currentTime : Qc) (viewingSide : Z) :
  (forall v p c f s t e,
      rec v p c f (recursionLevel + 1)%Z s t e = rec' v p c f (recursionLevel + 1)%Z s t e) ->
  RenderPortalContent normalize g_Portals rec portal viewMatrix projectionMatrix cameraPos
                      recursionLevel stencilValue currentTime viewingSide
  = RenderPortalContent normalize g_Portals rec' portal viewMatrix projectionMatrix cameraPos
                        recursionLevel stencilValue currentTime viewingSide.
Proof.
  intros H. unfold RenderPortalContent.
  destruct (nth_error g_Portals portal) as [this |]; [| reflexivity].
  destruct (linkedPortal this) as [linked |]; [| reflexivity].
  destruct (nth_error g_Portals linked) as [destPortal |]; [| reflexivity].
  rewrite H. reflexivity.
Qed.

(** One more unit of fuel than the levels left changes nothing. *)
Lemma RenderPortalsRecursive_fuel_S (fuel : nat) :
  forall viewMatrix projectionMatrix cameraPos cameraForward recursionLevel stencilValue
         currentTime excludePortal,
    (Z.to_nat (MAX_PORTAL_RECURSION - recursionLevel) < fuel)%nat ->
    RenderPortalsRecursive_fuel normalize length g_Portals (S fuel) viewMatrix projectionMatrix
      cameraPos cameraForward recursionLevel stencilValue currentTime excludePortal
    = RenderPortalsRecursive_fuel normalize length g_Portals fuel viewMatrix projectionMatrix
        cameraPos cameraForward recursionLevel stencilValue currentTime excludePortal.
Proof.
  induction fuel as [| fuel IH]; intros v p c f l s t e Hfuel; [lia |].
  cbn [RenderPortalsRecursive_fuel].
  destruct (Z.leb_spec MAX_PORTAL_RECURSION l) as [Hmax | Hmax]; [reflexivity |].
  apply forEachFrom_ext. intros i portal.
  destruct (negb (isActive portal) || _); [reflexivity |].
  destruct (isExcluded g_Portals e i); [reflexivity |].
  destruct (negb (IsPortalVisible length portal _ f)); [reflexivity |].
  f_equal. f_equal. apply RenderPortalContent_ext.
  intros. apply IH. lia.
Qed.

Lemma RenderPortalsRecursive_fuel_enough (fuel : nat) :
  forall viewMatrix projectionMatrix cameraPos cameraForward recursionLevel stencilValue
         currentTime excludePortal,
    (fuelFor recursionLevel <= fuel)%nat ->
    RenderPortalsRecursive_fuel normalize length g_Portals fuel viewMatrix projectionMatrix
      cameraPos cameraForward recursionLevel stencilValue currentTime excludePortal
    = RenderPortalsRecursive normalize length g_Portals viewMatrix projectionMatrix
        cameraPos cameraForward recursionLevel stencilValue currentTime excludePortal.
Proof.
  intros v p c f l s t e. unfold RenderPortalsRecursive.
  induction 1 as [| fuel Hle IH]; [reflexivity |].
  rewrite RenderPortalsRecursive_fuel_S; [exact IH | unfold fuelFor in Hle; lia].
Qed.

Lemma RenderPortalFramesExcluding_calls (p : Callee -> bool) viewMatrix projectionMatrix time
      excludePortal :
  countCallsIn p (RenderPortalFramesExcluding g_Portals viewMatrix projectionMatrix time
                                              excludePortal) = 0%nat.
Proof.
  unfold RenderPortalFramesExcluding, forEach.
  rewrite !countCallsIn_app, forEachFrom_countCalls_zero; [reflexivity |].
  intros j a. destruct (isExcluded g_Portals excludePortal j); reflexivity.
Qed.

Lemma RenderPortalFramesExcluding_levelsOk (l : Z) viewMatrix projectionMatrix time
      excludePortal :
  forallb (levelsOk l)
          (RenderPortalFramesExcluding g_Portals viewMatrix projectionMatrix time excludePortal)
  = true.
Proof.
  unfold RenderPortalFramesExcluding, forEach.
  rewrite !forallb_app, forEachFrom_forallb; [reflexivity |].
  intros j a. destruct (isExcluded g_Portals excludePortal j); reflexivity.
Qed.

(** A traversal issues one content pass of its own, besides those of the
    walk it starts at the next level. *)
Lemma RenderPortalContent_contentPasses
      (rec : mat4 -> mat4 -> vec3 -> vec3 -> Z -> Z -> Qc -> option nat -> Trace)
      (k : nat) (portal : nat) (viewMatrix projectionMatrix : mat4) (cameraPos : vec3)
      (recursionLevel stencilValue : Z) (currentTime : Qc) (viewingSide : Z) :
  (forall v p c f s t e,
      (countCallsIn isContentPass (rec v p c f (recursionLevel + 1)%Z s t e) <= k)%nat) ->
  (countCallsIn isContentPass
     (RenderPortalContent normalize g_Portals rec portal viewMatrix projectionMatrix cameraPos
                          recursionLevel stencilValue currentTime viewingSide) <= 1 + k)%nat.
Proof.
  intros H. unfold RenderPortalContent.
  destruct (nth_error g_Portals portal) as [this |]; [| cbn; lia].
  destruct (linkedPortal this) as [linked |]; [| cbn; lia].
  destruct (nth_error g_Portals linked) as [destPortal |]; [| cbn; lia].
  match goal with
  | |- context [Call (FRenderPortalsRecursive _ _ _ _ _) ?r] =>
      assert (Hr : (countCallsIn isContentPass r <= k)%nat) by apply H;
      set (walk := r) in *; clearbody walk
  end.
  match goal with
  | |- context [Call (FRenderPortalFramesExcluding _ _ _) ?fr] =>
      assert (Hfr : countCallsIn isContentPass fr = 0%nat)
        by apply RenderPortalFramesExcluding_calls;
      set (frames := fr) in *; clearbody frames
  end.
  unfold countCallsIn in *.
  destruct (chooseClipStrategy _ _);
    cbn [applyClipStrategy drawPortalSurface RenderSkybox RenderScene
         countCalls map list_sum fold_right app isContentPass Nat.add];
    rewrite ?Hfr; lia.
Qed.

(** The content passes of a walk are bounded by the number of portals and
    the levels left, whatever the camera sees. *)
Lemma RenderPortalsRecursive_fuel_contentPasses (fuel : nat) :
  forall viewMatrix projectionMatrix cameraPos cameraForward recursionLevel stencilValue
         currentTime excludePortal,
    (countCallsIn isContentPass
       (RenderPortalsRecursive_fuel normalize length g_Portals fuel viewMatrix projectionMatrix
          cameraPos cameraForward recursionLevel stencilValue currentTime excludePortal)
     <= passBound (List.length g_Portals)
                  (Z.to_nat (MAX_PORTAL_RECURSION - recursionLevel)))%nat.
Proof.
  induction fuel as [| fuel IH]; intros v p c f l s t e; [apply Nat.le_0_l |].
  cbn [RenderPortalsRecursive_fuel].
  destruct (Z.leb_spec MAX_PORTAL_RECURSION l) as [Hmax | Hmax]; [apply Nat.le_0_l |].
  replace (Z.to_nat (MAX_PORTAL_RECURSION - l))
    with (S (Z.to_nat (MAX_PORTAL_RECURSION - (l + 1)))) by lia.
  cbn [passBound]. apply forEachFrom_countCalls. intros i portal.
  destruct (negb (isActive portal) || _); [apply Nat.le_0_l |].
  destruct (isExcluded g_Portals e i); [apply Nat.le_0_l |].
  destruct (negb (IsPortalVisible length portal _ f)); [apply Nat.le_0_l |].
  unfold countCallsIn. cbn [map countCalls list_sum fold_right isContentPass].
  rewrite Nat.add_0_r. apply RenderPortalContent_contentPasses.
  intros. apply IH.
Qed.

(** Inside a traversal at a level below the maximum, the walk it starts
    is at the next level. *)
Lemma RenderPortalContent_levelsOk
      (rec : mat4 -> mat4 -> vec3 -> vec3 -> Z -> Z -> Qc -> option nat -> Trace)
      (portal : nat) (viewMatrix projectionMatrix : mat4) (cameraPos : vec3)
      (recursionLevel stencilValue : Z) (currentTime : Qc) (viewingSide : Z) :
  (forall v p c f s t e,
      forallb (levelsOk (recursionLevel + 1)) (rec v p c f (recursionLevel + 1)%Z s t e) = true) ->
  forallb (levelsOk recursionLevel)
    (RenderPortalContent normalize g_Portals rec portal viewMatrix projectionMatrix cameraPos
                         recursionLevel stencilValue currentTime viewingSide) = true.
Proof.
  intros H. unfold RenderPortalContent.
  destruct (nth_error g_Portals portal) as [this |]; [| reflexivity].
  destruct (linkedPortal this) as [linked |]; [| reflexivity].
  destruct (nth_error g_Portals linked) as [destPortal |]; [| reflexivity].
  match goal with
  | |- context [Call (FRenderPortalsRecursive _ _ _ _ _) ?r] =>
      assert (Hr : forallb (levelsOk (recursionLevel + 1)) r = true) by apply H;
      set (walk := r) in *; clearbody walk
  end.
  match goal with
  | |- context [Call (FRenderPortalFramesExcluding _ _ _) ?fr] =>
      assert (Hfr : forallb (levelsOk recursionLevel) fr = true)
        by apply RenderPortalFramesExcluding_levelsOk;
      set (frames := fr) in *; clearbody frames
  end.
  destruct (chooseClipStrategy _ _);
    cbn [applyClipStrategy drawPortalSurface RenderSkybox RenderScene
         forallb levelsOk app andb];
    rewrite ?Hfr, ?Hr, ?Z.eqb_refl; reflexivity.
Qed.

Lemma RenderPortalsRecursive_fuel_levelsOk (fuel : nat) :
  forall viewMatrix projectionMatrix cameraPos cameraForward recursionLevel stencilValue
         currentTime excludePortal,
    forallb (levelsOk recursionLevel)
      (RenderPortalsRecursive_fuel normalize length g_Portals fuel viewMatrix projectionMatrix
         cameraPos cameraForward recursionLevel stencilValue currentTime excludePortal) = true.
Proof.
  induction fuel as [| fuel IH]; intros v p c f l s t e; [reflexivity |].
  cbn [RenderPortalsRecursive_fuel].
  destruct (Z.leb_spec MAX_PORTAL_RECURSION l) as [Hmax | Hmax]; [reflexivity |].
  apply forEachFrom_forallb. intros i portal.
  destruct (negb (isActive portal) || _); [reflexivity |].
  destruct (isExcluded g_Portals e i); [reflexivity |].
  destruct (negb (IsPortalVisible length portal _ f)); [reflexivity |].
  cbn [forallb levelsOk]. rewrite Z.eqb_refl, (proj2 (Z.ltb_lt _ _) Hmax).
  rewrite RenderPortalContent_levelsOk; [reflexivity |].
  intros. apply IH.
Qed.

(** At the maximum level, and above, the walk returns at once. *)
Lemma RenderPortalsRecursive_at_max viewMatrix projectionMatrix cameraPos cameraForward
      recursionLevel stencilValue currentTime excludePortal :
  (MAX_PORTAL_RECURSION <= recursionLevel)%Z ->
  RenderPortalsRecursive normalize length g_Portals viewMatrix projectionMatrix
    cameraPos cameraForward recursionLevel stencilValue currentTime excludePortal = [].
Proof.
  intros Hmax. unfold RenderPortalsRecursive, fuelFor. cbn [RenderPortalsRecursive_fuel].
  rewrite (proj2 (Z.leb_le _ _) Hmax). reflexivity.
Qed.

Lemma traversed_forEachFrom {A : Type} (v : list A) (body : nat -> A -> Trace) (i portal : nat) :
  In portal (traversed (forEachFrom i v body)) ->
  exists j a, nth_error v j = Some a /\ In portal (traversed (body (i + j)%nat a)).
Proof.
  unfold traversed. rewrite in_flat_map. intros (e & He & Hp).
  destruct (forEachFrom_In _ _ _ _ He) as (j & a & Hj & Hin).
  exists j, a. split; [exact Hj |]. apply in_flat_map. eauto.
Qed.

(** The traversals of a walk are those of the portals that pass the
    cull: active, linked, outside the excluded pair and visible. *)
Lemma RenderPortalsRecursive_fuel_cull (fuel : nat) viewMatrix projectionMatrix cameraPos
      cameraForward recursionLevel stencilValue currentTime excludePortal (i : nat) :
  In i (traversed
          (RenderPortalsRecursive_fuel normalize length g_Portals fuel viewMatrix
             projectionMatrix cameraPos cameraForward recursionLevel stencilValue
             currentTime excludePortal)) ->
  exists portal,
    nth_error g_Portals i = Some portal /\
    isActive portal = true /\
    linkedPortal portal <> None /\
    isExcluded g_Portals excludePortal i = false /\
    IsPortalVisible length portal (xyz (c3 (inverse viewMatrix))) cameraForward = true.
Proof.
  destruct fuel as [| fuel]; [intros [] |].
  cbn [RenderPortalsRecursive_fuel].
  destruct (MAX_PORTAL_RECURSION <=? recursionLevel)%Z; [intros [] |].
  intros H. apply traversed_forEachFrom in H. destruct H as (j & portal & Hj & Hin).
  cbn [Nat.add] in Hin. exists portal.
  destruct (isActive portal); cbn [negb orb] in Hin; [| destruct Hin].
  destruct (linkedPortal portal) as [linked |]; [| destruct Hin].
  destruct (isExcluded g_Portals excludePortal j) eqn:Hex; [destruct Hin |].
  destruct (IsPortalVisible length portal _ cameraForward) eqn:Hvis;
    cbn [negb] in Hin; [| destruct Hin].
  cbn in Hin. destruct Hin as [<- | []].
  repeat split; try assumption. discriminate.
Qed.

(** A portal outside the excluded pair is neither the excluded portal nor
    its partner. *)
Lemma isExcluded_false (exclude i : nat) (e : Portal) :
  isExcluded g_Portals (Some exclude) i = false ->
  nth_error g_Portals exclude = Some e ->
  i <> exclude /\ linkedPortal e <> Some i.
Proof.
  unfold isExcluded. intros H He. rewrite He in H.
  apply orb_false_iff in H. destruct H as [H1 H2].
  apply Nat.eqb_neq in H1. split; [exact H1 |].
  destruct (linkedPortal e) as [linked |]; [| discriminate].
  apply Nat.eqb_neq in H2. congruence.
Qed.

(** The walk that a traversal of [portal] starts is at the next level and
    excludes [portal]; no traversal of that walk is of [portal] or of its
    partner. *)
Lemma RenderPortalContent_excludes_pair (fuel : nat)
      (portal : nat) (viewMatrix projectionMatrix : mat4) (cameraPos : vec3)
      (recursionLevel stencilValue : Z) (currentTime : Qc) (viewingSide : Z)
      (this : Portal) (v p : mat4) (l s : Z) (ex : option nat) (body : Trace) :
  nth_error g_Portals portal = Some this ->
  In (FRenderPortalsRecursive v p l s ex, body)
     (calls (RenderPortalContent normalize g_Portals
               (RenderPortalsRecursive_fuel normalize length g_Portals fuel)
               portal viewMatrix projectionMatrix cameraPos
               recursionLevel stencilValue currentTime viewingSide)) ->
  l = (recursionLevel + 1)%Z /\ ex = Some portal /\
  forall i, In i (traversed body) -> i <> portal /\ linkedPortal this <> Some i.
Proof.
  intros Hthis. unfold RenderPortalContent. rewrite Hthis.
  destruct (linkedPortal this) as [linked |] eqn:Hlinked; [| intros []].
  destruct (nth_error g_Portals linked) as [destPortal |]; [| intros []].
  match goal with
  | |- context [Call (FRenderPortalFramesExcluding _ _ _) ?fr] =>
      set (frames := fr) in *; clearbody frames
  end.
  match goal with
  | |- context [Call (FRenderPortalsRecursive ?a ?b _ _ _) (_ _ _ ?c ?d _ _ _ _)] =>
      generalize a, b, c, d; intros vv vp vc vf
  end.
  set (walk := RenderPortalsRecursive_fuel _ _ _ _ _ _ _ _ _ _ _ _).
  assert (Hwalk : forall i, In i (traversed walk) -> i <> portal /\ Some linked <> Some i).
  { intros i Hi. apply RenderPortalsRecursive_fuel_cull in Hi.
    destruct Hi as (q & _ & _ & _ & Hex & _).
    rewrite <- Hlinked. exact (isExcluded_false _ _ _ Hex Hthis). }
  clearbody walk.
  destruct (chooseClipStrategy _ _);
    cbn [applyClipStrategy drawPortalSurface RenderSkybox RenderScene
         calls flat_map app In];
    intros Hin;
    repeat (destruct Hin as [Hin | Hin];
            [apply pair_equal_spec in Hin; destruct Hin as [Hf Hb];
             first [congruence | injection Hf as _ _ <- _ <-; subst body; auto] |]);
    contradiction.
Qed.

(** The steps of a traversal: all of them, or the first three when step 3
    leaves the branch. *)
Lemma RenderPortalContent_steps
      (rec : mat4 -> mat4 -> vec3 -> vec3 -> Z -> Z -> Qc -> option nat -> Trace)
      (portal : nat) (viewMatrix projectionMatrix : mat4) (cameraPos : vec3)
      (recursionLevel stencilValue : Z) (currentTime : Qc) (viewingSide : Z)
      (this destPortal : Portal) (linked : nat) :
  nth_error g_Portals portal = Some this ->
  linkedPortal this = Some linked ->
  nth_error g_Portals linked = Some destPortal ->
  let virtualViewMatrix :=
    PortalMath.CalculatePortalViewMatrix viewMatrix (transform this) (transform destPortal) in
  steps (RenderPortalContent normalize g_Portals rec portal viewMatrix projectionMatrix
                             cameraPos recursionLevel stencilValue currentTime viewingSide)
  = match chooseClipStrategy (clipNormalView normalize virtualViewMatrix destPortal)
                             (clipPosView virtualViewMatrix destPortal) with
    | SkipPortalRender => [MarkStencil; ComputeVirtualCamera; ComputeObliqueProjection]
    | _ => [MarkStencil; ComputeVirtualCamera; ComputeObliqueProjection; ClearPortalDepth;
            RenderPortalScene; RecurseNestedPortals; SealPortalDepth; RestoreStencilState]
    end.
Proof.
  intros Hthis Hlinked Hdest. unfold RenderPortalContent.
  rewrite Hthis, Hlinked, Hdest. cbv zeta.
  destruct (chooseClipStrategy _ _); reflexivity.
Qed.

(** The frames from which a traversal computes the virtual view and the
    pair transform are the portal's own and its partner's. *)
Lemma RenderPortalContent_frames
      (rec : mat4 -> mat4 -> vec3 -> vec3 -> Z -> Z -> Qc -> option nat -> Trace)
      (portal : nat) (viewMatrix projectionMatrix : mat4) (cameraPos : vec3)
      (recursionLevel stencilValue : Z) (currentTime : Qc) (viewingSide : Z)
      (this destPortal : Portal) (linked : nat) :
  nth_error g_Portals portal = Some this ->
  linkedPortal this = Some linked ->
  nth_error g_Portals linked = Some destPortal ->
  let t := RenderPortalContent normalize g_Portals rec portal viewMatrix projectionMatrix
                               cameraPos recursionLevel stencilValue currentTime viewingSide in
  In (FCalculatePortalViewMatrix viewMatrix (transform this) (transform destPortal), [])
     (calls t) /\
  In (FComputePortalTransform (transform this) (transform destPortal), []) (calls t).
Proof.
  intros Hthis Hlinked Hdest. unfold RenderPortalContent.
  rewrite Hthis, Hlinked, Hdest. cbv zeta.
  cbn [calls flat_map app In drawPortalSurface]. auto.
Qed.

(** A frame issues the content pass of the main view and those of the
    walk from level 0. *)
Lemma RenderFrame_contentPasses viewMatrix projectionMatrix g_CameraPosition front currentTime :
  (countCallsIn isContentPass
     (RenderFrame normalize length g_Portals viewMatrix projectionMatrix g_CameraPosition
                  front currentTime)
   <= 1 + passBound (List.length g_Portals) 4)%nat.
Proof.
  unfold RenderFrame, RenderPortalFrames. rewrite countCallsIn_app.
  pose proof (RenderPortalsRecursive_fuel_contentPasses (fuelFor 0) viewMatrix
                projectionMatrix g_CameraPosition front 0%Z 0%Z currentTime None) as Hwalk.
  fold (RenderPortalsRecursive normalize length g_Portals viewMatrix projectionMatrix
          g_CameraPosition front 0 0 currentTime None) in Hwalk.
  change (Z.to_nat (MAX_PORTAL_RECURSION - 0)) with 4%nat in Hwalk.
  set (walk := RenderPortalsRecursive _ _ _ _ _ _ _ _ _ _ _) in *. clearbody walk.
  pose proof (RenderPortalFramesExcluding_calls isContentPass viewMatrix projectionMatrix
                currentTime None) as Hframes.
  set (frames := RenderPortalFramesExcluding _ _ _ _ _) in *. clearbody frames.
  unfold countCallsIn in *.
  cbn [RenderSkybox RenderScene countCalls map list_sum fold_right app isContentPass Nat.add].
  rewrite Hframes. lia.
Qed.

End Walk.

(** C7.  The walk stops at the fixed depth 4: at level 4 and above it
    issues nothing, with the fuel [fuelFor] gives it it never runs out of
    fuel (more fuel yields the same trace), the walks a traversal starts
    are at its level plus one and every traversal is below level 4; so the
    content passes of a walk are at most [n + n^2 + ...], one power per
    level left, for [n] portals, and those of a frame at most one more,
    whatever the camera and the portals' visibility. *)
Theorem RenderPortalsRecursive_bounded
        (normalize : vec3 -> vec3) (length : vec3 -> Qc) (g_Portals : list Portal)
        (viewMatrix projectionMatrix : mat4) (cameraPos cameraForward : vec3)
        (recursionLevel stencilValue : Z) (currentTime : Qc) (excludePortal : option nat) :
  let walk :=
    RenderPortalsRecursive normalize length g_Portals viewMatrix projectionMatrix
      cameraPos cameraForward recursionLevel stencilValue currentTime excludePortal in
  ((MAX_PORTAL_RECURSION <= recursionLevel)%Z -> walk = []) /\
  (forall fuel, (fuelFor recursionLevel <= fuel)%nat ->
     RenderPortalsRecursive_fuel normalize length g_Portals fuel viewMatrix projectionMatrix
       cameraPos cameraForward recursionLevel stencilValue currentTime excludePortal
     = walk) /\
  forallb (levelsOk recursionLevel) walk = true /\
  (countCallsIn isContentPass walk
   <= passBound (List.length g_Portals)
                (Z.to_nat (MAX_PORTAL_RECURSION - recursionLevel)))%nat /\
  (countCallsIn isContentPass
     (RenderFrame normalize length g_Portals viewMatrix projectionMatrix cameraPos
                  cameraForward currentTime)
   <= 1 + passBound (List.length g_Portals) 4)%nat.
Proof.
  cbv zeta. split; [apply RenderPortalsRecursive_at_max |].
  split; [intros fuel; apply RenderPortalsRecursive_fuel_enough |].
  split; [apply RenderPortalsRecursive_fuel_levelsOk |].
  split; [apply RenderPortalsRecursive_fuel_contentPasses |].
  apply RenderFrame_contentPasses.
Qed.

Lemma RenderPortalsRecursive_bounded_witness :
  (MAX_PORTAL_RECURSION <= 4)%Z /\
  RenderPortalsRecursive Scene.normalizeQ Scene.lengthQ Scene.g_Portals
    Scene.viewMatrix Scene.projectionMatrix Scene.g_CameraPosition Scene.front
    4 0 0 None = [] /\
  (fuelFor 0 <= 9)%nat /\
  RenderPortalsRecursive_fuel Scene.normalizeQ Scene.lengthQ Scene.g_Portals 9
    Scene.viewMatrix Scene.projectionMatrix Scene.g_CameraPosition Scene.front
    0 0 0 None
  = RenderPortalsRecursive Scene.normalizeQ Scene.lengthQ Scene.g_Portals
      Scene.viewMatrix Scene.projectionMatrix Scene.g_CameraPosition Scene.front
      0 0 0 None.
Proof.
  assert (H4 : (MAX_PORTAL_RECURSION <= 4)%Z) by (unfold MAX_PORTAL_RECURSION; lia).
  assert (H9 : (fuelFor 0 <= 9)%nat) by (vm_compute; lia).
  split; [exact H4 |].
  split.
  - exact (proj1 (RenderPortalsRecursive_bounded Scene.normalizeQ Scene.lengthQ
                    Scene.g_Portals Scene.viewMatrix Scene.projectionMatrix
                    Scene.g_CameraPosition Scene.front 4 0 0 None) H4).
  - split; [exact H9 |].
    exact (proj1 (proj2 (RenderPortalsRecursive_bounded Scene.normalizeQ Scene.lengthQ
                    Scene.g_Portals Scene.viewMatrix Scene.projectionMatrix
                    Scene.g_CameraPosition Scene.front 0 0 0 None)) 9%nat H9).
Defined.

Lemma mat4_neq (m n : mat4) (f : mat4 -> Q) : f m <> f n -> m <> n.
Proof. intros H E. apply H. rewrite E. reflexivity. Qed.

(** C6.  The traversal computes the turned source frame
    [effectiveSrcTransform] and never uses it: its trace is the same for
    every viewing side.  In the first frame of the demo the camera sees
    portal 0 from behind (viewing side -1); the turned frame differs from
    the portal's frame and would give another virtual view, but the
    virtual view and the pair transform are computed from the portal's
    unturned frame. *)
Theorem RenderPortalContent_ignores_viewingSide :
  (forall normalize g_Portals rec portal viewMatrix projectionMatrix cameraPos
          recursionLevel stencilValue currentTime viewingSide,
      RenderPortalContent normalize g_Portals rec portal viewMatrix projectionMatrix
                          cameraPos recursionLevel stencilValue currentTime viewingSide
      = RenderPortalContent normalize g_Portals rec portal viewMatrix projectionMatrix
                            cameraPos recursionLevel stencilValue currentTime 1) /\
  GetPortalViewingSide Scene.portalA (xyz (c3 (inverse Scene.viewMatrix))) = (-1)%Z /\
  effectiveSrcTransform Scene.portalA (-1) <> transform Scene.portalA /\
  PortalMath.CalculatePortalViewMatrix Scene.viewMatrix
    (effectiveSrcTransform Scene.portalA (-1)) (transform Scene.portalB)
  <> PortalMath.CalculatePortalViewMatrix Scene.viewMatrix
       (transform Scene.portalA) (transform Scene.portalB) /\
  In (FCalculatePortalViewMatrix Scene.viewMatrix (transform Scene.portalA)
                                 (transform Scene.portalB), [])
     (calls (RenderPortalContent Scene.normalizeQ Scene.g_Portals
               (fun _ _ _ _ _ _ _ _ => []) 0 Scene.viewMatrix Scene.projectionMatrix
               Scene.g_CameraPosition 0 1 0 (-1))).
Proof.
  split; [reflexivity |].
  split; [vm_compute; reflexivity |].
  split; [apply (mat4_neq _ _ (fun m => this (x4 (c0 m)))); vm_compute; discriminate |].
  split; [apply (mat4_neq _ _ (fun m => this (x4 (c2 m)))); vm_compute; discriminate |].
  exact (proj1 (RenderPortalContent_frames Scene.normalizeQ Scene.g_Portals
                  (fun _ _ _ _ _ _ _ _ => []) 0%nat Scene.viewMatrix Scene.projectionMatrix
                  Scene.g_CameraPosition 0%Z 1%Z 0 (-1)%Z Scene.portalA Scene.portalB 1%nat
                  eq_refl eq_refl eq_refl)).
Qed.



End MainExampleFacts.

(** ** The recursive renderer of PortalRenderer.h *)
Module PortalRendererFacts.
Import GL PortalRenderer TraceFacts.

Section Recursive.

Variable allPortals : list Portal.
Variable renderScene : mat4 -> mat4 -> Trace.

(** The body depends on the recursive function only through the calls
    at the next level, below the maximum. *)
Lemma RenderPortalRecursive_body_ext (rec rec' : nat -> RenderContext -> Z -> Trace)
      (portal : nat) (context : RenderContext) (currentRecursion : Z) :
  ((currentRecursion < MAX_PORTAL_RECURSION)%Z ->
   forall p c, rec p c (currentRecursion + 1)%Z = rec' p c (currentRecursion + 1)%Z) ->
  RenderPortalRecursive_body allPortals renderScene rec portal context currentRecursion
  = RenderPortalRecursive_body allPortals renderScene rec' portal context currentRecursion.
Proof.
  intros H. unfold RenderPortalRecursive_body.
  destruct (Z.leb_spec MAX_PORTAL_RECURSION currentRecursion) as [Hmax | Hmax];
    [reflexivity |].
  destruct (nth_error allPortals portal) as [this |]; [| reflexivity].
  destruct (linkedPortal this) as [linked |]; [| reflexivity].
  destruct (negb (isActive this)); [reflexivity |].
  destruct (nth_error allPortals linked) as [target |]; [| reflexivity].
  do 4 f_equal. apply (f_equal2 cons); [| reflexivity]. f_equal.
  apply forEachFrom_ext. intros other otherPortal.
  destruct (negb (Nat.eqb other portal) && isActive otherPortal); [| reflexivity].
  rewrite (H Hmax). reflexivity.
Qed.

(** One more unit of fuel than the levels left changes nothing. *)
Lemma RenderPortalRecursive_fuel_S (fuel : nat) :
  forall portal context currentRecursion,
    (Z.to_nat (MAX_PORTAL_RECURSION - currentRecursion) < fuel)%nat ->
    RenderPortalRecursive_fuel allPortals renderScene (S fuel) portal context currentRecursion
    = RenderPortalRecursive_fuel allPortals renderScene fuel portal context currentRecursion.
Proof.
  induction fuel as [| fuel IH]; intros portal context l Hfuel; [lia |].
  change (RenderPortalRecursive_body allPortals renderScene
            (RenderPortalRecursive_fuel allPortals renderScene (S fuel)) portal context l
          = RenderPortalRecursive_body allPortals renderScene
              (RenderPortalRecursive_fuel allPortals renderScene fuel) portal context l).
  apply RenderPortalRecursive_body_ext. intros Hmax p c. apply IH. lia.
Qed.

Lemma RenderPortalRecursive_fuel_enough (fuel : nat) portal context currentRecursion :
  (fuelFor currentRecursion <= fuel)%nat ->
  RenderPortalRecursive_fuel allPortals renderScene fuel portal context currentRecursion
  = RenderPortalRecursive allPortals renderScene portal context currentRecursion.
Proof.
  unfold RenderPortalRecursive.
  induction 1 as [| fuel Hle IH]; [reflexivity |].
  rewrite RenderPortalRecursive_fuel_S; [exact IH | unfold fuelFor in Hle; lia].
Qed.

(** At the maximum level, and above, the traversal returns at once. *)
Lemma RenderPortalRecursive_at_max portal context currentRecursion :
  (MAX_PORTAL_RECURSION <= currentRecursion)%Z ->
  RenderPortalRecursive allPortals renderScene portal context currentRecursion = [].
Proof.
  intros Hmax. unfold RenderPortalRecursive, fuelFor. cbn [RenderPortalRecursive_fuel].
  unfold RenderPortalRecursive_body.
  rewrite (proj2 (Z.leb_le _ _) Hmax). reflexivity.
Qed.

End Recursive.

Lemma RenderPortalRecursive_steps (allPortals : list Portal) (renderScene : mat4 -> mat4 -> Trace)
      (portal : nat) (context : RenderContext) (currentRecursion : Z)
      (this target : Portal) (linked : nat) :
  (currentRecursion < MAX_PORTAL_RECURSION)%Z ->
  nth_error allPortals portal = Some this ->
  linkedPortal this = Some linked ->
  isActive this = true ->
  nth_error allPortals linked = Some target ->
  steps (RenderPortalRecursive allPortals renderScene portal context currentRecursion)
  = [ComputeVirtualCamera; ComputeObliqueProjection; MarkStencil; ClearPortalDepth;
     RecurseNestedPortals; RenderPortalScene; RestoreStencilState].
Proof.
  intros Hmax Hthis Hlinked Hactive Htarget.
  unfold RenderPortalRecursive, fuelFor. cbn [RenderPortalRecursive_fuel].
  unfold RenderPortalRecursive_body.
  rewrite (proj2 (Z.leb_gt _ _) Hmax), Hthis, Hlinked, Hactive, Htarget.
  reflexivity.
Qed.

(** Whatever the registry: below the maximum level, the traversal of a
    portal calls [RenderPortalRecursive] on its partner at the next level,
    when the partner is another, active portal. *)
Lemma RenderPortalRecursive_calls_partner
      (allPortals : list Portal) (renderScene : mat4 -> mat4 -> Trace)
      (portal : nat) (context : RenderContext) (currentRecursion : Z)
      (this target : Portal) (linked : nat) :
  (currentRecursion < MAX_PORTAL_RECURSION)%Z ->
  nth_error allPortals portal = Some this ->
  linkedPortal this = Some linked ->
  isActive this = true ->
  nth_error allPortals linked = Some target ->
  isActive target = true ->
  linked <> portal ->
  exists nestedContext,
    In (FRenderPortalRecursive linked (viewMatrix nestedContext)
                               (projectionMatrix nestedContext) (currentRecursion + 1),
        RenderPortalRecursive allPortals renderScene linked nestedContext
                              (currentRecursion + 1))
       (calls (RenderPortalRecursive allPortals renderScene portal context currentRecursion)).
Proof.
  intros Hmax Hthis Hlinked Hactive Htarget Hta Hneq.
  unfold RenderPortalRecursive at 2. unfold fuelFor.
  cbn [RenderPortalRecursive_fuel]. unfold RenderPortalRecursive_body.
  rewrite (proj2 (Z.leb_gt _ _) Hmax), Hthis, Hlinked, Hactive, Htarget.
  cbv zeta. eexists (mkContext _ _ _ _ _ _). cbn [viewMatrix projectionMatrix].
  eapply calls_Step; [do 4 right; left; reflexivity |].
  eapply forEachFrom_In_intro; [exact Htarget |].
  cbn [Nat.add]. rewrite Hta, (proj2 (Nat.eqb_neq _ _) Hneq). cbn [negb andb].
  left. f_equal. apply RenderPortalRecursive_fuel_enough.
  unfold fuelFor. lia.
Qed.

(** C4.  [RenderPortalRecursive] leaves out of its nested loop the portal
    it was entered through, and nothing else: with the two portals of the
    demo scene, linked to each other, the traversal of portal 0 at level 0
    renders portal 1, the partner of portal 0, at level 1. *)
Theorem RenderPortalRecursive_renders_partner :
  nth_error Scene.g_Portals 0 = Some Scene.portalA /\
  linkedPortal Scene.portalA = Some 1%nat /\
  rendered (RenderPortalRecursive Scene.g_Portals (fun _ _ => []) 0 Scene.context 0)
  = [(1%nat, 1%Z)].
Proof. split; [reflexivity | split; [reflexivity | vm_compute; reflexivity]]. Qed.

End PortalRendererFacts.

(** ** The order of the passes *)
Module PassOrder.
Import GL PortalRenderer Spec.

(** C5, as the code has it.  In [main_example.cpp] the traversals of a walk
    are those of the portals that pass the cull, and a traversal executes
    Mark, ComputeVirtualView, ClearDepth, RenderContent, RecurseChildren,
    SealDepth, RestoreStencil, in this order, or Mark and
    ComputeVirtualView alone when the branch is left: its own content pass
    comes before the recursive children.  In [PortalRenderer.h] a
    traversal executes ComputeVirtualView, Mark, ClearDepth,
    RecurseChildren, RenderContent, RestoreStencil: there the children
    come before the content pass and there is no SealDepth. *)
Theorem traversal_pass_order :
  (forall normalize length g_Portals viewMatrix projectionMatrix cameraPos cameraForward
          recursionLevel stencilValue currentTime excludePortal i,
      In i (MainExample.traversed
              (MainExample.RenderPortalsRecursive normalize length g_Portals viewMatrix
                 projectionMatrix cameraPos cameraForward recursionLevel stencilValue
                 currentTime excludePortal)) ->
      exists portal,
        nth_error g_Portals i = Some portal /\
        isActive portal = true /\
        linkedPortal portal <> None /\
        MainExample.isExcluded g_Portals excludePortal i = false /\
        MainExample.IsPortalVisible length portal (xyz (c3 (inverse viewMatrix)))
                                    cameraForward = true) /\
  (forall normalize g_Portals rec portal viewMatrix projectionMatrix cameraPos
          recursionLevel stencilValue currentTime viewingSide this destPortal linked,
      nth_error g_Portals portal = Some this ->
      linkedPortal this = Some linked ->
      nth_error g_Portals linked = Some destPortal ->
      let virtualViewMatrix :=
        PortalMath.CalculatePortalViewMatrix viewMatrix (transform this)
                                             (transform destPortal) in
      phases (MainExample.RenderPortalContent normalize g_Portals rec portal viewMatrix
                projectionMatrix cameraPos recursionLevel stencilValue currentTime
                viewingSide)
      = match MainExample.chooseClipStrategy
                (MainExample.clipNormalView normalize virtualViewMatrix destPortal)
                (MainExample.clipPosView virtualViewMatrix destPortal) with
        | MainExample.SkipPortalRender => [Mark; ComputeVirtualView]
        | _ => [Mark; ComputeVirtualView; ClearDepth; RenderContent; RecurseChildren;
                SealDepth; RestoreStencil]
        end) /\
  (forall allPortals renderScene portal context currentRecursion this target linked,
      (currentRecursion < MAX_PORTAL_RECURSION)%Z ->
      nth_error allPortals portal = Some this ->
      linkedPortal this = Some linked ->
      isActive this = true ->
      nth_error allPortals linked = Some target ->
      phases (RenderPortalRecursive allPortals renderScene portal context currentRecursion)
      = [ComputeVirtualView; Mark; ClearDepth; RecurseChildren; RenderContent;
         RestoreStencil]).
Proof.
  split; [| split].
  - intros. eapply MainExampleFacts.RenderPortalsRecursive_fuel_cull. eassumption.
  - intros * Hthis Hlinked Hdest vv. unfold phases.
    rewrite (MainExampleFacts.RenderPortalContent_steps _ _ _ _ _ _ _ _ _ _ _ _ _ _
               Hthis Hlinked Hdest).
    fold vv. destruct (MainExample.chooseClipStrategy _ _); reflexivity.
  - intros * Hmax Hthis Hlinked Hactive Htarget. unfold phases.
    rewrite (PortalRendererFacts.RenderPortalRecursive_steps _ _ _ _ _ _ _ _
               Hmax Hthis Hlinked Hactive Htarget).
    reflexivity.
Qed.

Lemma traversal_pass_order_witness :
  let walk :=
    MainExample.RenderPortalsRecursive Scene.normalizeQ Scene.lengthQ Scene.g_Portals
      Scene.viewMatrix Scene.projectionMatrix Scene.g_CameraPosition Scene.front
      0 0 0 None in
  (In 0%nat (MainExample.traversed walk) /\
   exists portal, nth_error Scene.g_Portals 0 = Some portal /\ isActive portal = true) /\
  phases (MainExample.RenderPortalContent Scene.normalizeQ Scene.g_Portals
            (fun _ _ _ _ _ _ _ _ => []) 0 Scene.viewMatrix Scene.projectionMatrix
            Scene.g_CameraPosition 0 1 0 (-1))
  = [Mark; ComputeVirtualView; ClearDepth; RenderContent; RecurseChildren;
     SealDepth; RestoreStencil] /\
  phases (RenderPortalRecursive Scene.g_Portals (fun _ _ => []) 0 Scene.context 0)
  = [ComputeVirtualView; Mark; ClearDepth; RecurseChildren; RenderContent; RestoreStencil].
Proof.
  intros walk.
  destruct traversal_pass_order as (Hcull & Hmain & Hheader).
  assert (Hin : In 0%nat (MainExample.traversed walk)) by (vm_compute; left; reflexivity).
  split; [split; [exact Hin |] |].
  - destruct (Hcull _ _ _ _ _ _ _ _ _ _ _ _ Hin) as (portal & Hp & Ha & _).
    exists portal. split; assumption.
  - split.
    + rewrite (Hmain Scene.normalizeQ Scene.g_Portals (fun _ _ _ _ _ _ _ _ => []) 0%nat
                 Scene.viewMatrix Scene.projectionMatrix Scene.g_CameraPosition
                 0%Z 1%Z 0 (-1)%Z Scene.portalA Scene.portalB 1%nat
                 eq_refl eq_refl eq_refl).
      vm_compute. reflexivity.
    + apply (Hheader Scene.g_Portals (fun _ _ => []) 0%nat Scene.context 0%Z
               Scene.portalA Scene.portalB 1%nat);
        [reflexivity | reflexivity | reflexivity | reflexivity | reflexivity].
Defined.

(** The order of section 4.4 is not that of the traversal of portal 0 in
    the first frame of the demo: the content pass precedes the recursive
    children and the virtual view is computed before the depth is cleared.
    It is not that of [PortalRenderer.h] either. *)
Lemma traversal_pass_order_counterexample :
  let t :=
    MainExample.RenderPortalContent Scene.normalizeQ Scene.g_Portals
      (MainExample.RenderPortalsRecursive Scene.normalizeQ Scene.lengthQ Scene.g_Portals)
      0 Scene.viewMatrix Scene.projectionMatrix Scene.g_CameraPosition 0 1 0 (-1) in
  let u := RenderPortalRecursive Scene.g_Portals (fun _ _ => []) 0 Scene.context 0 in
  phases t = [Mark; ComputeVirtualView; ClearDepth; RenderContent; RecurseChildren;
              SealDepth; RestoreStencil] /\
  phases t <> statedOrder /\
  phases u <> statedOrder.
Proof.
  intros t u.
  assert (Ht : phases t = [Mark; ComputeVirtualView; ClearDepth; RenderContent;
                           RecurseChildren; SealDepth; RestoreStencil])
    by (vm_compute; reflexivity).
  assert (Hu : phases u = [ComputeVirtualView; Mark; ClearDepth; RecurseChildren;
                           RenderContent; RestoreStencil])
    by (vm_compute; reflexivity).
  split; [exact Ht |]. rewrite Ht, Hu. split; discriminate.
Qed.

End PassOrder.

(** ** Inverses and determinants *)
Module LinearFacts.
Import Spec GlmFacts PortalMath.

Lemma determinant_mulMM (a b : mat4) :
  determinant (mulMM a b) = determinant a * determinant b.
Proof.
  destruct a as [[] [] [] []], b as [[] [] [] []]. glm_unfold. ring.
Qed.

Lemma determinant_identity : determinant identity = 1.
Proof. glm_unfold. ring. Qed.

Lemma determinant_rotate180Y : determinant rotate180Y = 1.
Proof. glm_unfold. ring. Qed.

Lemma mulMM_identity_r (m : mat4) : mulMM m identity = m.
Proof. destruct m as [[] [] [] []]. mat_ext; ring. Qed.

(** A matrix with a right inverse has a determinant other than zero. *)
Lemma right_inverse_determinant (x y : mat4) :
  mulMM x y = identity -> determinant x <> 0.
Proof.
  intros E Hx. apply one_neq_zero.
  rewrite <- determinant_identity, <- E, determinant_mulMM, Hx. ring.
Qed.

Lemma determinant_inverse (m : mat4) :
  determinant m <> 0 -> determinant (inverse m) <> 0.
Proof.
  intros Hm. apply (right_inverse_determinant (inverse m) m).
  apply inverse_left, Hm.
Qed.

Lemma determinant_mulMM_neq (a b : mat4) :
  determinant a <> 0 -> determinant b <> 0 -> determinant (mulMM a b) <> 0.
Proof.
  intros Ha Hb. rewrite determinant_mulMM. intros E.
  apply Qcmult_integral in E. tauto.
Qed.

(** [glm::inverse] returns the only right inverse. *)
Lemma inverse_unique (x y : mat4) : mulMM x y = identity -> y = inverse x.
Proof.
  intros E. pose proof (right_inverse_determinant x y E) as Hx.
  rewrite <- (mulMM_identity_l y), <- (inverse_left x Hx).
  rewrite mulMM_assoc, E. apply mulMM_identity_r.
Qed.

Lemma inverse_mulMM (a b : mat4) :
  determinant a <> 0 -> determinant b <> 0 ->
  inverse (mulMM a b) = mulMM (inverse b) (inverse a).
Proof.
  intros Ha Hb. symmetry. apply inverse_unique.
  rewrite mulMM_assoc, <- (mulMM_assoc b), (inverse_right b Hb), mulMM_identity_l.
  apply inverse_right, Ha.
Qed.

Lemma inverse_involutive (m : mat4) :
  determinant m <> 0 -> inverse (inverse m) = m.
Proof.
  intros Hm. symmetry. apply inverse_unique. apply inverse_left, Hm.
Qed.

Lemma determinant_ComputePortalTransform (a b : mat4) :
  determinant a <> 0 -> determinant b <> 0 ->
  determinant (ComputePortalTransform a b) <> 0.
Proof.
  intros Ha Hb. unfold ComputePortalTransform.
  apply determinant_mulMM_neq; [apply determinant_mulMM_neq |].
  - exact Hb.
  - rewrite determinant_rotate180Y. exact one_neq_zero.
  - apply determinant_inverse, Ha.
Qed.

(** The pair transform of the swapped pair is the inverse. *)
Lemma inverse_ComputePortalTransform (a b : mat4) :
  determinant a <> 0 -> determinant b <> 0 ->
  inverse (ComputePortalTransform a b) = ComputePortalTransform b a.
Proof.
  intros Ha Hb. symmetry. apply inverse_unique.
  apply pair_transform_swap; assumption.
Qed.

(** Moving a plane by the inverse transpose keeps incidence. *)
Lemma dot4_transpose (n : mat4) (pl v : vec4) :
  dot4 (mulMV (transpose n) pl) v = dot4 pl (mulMV n v).
Proof.
  destruct n as [[] [] [] []], pl, v. glm_unfold. ring.
Qed.

Lemma inverse_mulMV (m : mat4) (v : vec4) :
  determinant m <> 0 -> mulMV (inverse m) (mulMV m v) = v.
Proof.
  intros Hm. rewrite <- mulMV_assoc, (inverse_left m Hm). apply mulMV_identity.
Qed.

Lemma mulMV_inverse (m : mat4) (v : vec4) :
  determinant m <> 0 -> mulMV m (mulMV (inverse m) v) = v.
Proof.
  intros Hm. rewrite <- mulMV_assoc, (inverse_right m Hm). apply mulMV_identity.
Qed.

End LinearFacts.

(** ** The transform library, continued *)
Module TransformFacts.
Import Spec GlmFacts LinearFacts PortalMath PortalMathFacts.

Lemma TeleportMatrix_eq (w a b : mat4) :
  TeleportMatrix w a b = mulMM (ComputePortalTransform a b) w.
Proof. reflexivity. Qed.

Lemma TeleportMatrix_swap (w a b : mat4) :
  determinant a <> 0 -> determinant b <> 0 ->
  TeleportMatrix (TeleportMatrix w a b) b a = w.
Proof.
  intros Ha Hb. rewrite !TeleportMatrix_eq, <- mulMM_assoc.
  rewrite pair_transform_swap by assumption. apply mulMM_identity_l.
Qed.

(** X1.  For invertible frames [A] and [B], carrying a world matrix
    through the pair from [A] to [B] and back from [B] to [A] returns
    the matrix. *)
Theorem TeleportMatrix_round_trip (W A B : mat4) :
  determinant A <> 0 -> determinant B <> 0 ->
  TeleportMatrix (TeleportMatrix W A B) B A = W.
Proof. apply TeleportMatrix_swap. Qed.

Lemma scene_invertible :
  determinant (PortalRenderer.transform Scene.portalA) <> 0 /\
  determinant (PortalRenderer.transform Scene.portalB) <> 0.
Proof. split; intros E; vm_compute in E; discriminate E. Qed.

Lemma TeleportMatrix_round_trip_witness :
  TeleportMatrix
    (TeleportMatrix (translate Scene.g_CameraPosition)
                    (PortalRenderer.transform Scene.portalA)
                    (PortalRenderer.transform Scene.portalB))
    (PortalRenderer.transform Scene.portalB)
    (PortalRenderer.transform Scene.portalA)
  = translate Scene.g_CameraPosition.
Proof.
  exact (TeleportMatrix_round_trip _ _ _ (proj1 scene_invertible)
                                   (proj2 scene_invertible)).
Defined.

(** X2.  A point attached to a frame moves with it: for an affine
    world matrix [W], the teleported matrix places a local point where
    [TeleportPosition] sends the point's world position.  In
    particular the origin of the teleported frame is the teleported
    origin. *)
Theorem TeleportMatrix_TeleportPosition (W A B : mat4) (q : vec3) :
  affine W ->
  xyz (mulMV (TeleportMatrix W A B) (ext q 1))
  = TeleportPosition (xyz (mulMV W (ext q 1))) A B /\
  xyz (c3 (TeleportMatrix W A B)) = TeleportPosition (xyz (c3 W)) A B.
Proof.
  intros HW. rewrite !TeleportPosition_eq, TeleportMatrix_eq. split.
  - rewrite mulMV_assoc, ext_xyz; [reflexivity |].
    rewrite affine_mulMV_w by exact HW. destruct q; reflexivity.
  - rewrite ext_xyz by apply HW. reflexivity.
Qed.

Lemma TeleportMatrix_TeleportPosition_witness :
  xyz (c3 (TeleportMatrix (translate Scene.g_CameraPosition)
                          (PortalRenderer.transform Scene.portalA)
                          (PortalRenderer.transform Scene.portalB)))
  = TeleportPosition Scene.g_CameraPosition
                     (PortalRenderer.transform Scene.portalA)
                     (PortalRenderer.transform Scene.portalB).
Proof.
  refine (proj2 (TeleportMatrix_TeleportPosition
                   (translate Scene.g_CameraPosition) _ _ (Vec3 0 0 0) _)).
  unfold affine; repeat split; reflexivity.
Defined.

(** The signed distance of the image of a local point, by the dot
    products of the axes of the frame. *)
Lemma GetSignedDistanceToPortal_image (m : mat4) (v : vec4) :
  w4 v = 1 ->
  GetSignedDistanceToPortal (xyz (mulMV m v)) m
  = - (x4 v * dot3 (xyz (c0 m)) (xyz (c2 m))
       + y4 v * dot3 (xyz (c1 m)) (xyz (c2 m))
       + z4 v * dot3 (xyz (c2 m)) (xyz (c2 m))).
Proof.
  destruct m as [[] [] [] []], v. unfold GetSignedDistanceToPortal.
  glm_unfold. intros ->. ring.
Qed.

(** In a frame with orthonormal axes it is the opposite of the local
    [z]. *)
Lemma GetSignedDistanceToPortal_local (m : mat4) (v : vec4) :
  orthonormal m -> w4 v = 1 ->
  GetSignedDistanceToPortal (xyz (mulMV m v)) m = - z4 v.
Proof.
  intros (_ & _ & Hcc & _ & Hac & Hbc) Hw.
  rewrite GetSignedDistanceToPortal_image by exact Hw.
  rewrite Hcc, Hac, Hbc. ring.
Qed.

Lemma mulMV_rotate180Y (v : vec4) :
  mulMV rotate180Y v = Vec4 (- x4 v) (y4 v) (- z4 v) (w4 v).
Proof. destruct v. apply vec4_eq; glm_unfold; ring. Qed.

Lemma localPoint_w (m : mat4) (p : vec3) :
  affine m -> determinant m <> 0 -> w4 (localPoint m p) = 1.
Proof.
  intros Ha Hd. unfold localPoint.
  rewrite affine_mulMV_w by (apply affine_inverse; assumption).
  destruct p; reflexivity.
Qed.

Lemma localPoint_image (m : mat4) (p : vec3) :
  determinant m <> 0 -> xyz (mulMV m (localPoint m p)) = p.
Proof.
  intros Hd. unfold localPoint. rewrite mulMV_inverse by exact Hd. apply xyz_ext.
Qed.

(** The teleported point, in homogeneous coordinates: the local point
    turned half a turn about the vertical axis, in the target frame. *)
Lemma TeleportPosition_local (p : vec3) (a b : mat4) :
  affine a -> affine b -> determinant a <> 0 ->
  ext (TeleportPosition p a b) 1 = mulMV b (mulMV rotate180Y (localPoint a p)).
Proof.
  intros Ha Hb Hd. rewrite TeleportPosition_eq, ext_xyz.
  - unfold ComputePortalTransform, localPoint. rewrite !mulMV_assoc. reflexivity.
  - rewrite affine_mulMV_w by (apply affine_ComputePortalTransform; assumption).
    destruct p; reflexivity.
Qed.

Lemma GetSignedDistanceToPortal_TeleportPosition (A B : mat4) (p : vec3) :
  rigid A -> rigid B ->
  GetSignedDistanceToPortal (TeleportPosition p A B) B
  = - GetSignedDistanceToPortal p A.
Proof.
  intros (HaA & HoA & HdA) (HaB & HoB & HdB).
  assert (DA : determinant A <> 0)
    by (rewrite (determinant_affine A HaA), HdA; exact one_neq_zero).
  pose proof (localPoint_w A p HaA DA) as Hw.
  rewrite <- (xyz_ext (TeleportPosition p A B) 1).
  rewrite TeleportPosition_local by assumption.
  rewrite GetSignedDistanceToPortal_local;
    [| exact HoB | rewrite mulMV_rotate180Y; exact Hw].
  rewrite <- (localPoint_image A p DA) at 2.
  rewrite GetSignedDistanceToPortal_local by assumption.
  rewrite mulMV_rotate180Y. reflexivity.
Qed.

(** X3.  Teleporting changes the side: for rigid frames [A] and [B],
    the signed distance of the teleported point to [B] is the opposite
    of the signed distance of the point to [A]. *)
Theorem TeleportPosition_flips_side (A B : mat4) (p : vec3) :
  rigid A -> rigid B ->
  GetSignedDistanceToPortal (TeleportPosition p A B) B
  = - GetSignedDistanceToPortal p A.
Proof. apply GetSignedDistanceToPortal_TeleportPosition. Qed.

Lemma scene_rigid :
  rigid (PortalRenderer.transform Scene.portalA) /\
  rigid (PortalRenderer.transform Scene.portalB).
Proof. split; unfold rigid, affine, orthonormal; repeat split; qc_compute. Qed.

Lemma TeleportPosition_flips_side_witness :
  GetSignedDistanceToPortal
    (TeleportPosition Scene.g_CameraPosition
                      (PortalRenderer.transform Scene.portalA)
                      (PortalRenderer.transform Scene.portalB))
    (PortalRenderer.transform Scene.portalB)
  = - GetSignedDistanceToPortal Scene.g_CameraPosition
                                (PortalRenderer.transform Scene.portalA).
Proof.
  exact (TeleportPosition_flips_side _ _ Scene.g_CameraPosition
                                     (proj1 scene_rigid) (proj2 scene_rigid)).
Defined.

(** X4.  The clip plane in view space keeps incidence: at the view
    space image of a world point, the plane of [GetPortalClipPlane]
    takes the value that the world plane of [GetPortalPlane] takes at
    the point, which is the point's signed distance to the portal. *)
Theorem GetPortalClipPlane_incidence (portalMatrix viewMatrix : mat4) (p : vec3) :
  determinant viewMatrix <> 0 ->
  dot4 (GetPortalClipPlane portalMatrix viewMatrix) (mulMV viewMatrix (ext p 1))
  = GetSignedDistanceToPortal p portalMatrix /\
  GetPortalClipPlane portalMatrix viewMatrix
  = mulMV (transpose (inverse viewMatrix)) (GetPortalPlane portalMatrix).
Proof.
  intros Hv. split; [| reflexivity].
  change (GetPortalClipPlane portalMatrix viewMatrix)
    with (mulMV (transpose (inverse viewMatrix)) (GetPortalPlane portalMatrix)).
  rewrite dot4_transpose, inverse_mulMV by exact Hv.
  apply GetPortalPlane_eq.
Qed.

Lemma scene_view_invertible : determinant Scene.viewMatrix <> 0.
Proof. intros E; vm_compute in E; discriminate E. Qed.

Lemma GetPortalClipPlane_incidence_witness :
  dot4 (GetPortalClipPlane (PortalRenderer.transform Scene.portalB) Scene.viewMatrix)
       (mulMV Scene.viewMatrix (ext Scene.g_CameraPosition 1))
  = GetSignedDistanceToPortal Scene.g_CameraPosition
                              (PortalRenderer.transform Scene.portalB).
Proof.
  exact (proj1 (GetPortalClipPlane_incidence _ _ Scene.g_CameraPosition
                                             scene_view_invertible)).
Defined.

(** The rows of a projection whose third row is replaced by [c] minus
    the fourth. *)
Lemma oblique_rows (p : mat4) (c v : vec4) :
  let o := Mat4 (Vec4 (x4 (c0 p)) (y4 (c0 p)) (x4 c - w4 (c0 p)) (w4 (c0 p)))
                (Vec4 (x4 (c1 p)) (y4 (c1 p)) (y4 c - w4 (c1 p)) (w4 (c1 p)))
                (Vec4 (x4 (c2 p)) (y4 (c2 p)) (z4 c - w4 (c2 p)) (w4 (c2 p)))
                (Vec4 (x4 (c3 p)) (y4 (c3 p)) (w4 c - w4 (c3 p)) (w4 (c3 p))) in
  x4 (mulMV o v) = x4 (mulMV p v) /\
  y4 (mulMV o v) = y4 (mulMV p v) /\
  w4 (mulMV o v) = w4 (mulMV p v) /\
  z4 (mulMV o v) + w4 (mulMV o v) = dot4 c v.
Proof.
  destruct p as [[] [] [] []], c, v. glm_unfold. repeat split; ring.
Qed.

Lemma sum_0_opp (z w : Qc) : z + w = 0 -> z = - w.
Proof. intros H. transitivity (z + w - w); [ring | rewrite H; ring]. Qed.

Lemma dot4_scale4 (c v : vec4) (k : Qc) : dot4 (scale4 c k) v = k * dot4 c v.
Proof. destruct c, v. glm_unfold. ring. Qed.

Lemma CalculateObliqueProjectionMatrix_eq (projectionMatrix : mat4) (clipPlane : vec4) :
  let p := projectionMatrix in
  let c := scale4 clipPlane
             (dec 2 1 / dot4 clipPlane
                          (CalculateObliqueProjectionMatrix_q projectionMatrix clipPlane)) in
  CalculateObliqueProjectionMatrix projectionMatrix clipPlane
  = Mat4 (Vec4 (x4 (c0 p)) (y4 (c0 p)) (x4 c - w4 (c0 p)) (w4 (c0 p)))
         (Vec4 (x4 (c1 p)) (y4 (c1 p)) (y4 c - w4 (c1 p)) (w4 (c1 p)))
         (Vec4 (x4 (c2 p)) (y4 (c2 p)) (z4 c - w4 (c2 p)) (w4 (c2 p)))
         (Vec4 (x4 (c3 p)) (y4 (c3 p)) (w4 c - w4 (c3 p)) (w4 (c3 p))).
Proof. reflexivity. Qed.

Lemma two_div_neq_0 (d : Qc) : d <> 0 -> dec 2 1 / d <> 0.
Proof.
  intros Hd E.
  assert (K : dec 2 1 = dec 2 1 / d * d) by (field; exact Hd).
  rewrite E, Qcmult_0_l in K. discriminate K.
Qed.

(** What the oblique projection does to a vector, where its divisions
    are defined. *)
Lemma CalculateObliqueProjectionMatrix_rows (projectionMatrix : mat4) (clipPlane v : vec4) :
  let oblique := CalculateObliqueProjectionMatrix projectionMatrix clipPlane in
  let k := dec 2 1 / dot4 clipPlane
                          (CalculateObliqueProjectionMatrix_q projectionMatrix clipPlane) in
  x4 (mulMV oblique v) = x4 (mulMV projectionMatrix v) /\
  y4 (mulMV oblique v) = y4 (mulMV projectionMatrix v) /\
  w4 (mulMV oblique v) = w4 (mulMV projectionMatrix v) /\
  z4 (mulMV oblique v) + w4 (mulMV oblique v) = k * dot4 clipPlane v.
Proof.
  cbv zeta. rewrite CalculateObliqueProjectionMatrix_eq. cbv zeta.
  match goal with
  | |- context [scale4 clipPlane ?k] =>
      pose proof (oblique_rows projectionMatrix (scale4 clipPlane k) v)
        as (Hx & Hy & Hw & Hz)
  end.
  rewrite dot4_scale4 in Hz. auto.
Qed.

(** X5.  The oblique projection moves the near plane onto the clip
    plane and nothing else: where the divisions of
    [CalculateObliqueProjectionMatrix] are defined (no divisor is
    zero), it leaves the [x], [y] and [w] of every projected vector as
    they were, and [z + w], which vanishes on the near plane, becomes a
    fixed multiple, other than zero, of the clip plane's value at the
    vector.  A vector lands on the near plane exactly when it is on the
    clip plane. *)
Theorem CalculateObliqueProjectionMatrix_near_plane (projectionMatrix : mat4) (clipPlane : vec4) :
  obliqueDefined projectionMatrix clipPlane ->
  let oblique := CalculateObliqueProjectionMatrix projectionMatrix clipPlane in
  exists k : Qc, k <> 0 /\ forall v : vec4,
    x4 (mulMV oblique v) = x4 (mulMV projectionMatrix v) /\
    y4 (mulMV oblique v) = y4 (mulMV projectionMatrix v) /\
    w4 (mulMV oblique v) = w4 (mulMV projectionMatrix v) /\
    z4 (mulMV oblique v) + w4 (mulMV oblique v) = k * dot4 clipPlane v /\
    (z4 (mulMV oblique v) = - w4 (mulMV oblique v) <-> dot4 clipPlane v = 0).
Proof.
  intros (_ & _ & _ & Hd). cbv zeta.
  exists (dec 2 1 / dot4 clipPlane
                        (CalculateObliqueProjectionMatrix_q projectionMatrix clipPlane)).
  pose proof (two_div_neq_0 _ Hd) as Hk.
  split; [exact Hk |]. intros v.
  destruct (CalculateObliqueProjectionMatrix_rows projectionMatrix clipPlane v)
    as (Hx & Hy & Hw & Hz).
  cbv zeta in Hz.
  split; [exact Hx |]. split; [exact Hy |]. split; [exact Hw |].
  split; [exact Hz |]. split.
  - intros E. rewrite E in Hz.
    assert (K : - w4 (mulMV (CalculateObliqueProjectionMatrix projectionMatrix clipPlane) v)
                + w4 (mulMV (CalculateObliqueProjectionMatrix projectionMatrix clipPlane) v)
                = 0) by ring.
    rewrite K in Hz. symmetry in Hz.
    destruct (Qcmult_integral _ _ Hz) as [H | H]; [destruct (Hk H) | exact H].
  - intros H0. rewrite H0, Qcmult_0_r in Hz. apply sum_0_opp, Hz.
Qed.

Lemma scene_obliqueDefined :
  obliqueDefined Scene.projectionMatrix
                 (GetPortalClipPlane (PortalRenderer.transform Scene.portalB)
                                     Scene.viewMatrix).
Proof.
  unfold obliqueDefined. repeat split; intros E; vm_compute in E; discriminate E.
Qed.

Lemma CalculateObliqueProjectionMatrix_near_plane_witness :
  let clipPlane :=
    GetPortalClipPlane (PortalRenderer.transform Scene.portalB) Scene.viewMatrix in
  exists k : Qc, k <> 0 /\ forall v : vec4,
    z4 (mulMV (CalculateObliqueProjectionMatrix Scene.projectionMatrix clipPlane) v)
    + w4 (mulMV (CalculateObliqueProjectionMatrix Scene.projectionMatrix clipPlane) v)
    = k * dot4 clipPlane v.
Proof.
  intros clipPlane.
  destruct (CalculateObliqueProjectionMatrix_near_plane
              Scene.projectionMatrix clipPlane scene_obliqueDefined) as (k & Hk & H).
  exists k. split; [exact Hk |]. intros v. apply (H v).
Defined.

(** X28.  The near plane of the virtual camera is the portal: under
    the oblique projection that [RenderPortalRecursive] computes from
    the plane of the target portal, where the divisions of that
    projection are defined (no divisor is zero), a world point on the
    plane, seen through an invertible view matrix, lands on the near
    plane of clip space, [z = -w]. *)
Theorem CalculateObliqueProjection_portal_plane
        (projectionMatrix viewMatrix portalMatrix : mat4) (p : vec3) :
  determinant viewMatrix <> 0 ->
  obliqueDefined projectionMatrix (GetPortalClipPlane portalMatrix viewMatrix) ->
  GetSignedDistanceToPortal p portalMatrix = 0 ->
  let obliqueProj :=
    CalculateObliqueProjection projectionMatrix viewMatrix (GetPortalPlane portalMatrix) in
  let clip := mulMV obliqueProj (mulMV viewMatrix (ext p 1)) in
  z4 clip = - w4 clip.
Proof.
  intros Hv _ Hp. cbv zeta.
  change (CalculateObliqueProjection projectionMatrix viewMatrix
                                     (GetPortalPlane portalMatrix))
    with (CalculateObliqueProjectionMatrix projectionMatrix
            (GetPortalClipPlane portalMatrix viewMatrix)).
  assert (E : dot4 (GetPortalClipPlane portalMatrix viewMatrix)
                   (mulMV viewMatrix (ext p 1)) = 0).
  { change (GetPortalClipPlane portalMatrix viewMatrix)
      with (mulMV (transpose (inverse viewMatrix)) (GetPortalPlane portalMatrix)).
    rewrite dot4_transpose, inverse_mulMV by exact Hv.
    rewrite GetPortalPlane_eq. exact Hp. }
  destruct (CalculateObliqueProjectionMatrix_rows
              projectionMatrix (GetPortalClipPlane portalMatrix viewMatrix)
              (mulMV viewMatrix (ext p 1))) as (_ & _ & _ & Hz).
  cbv zeta in Hz. rewrite E, Qcmult_0_r in Hz. apply sum_0_opp, Hz.
Qed.

Lemma CalculateObliqueProjection_portal_plane_witness :
  let clip :=
    mulMV (CalculateObliqueProjection Scene.projectionMatrix Scene.viewMatrix
             (GetPortalPlane (PortalRenderer.transform Scene.portalB)))
          (mulMV Scene.viewMatrix (ext (Vec3 (dec 5 1) 0 0) 1)) in
  z4 clip = - w4 clip.
Proof.
  apply (CalculateObliqueProjection_portal_plane
           Scene.projectionMatrix Scene.viewMatrix
           (PortalRenderer.transform Scene.portalB) (Vec3 (dec 5 1) 0 0)).
  - exact scene_view_invertible.
  - exact scene_obliqueDefined.
  - qc_compute.
Defined.

Lemma CalculatePortalViewMatrix_eq (V A B : mat4) :
  CalculatePortalViewMatrix V A B
  = inverse (mulMM (ComputePortalTransform A B) (inverse V)).
Proof. reflexivity. Qed.

(** X6.  The virtual camera sees the far side as the player would see
    the near side: for invertible matrices, the virtual view matrix is
    the player's view matrix composed with the pair transform from the
    target back to the source, so the virtual view of a teleported
    vector is the player's view of the vector. *)
Theorem CalculatePortalViewMatrix_of_teleported (V A B : mat4) :
  determinant V <> 0 -> determinant A <> 0 -> determinant B <> 0 ->
  CalculatePortalViewMatrix V A B = mulMM V (ComputePortalTransform B A) /\
  forall v : vec4,
    mulMV (CalculatePortalViewMatrix V A B) (mulMV (ComputePortalTransform A B) v)
    = mulMV V v.
Proof.
  intros HV HA HB.
  assert (E : CalculatePortalViewMatrix V A B = mulMM V (ComputePortalTransform B A)).
  { rewrite CalculatePortalViewMatrix_eq.
    rewrite inverse_mulMM
      by auto using determinant_ComputePortalTransform, determinant_inverse.
    rewrite inverse_involutive by exact HV.
    rewrite inverse_ComputePortalTransform by assumption. reflexivity. }
  split; [exact E |]. intros v.
  rewrite E, <- !mulMV_assoc, mulMM_assoc.
  rewrite pair_transform_swap by assumption.
  rewrite mulMM_identity_r. reflexivity.
Qed.

Lemma CalculatePortalViewMatrix_of_teleported_witness :
  CalculatePortalViewMatrix Scene.viewMatrix
                            (PortalRenderer.transform Scene.portalA)
                            (PortalRenderer.transform Scene.portalB)
  = mulMM Scene.viewMatrix
          (ComputePortalTransform (PortalRenderer.transform Scene.portalB)
                                  (PortalRenderer.transform Scene.portalA)).
Proof.
  exact (proj1 (CalculatePortalViewMatrix_of_teleported
                  _ _ _ scene_view_invertible
                  (proj1 scene_invertible) (proj2 scene_invertible))).
Defined.

(** X7.  The two renderers place the virtual camera at the same
    point: for an affine invertible view matrix and invertible frames,
    the position read off the inverse of the virtual view matrix
    ([RenderPortalRecursive]) is the camera position carried through
    the pair ([RenderPortalContent]), which is where [TeleportPosition]
    sends the camera. *)
Theorem virtual_camera_position (V A B : mat4) :
  affine V -> determinant V <> 0 -> determinant A <> 0 -> determinant B <> 0 ->
  let virtualView := CalculatePortalView A B V in
  let currentCameraPos := xyz (c3 (inverse V)) in
  xyz (c3 (inverse virtualView))
  = xyz (mulMV (ComputePortalTransform A B) (ext currentCameraPos 1)) /\
  xyz (c3 (inverse virtualView)) = TeleportPosition currentCameraPos A B.
Proof.
  intros HaV HV HA HB. cbv zeta.
  unfold CalculatePortalView. rewrite CalculatePortalViewMatrix_eq.
  rewrite inverse_involutive
    by (apply determinant_mulMM_neq;
        auto using determinant_ComputePortalTransform, determinant_inverse).
  rewrite TeleportPosition_eq.
  rewrite ext_xyz by (apply (affine_inverse V HaV HV)).
  split; reflexivity.
Qed.

Lemma scene_view_affine : affine Scene.viewMatrix.
Proof. unfold affine; repeat split; reflexivity. Qed.

Lemma virtual_camera_position_witness :
  xyz (c3 (inverse (CalculatePortalView (PortalRenderer.transform Scene.portalA)
                                        (PortalRenderer.transform Scene.portalB)
                                        Scene.viewMatrix)))
  = TeleportPosition (xyz (c3 (inverse Scene.viewMatrix)))
                     (PortalRenderer.transform Scene.portalA)
                     (PortalRenderer.transform Scene.portalB).
Proof.
  exact (proj2 (virtual_camera_position
                  _ _ _ scene_view_affine scene_view_invertible
                  (proj1 scene_invertible) (proj2 scene_invertible))).
Defined.

(** The dot product of the images of two directions, by the dot
    products of the axes of the frame. *)
Lemma dot3_image (m : mat4) (u v : vec4) :
  w4 u = 0 -> w4 v = 0 ->
  dot3 (xyz (mulMV m u)) (xyz (mulMV m v))
  = x4 u * x4 v * dot3 (xyz (c0 m)) (xyz (c0 m))
    + y4 u * y4 v * dot3 (xyz (c1 m)) (xyz (c1 m))
    + z4 u * z4 v * dot3 (xyz (c2 m)) (xyz (c2 m))
    + (x4 u * y4 v + y4 u * x4 v) * dot3 (xyz (c0 m)) (xyz (c1 m))
    + (x4 u * z4 v + z4 u * x4 v) * dot3 (xyz (c0 m)) (xyz (c2 m))
    + (y4 u * z4 v + z4 u * y4 v) * dot3 (xyz (c1 m)) (xyz (c2 m)).
Proof.
  destruct m as [[] [] [] []], u, v. glm_unfold. intros -> ->. ring.
Qed.

(** A frame with orthonormal axes keeps the dot product of directions. *)
Lemma orthonormal_dot3 (m : mat4) (u v : vec4) :
  orthonormal m -> w4 u = 0 -> w4 v = 0 ->
  dot3 (xyz (mulMV m u)) (xyz (mulMV m v)) = dot3 (xyz u) (xyz v).
Proof.
  intros (Haa & Hbb & Hcc & Hab & Hac & Hbc) Hu Hv.
  rewrite dot3_image by assumption.
  rewrite Haa, Hbb, Hcc, Hab, Hac, Hbc.
  destruct u, v. glm_unfold. ring.
Qed.

Lemma orthonormal_rotate180Y : orthonormal rotate180Y.
Proof. unfold orthonormal; repeat split; qc_compute. Qed.

(** So does its inverse. *)
Lemma orthonormal_inverse_dot3 (m : mat4) (u v : vec4) :
  affine m -> orthonormal m -> determinant m <> 0 -> w4 u = 0 -> w4 v = 0 ->
  dot3 (xyz (mulMV (inverse m) u)) (xyz (mulMV (inverse m) v)) = dot3 (xyz u) (xyz v).
Proof.
  intros Ha Ho Hd Hu Hv.
  pose proof (affine_inverse m Ha Hd) as Hi.
  rewrite <- (orthonormal_dot3 m (mulMV (inverse m) u) (mulMV (inverse m) v) Ho)
    by (rewrite affine_mulMV_w; assumption).
  rewrite !mulMV_inverse by exact Hd. reflexivity.
Qed.

(** X8.  Teleporting keeps lengths and angles: for rigid frames, the
    vectors that [TeleportDirection] normalizes for two directions
    have the dot product of the directions; the vector it normalizes
    for a direction has the length of the direction. *)
Theorem TeleportDirection_preserves_dot (normalize : vec3 -> vec3)
        (A B : mat4) (d e : vec3) :
  rigid A -> rigid B ->
  TeleportDirection normalize d A B = normalize (xyz (TeleportDirection_result d A B)) /\
  dot3 (xyz (TeleportDirection_result d A B)) (xyz (TeleportDirection_result e A B))
  = dot3 d e /\
  dot3 (xyz (TeleportDirection_result d A B)) (xyz (TeleportDirection_result d A B))
  = dot3 d d.
Proof.
  intros (HaA & HoA & HdA) (HaB & HoB & HdB).
  assert (DA : determinant A <> 0)
    by (rewrite (determinant_affine A HaA), HdA; exact one_neq_zero).
  assert (K : forall d e,
             dot3 (xyz (TeleportDirection_result d A B))
                  (xyz (TeleportDirection_result e A B)) = dot3 d e).
  { clear d e. intros d e. unfold TeleportDirection_result. cbv zeta.
    rewrite !mulMV_assoc.
    assert (W : forall x, w4 (mulMV (inverse A) (ext x 0)) = 0).
    { intros x. rewrite affine_mulMV_w by (apply affine_inverse; assumption).
      destruct x; reflexivity. }
    rewrite (orthonormal_dot3 B) by
      (try exact HoB; rewrite affine_mulMV_w by exact affine_rotate180Y; apply W).
    rewrite (orthonormal_dot3 rotate180Y) by
      (try exact orthonormal_rotate180Y; apply W).
    rewrite orthonormal_inverse_dot3 by
      (try assumption; destruct d, e; reflexivity).
    rewrite !xyz_ext. reflexivity. }
  split; [reflexivity |]. split; apply K.
Qed.

Lemma TeleportDirection_preserves_dot_witness :
  dot3 (xyz (TeleportDirection_result Scene.front
               (PortalRenderer.transform Scene.portalA)
               (PortalRenderer.transform Scene.portalB)))
       (xyz (TeleportDirection_result Scene.front
               (PortalRenderer.transform Scene.portalA)
               (PortalRenderer.transform Scene.portalB)))
  = dot3 Scene.front Scene.front.
Proof.
  exact (proj2 (proj2 (TeleportDirection_preserves_dot
                         Scene.normalizeQ _ _ Scene.front Scene.front
                         (proj1 scene_rigid) (proj2 scene_rigid)))).
Defined.

(** X9.  The projection helper of [main_example.cpp] assumes a
    perspective projection: for a projection matrix whose fourth row
    is [(0, 0, -1, 0)] it returns the matrix that
    [PortalMath::CalculateObliqueProjectionMatrix] returns. *)
Theorem ComputeObliqueProjection_agrees (projection : mat4) (clipPlane : vec4) :
  w4 (c0 projection) = 0 -> w4 (c1 projection) = 0 ->
  w4 (c2 projection) = - (1) -> w4 (c3 projection) = 0 ->
  MainExample.Oblique.ComputeObliqueProjection projection clipPlane
  = CalculateObliqueProjectionMatrix projection clipPlane.
Proof.
  destruct projection as [[p00 p01 p02 p03] [p10 p11 p12 p13]
                          [p20 p21 p22 p23] [p30 p31 p32 p33]].
  cbn [c0 c1 c2 c3 w4]. intros -> -> -> ->.
  unfold MainExample.Oblique.ComputeObliqueProjection,
    CalculateObliqueProjectionMatrix. cbv zeta. cbn [c0 c1 c2 c3 x4 y4 z4 w4].
  apply mat4_eq; apply vec4_eq; try reflexivity; ring.
Qed.

Lemma ComputeObliqueProjection_agrees_witness :
  MainExample.Oblique.ComputeObliqueProjection Scene.projectionMatrix (Vec4 0 0 (- (1)) (- (1)))
  = CalculateObliqueProjectionMatrix Scene.projectionMatrix (Vec4 0 0 (- (1)) (- (1))).
Proof.
  apply (ComputeObliqueProjection_agrees Scene.projectionMatrix);
    reflexivity.
Defined.

End TransformFacts.

(** ** The teleporter, continued *)
Module CrossingFacts.
Import Spec GlmFacts LinearFacts PortalMath PortalMathFacts TransformFacts.
Import PortalTeleporter PortalTeleporterFacts.

Lemma Qclt_opp_pos (a : Qc) : 0 < - a <-> a < 0.
Proof. rewrite (Qclt_minus_iff a 0), Qcplus_0_l. reflexivity. Qed.

Lemma Qclt_opp_neg (a : Qc) : - a < 0 <-> 0 < a.
Proof. rewrite (Qclt_minus_iff (- a) 0), Qcplus_0_l, Qcopp_involutive. reflexivity. Qed.

Lemma Qcle_opp_pos (a : Qc) : 0 <= - a <-> a <= 0.
Proof. rewrite (Qcle_minus_iff a 0), Qcplus_0_l. reflexivity. Qed.

Lemma Qcle_opp_neg (a : Qc) : - a <= 0 <-> 0 <= a.
Proof. rewrite (Qcle_minus_iff (- a) 0), Qcplus_0_l, Qcopp_involutive. reflexivity. Qed.

Lemma Qclt_irrefl (a : Qc) : ~ a < a.
Proof. intros H. exact (Qclt_not_le _ _ H (Qcle_refl a)). Qed.

Lemma Qcminus_0_eq (a b : Qc) : a - b = 0 -> a = b.
Proof. intros H. transitivity (a - b + b); [ring | rewrite H; ring]. Qed.

(** [glm::abs] is even and not negative. *)
Lemma abs_opp (a : Qc) : abs (- a) = abs a.
Proof.
  unfold abs. destruct (Qc_dec a 0) as [[H | H] | ->].
  - pose proof (proj2 (Qcltb_lt a 0) H) as ->.
    destruct (- a <? 0) eqn:E; [| reflexivity].
    apply Qcltb_lt, Qclt_opp_neg in E.
    destruct (Qclt_irrefl 0 (Qclt_trans _ _ _ E H)).
  - pose proof (proj2 (Qcltb_lt (- a) 0) (proj2 (Qclt_opp_neg a) H)) as ->.
    destruct (a <? 0) eqn:E.
    + apply Qcltb_lt in E. destruct (Qclt_irrefl 0 (Qclt_trans _ _ _ H E)).
    + apply Qcopp_involutive.
  - reflexivity.
Qed.

Lemma abs_nonneg (a : Qc) : 0 <= abs a.
Proof.
  unfold abs. destruct (a <? 0) eqn:E.
  - apply Qcltb_lt in E. apply Qcle_opp_pos, Qclt_le_weak, E.
  - apply Qcnot_lt_le. intros H. apply Qcltb_lt in H. congruence.
Qed.

Lemma abs_of_nonneg (a : Qc) : 0 <= a -> abs a = a.
Proof.
  intros H. unfold abs. destruct (a <? 0) eqn:E; [| reflexivity].
  apply Qcltb_lt in E. destruct (Qclt_not_le _ _ E H).
Qed.

Lemma Qcltb_opp_pos (a : Qc) : (0 <? - a) = (a <? 0).
Proof. apply eq_true_iff_eq. rewrite !Qcltb_lt. apply Qclt_opp_pos. Qed.

Lemma Qcltb_opp_neg (a : Qc) : (- a <? 0) = (0 <? a).
Proof. apply eq_true_iff_eq. rewrite !Qcltb_lt. apply Qclt_opp_neg. Qed.

Lemma Qcleb_opp_pos (a : Qc) : (0 <=? - a) = (a <=? 0).
Proof. apply eq_true_iff_eq. rewrite !Qcleb_le. apply Qcle_opp_pos. Qed.

Lemma Qcleb_opp_neg (a : Qc) : (- a <=? 0) = (0 <=? a).
Proof. apply eq_true_iff_eq. rewrite !Qcleb_le. apply Qcle_opp_neg. Qed.

(** The crossing test does not tell the two sides apart. *)
Lemma crossedPortal_opp (p c : Qc) : crossedPortal (- p) (- c) = crossedPortal p c.
Proof.
  unfold crossedPortal.
  rewrite Qcltb_opp_pos, Qcltb_opp_neg, Qcleb_opp_pos, Qcleb_opp_neg.
  apply orb_comm.
Qed.

Lemma crossedPortal_neq (p c : Qc) : crossedPortal p c = true -> p - c <> 0.
Proof.
  intros H E. apply Qcminus_0_eq in E. subst c.
  apply crossedPortal_leavesSide in H. destruct H as [[H1 H2] | [H1 H2]].
  - exact (Qclt_not_le _ _ H1 H2).
  - exact (Qclt_not_le _ _ H1 H2).
Qed.

Lemma crossing_parameter_opp (p c : Qc) :
  p - c <> 0 -> - p / (- p - - c) = p / (p - c).
Proof.
  intros H. field. split; [exact H |].
  contradict H. transitivity (- (- p - - c)); [ring | rewrite H; ring].
Qed.

Lemma Qcle_add_nonneg (a c : Qc) : 0 <= c -> a <= a + c.
Proof.
  intros H. apply Qcle_minus_iff. replace (a + c + - a) with c by ring. exact H.
Qed.

(** The crossing parameter lies in the segment. *)
Lemma crossing_parameter_range (p c : Qc) :
  crossedPortal p c = true -> 0 < p / (p - c) /\ p / (p - c) <= 1.
Proof.
  intros H. pose proof (crossedPortal_neq p c H) as Hd.
  assert (E : p / (p - c) * (p - c) = p) by (field; exact Hd).
  assert (E' : p / (p - c) * (- (p - c)) = - p) by (field; exact Hd).
  set (t := p / (p - c)) in *. clearbody t.
  apply crossedPortal_leavesSide in H. destruct H as [[H1 H2] | [H1 H2]].
  - assert (Hpos : 0 < p - c)
      by (apply (proj1 (Qclt_minus_iff c p)), (Qcle_lt_trans _ _ _ H2 H1)).
    split.
    + apply Qcnot_le_lt. intros Ht.
      pose proof (Qcmult_le_compat_r t 0 (p - c) Ht (Qclt_le_weak _ _ Hpos)) as K.
      rewrite E, Qcmult_0_l in K. exact (Qclt_not_le _ _ H1 K).
    + apply (Qcmult_lt_0_le_reg_r t 1 (p - c) Hpos).
      rewrite E, Qcmult_1_l.
      apply (Qcle_add_nonneg p (- c)), Qcle_opp_pos, H2.
  - assert (Hpos : 0 < - (p - c)).
    { replace (- (p - c)) with (c + - p) by ring.
      apply (proj1 (Qclt_minus_iff p c)), (Qclt_le_trans _ _ _ H1 H2). }
    split.
    + apply Qcnot_le_lt. intros Ht.
      pose proof (Qcmult_le_compat_r t 0 (- (p - c)) Ht (Qclt_le_weak _ _ Hpos)) as K.
      rewrite E', Qcmult_0_l in K.
      exact (Qclt_not_le _ _ (proj2 (Qclt_opp_pos p) H1) K).
    + apply (Qcmult_lt_0_le_reg_r t 1 (- (p - c)) Hpos).
      rewrite E', Qcmult_1_l.
      replace (- (p - c)) with (- p + c) by ring.
      apply Qcle_add_nonneg, H2.
Qed.

(** The signed distance is affine along a segment. *)
Lemma GetSignedDistanceToPortal_mix (a b : vec3) (t : Qc) (m : mat4) :
  GetSignedDistanceToPortal (mix a b t) m
  = (1 - t) * GetSignedDistanceToPortal a m + t * GetSignedDistanceToPortal b m.
Proof.
  destruct a, b, m as [[] [] [] []]. unfold GetSignedDistanceToPortal.
  glm_unfold. ring.
Qed.

Lemma crossPoint_on_plane (e : TeleportableEntity) (m : mat4) :
  let prevDist := GetSignedDistanceToPortal (previousPosition e) m in
  let currDist := GetSignedDistanceToPortal (position e) m in
  crossedPortal prevDist currDist = true ->
  GetSignedDistanceToPortal (crossPoint e prevDist currDist) m = 0.
Proof.
  intros p c H. pose proof (crossedPortal_neq p c H) as Hd.
  unfold crossPoint. rewrite GetSignedDistanceToPortal_mix.
  fold p c. field. exact Hd.
Qed.

(** What a successful call went through. *)
Lemma ShouldTeleport_true (e : TeleportableEntity) (portal : PortalRenderer.Portal)
      (hw hh t : Qc) :
  let m := PortalRenderer.transform portal in
  let prevDist := GetSignedDistanceToPortal (previousPosition e) m in
  let currDist := GetSignedDistanceToPortal (position e) m in
  fst (ShouldTeleport e portal hw hh t) = true ->
  cooldownActive e t = false /\
  crossedPortal prevDist currDist = true /\
  IsPointInPortalBounds (crossPoint e prevDist currDist) m hw hh = true.
Proof.
  intros m p c. unfold ShouldTeleport. fold m p c.
  destruct (cooldownActive e t); [discriminate |].
  destruct (crossedPortal p c); [| discriminate]. cbn [negb].
  destruct (IsPointInPortalBounds _ _ _ _); [auto | discriminate].
Qed.

(** X10.  When [ShouldTeleport] returns true, the crossing point it
    tests lies on the segment from the previous to the current
    position, past its start, and on the plane of the portal. *)
Theorem ShouldTeleport_crossing_point
        (e : TeleportableEntity) (portal : PortalRenderer.Portal) (hw hh t : Qc) :
  let m := PortalRenderer.transform portal in
  let prevDist := GetSignedDistanceToPortal (previousPosition e) m in
  let currDist := GetSignedDistanceToPortal (position e) m in
  fst (ShouldTeleport e portal hw hh t) = true ->
  0 < prevDist / (prevDist - currDist) /\
  prevDist / (prevDist - currDist) <= 1 /\
  crossPoint e prevDist currDist
  = mix (previousPosition e) (position e) (prevDist / (prevDist - currDist)) /\
  GetSignedDistanceToPortal (crossPoint e prevDist currDist) m = 0.
Proof.
  intros m p c H. destruct (ShouldTeleport_true e portal hw hh t H) as (_ & Hx & _).
  fold m p c in Hx.
  destruct (crossing_parameter_range p c Hx) as [H0 H1].
  split; [exact H0 |]. split; [exact H1 |]. split; [reflexivity |].
  apply crossPoint_on_plane, Hx.
Qed.

Lemma ShouldTeleport_crossing_point_witness :
  GetSignedDistanceToPortal
    (crossPoint (Scene.crossingEntity 0)
       (GetSignedDistanceToPortal (previousPosition (Scene.crossingEntity 0)) identity)
       (GetSignedDistanceToPortal (position (Scene.crossingEntity 0)) identity))
    identity = 0.
Proof.
  refine (proj2 (proj2 (proj2 (ShouldTeleport_crossing_point
                                 (Scene.crossingEntity 0) Scene.originPortal 1 1 0 _)))).
  vm_compute. reflexivity.
Defined.

Lemma ShouldTeleport_no_crossing
        (e : TeleportableEntity) (portal : PortalRenderer.Portal) (hw hh t : Qc) :
  let m := PortalRenderer.transform portal in
  let prevDist := GetSignedDistanceToPortal (previousPosition e) m in
  let currDist := GetSignedDistanceToPortal (position e) m in
  position e = previousPosition e \/ prevDist = 0 \/
  (0 < prevDist /\ 0 < currDist) \/ (prevDist < 0 /\ currDist < 0) ->
  ShouldTeleport e portal hw hh t = (false, e).
Proof.
  intros m p c H. unfold ShouldTeleport. fold m p c.
  destruct (cooldownActive e t); [reflexivity |].
  assert (Hx : crossedPortal p c = false).
  { destruct (crossedPortal p c) eqn:E; [| reflexivity]. exfalso.
    apply crossedPortal_leavesSide in E.
    destruct H as [H | [H | [[H1 H2] | [H1 H2]]]].
    - assert (Epc : p = c) by (unfold p, c; rewrite H; reflexivity).
      rewrite Epc in E. destruct E as [[E1 E2] | [E1 E2]];
        exact (Qclt_not_le _ _ E1 E2).
    - rewrite H in E. destruct E as [[E1 _] | [E1 _]]; exact (Qclt_irrefl 0 E1).
    - destruct E as [[_ E2] | [E1 _]].
      + exact (Qclt_not_le _ _ H2 E2).
      + exact (Qclt_irrefl 0 (Qclt_trans _ _ _ H1 E1)).
    - destruct E as [[E1 _] | [_ E2]].
      + exact (Qclt_irrefl 0 (Qclt_trans _ _ _ E1 H1)).
      + exact (Qclt_not_le _ _ H2 E2). }
  rewrite Hx. reflexivity.
Qed.

(** X11.  No teleport without a crossing: an entity that did not move,
    that started on the plane of the portal, or whose two positions lie
    strictly on the same side of it, is refused and left as it is,
    whatever the bounds and the time. *)
Theorem ShouldTeleport_requires_crossing
        (e : TeleportableEntity) (portal : PortalRenderer.Portal) (hw hh t : Qc) :
  let m := PortalRenderer.transform portal in
  let prevDist := GetSignedDistanceToPortal (previousPosition e) m in
  let currDist := GetSignedDistanceToPortal (position e) m in
  position e = previousPosition e \/ prevDist = 0 \/
  (0 < prevDist /\ 0 < currDist) \/ (prevDist < 0 /\ currDist < 0) ->
  ShouldTeleport e portal hw hh t = (false, e).
Proof. apply ShouldTeleport_no_crossing. Qed.

Lemma ShouldTeleport_requires_crossing_witness :
  ShouldTeleport (mkEntity Scene.g_CameraPosition Scene.g_CameraPosition (Vec3 0 0 0)
                           identity false 0)
                 Scene.portalA 1 (dec 3 2) 0
  = (false, mkEntity Scene.g_CameraPosition Scene.g_CameraPosition (Vec3 0 0 0)
                     identity false 0).
Proof.
  apply ShouldTeleport_requires_crossing. left. reflexivity.
Defined.

End CrossingFacts.

(** ** The teleporter and the pair of portals *)
Module PairFacts.
Import Spec GlmFacts LinearFacts PortalMath PortalMathFacts TransformFacts.
Import PortalTeleporter PortalTeleporterFacts CrossingFacts.

(** The bounds test, on the local point. *)
Lemma IsPointInPortalBounds_local (p : vec3) (m : mat4) (hw hh : Qc) :
  IsPointInPortalBounds p m hw hh
  = (abs (x4 (localPoint m p)) <=? hw) && (abs (y4 (localPoint m p)) <=? hh).
Proof. reflexivity. Qed.

Lemma TeleportPosition_mix (a b : vec3) (t : Qc) (A B : mat4) :
  TeleportPosition (mix a b t) A B
  = mix (TeleportPosition a A B) (TeleportPosition b A B) t.
Proof.
  rewrite !TeleportPosition_eq.
  generalize (ComputePortalTransform A B). intros T.
  destruct a, b, T as [[] [] [] []]. glm_unfold.
  apply (f_equal3 Vec3); ring.
Qed.

(** The local point of a teleported point, in the target frame, is the
    local point in the source frame, turned half a turn. *)
Lemma localPoint_TeleportPosition (p : vec3) (A B : mat4) :
  affine A -> affine B -> determinant A <> 0 -> determinant B <> 0 ->
  localPoint B (TeleportPosition p A B) = mulMV rotate180Y (localPoint A p).
Proof.
  intros HaA HaB HA HB. unfold localPoint at 1.
  rewrite TeleportPosition_local by assumption.
  apply inverse_mulMV, HB.
Qed.

Lemma IsPointInPortalBounds_TeleportPosition (p : vec3) (A B : mat4) (hw hh : Qc) :
  affine A -> affine B -> determinant A <> 0 -> determinant B <> 0 ->
  IsPointInPortalBounds (TeleportPosition p A B) B hw hh
  = IsPointInPortalBounds p A hw hh.
Proof.
  intros HaA HaB HA HB. rewrite !IsPointInPortalBounds_local.
  rewrite localPoint_TeleportPosition by assumption.
  rewrite mulMV_rotate180Y. cbn [x4 y4]. rewrite abs_opp. reflexivity.
Qed.

Section Teleport.

Variable normalize : vec3 -> vec3.
Variable length : vec3 -> Qc.

(** X12.  A teleport hands the crossing over to the target portal: for
    rigid frames, once [ShouldTeleport] has accepted an entity at the
    source and [TeleportEntity] has carried it through the pair, the
    entity has, with respect to the target, crossed the plane inside
    the same bounds, so that [ShouldTeleport] accepts it at the target
    as soon as the cooldown allows. *)
Theorem TeleportEntity_crosses_target
        (e : TeleportableEntity) (source target : PortalRenderer.Portal)
        (hw hh t t' : Qc) :
  rigid (PortalRenderer.transform source) ->
  rigid (PortalRenderer.transform target) ->
  fst (ShouldTeleport e source hw hh t) = true ->
  let e' := TeleportEntity normalize length (snd (ShouldTeleport e source hw hh t))
                           source target in
  cooldownActive e' t' = false ->
  fst (ShouldTeleport e' target hw hh t') = true.
Proof.
  intros HA HB Hs e' Hc.
  pose proof (rigid_invertible _ HA) as DA. pose proof (rigid_invertible _ HB) as DB.
  destruct (ShouldTeleport_true e source hw hh t Hs) as (Hcool & Hx & Hb).
  assert (Es : snd (ShouldTeleport e source hw hh t)
               = mkEntity (position e) (previousPosition e) (velocity e)
                          (transform e) (isNearPortal e) t).
  { revert Hs. unfold ShouldTeleport.
    destruct (cooldownActive e t); [discriminate |].
    destruct (negb _); [discriminate |].
    destruct (IsPointInPortalBounds _ _ _ _); [reflexivity | discriminate]. }
  unfold ShouldTeleport. rewrite Hc.
  unfold e'. rewrite Es. unfold TeleportEntity. cbn [position previousPosition].
  rewrite !GetSignedDistanceToPortal_TeleportPosition by assumption.
  rewrite crossedPortal_opp, Hx. cbn [negb].
  unfold crossPoint at 1. cbn [position previousPosition].
  rewrite crossing_parameter_opp by (apply crossedPortal_neq, Hx).
  rewrite <- TeleportPosition_mix.
  rewrite IsPointInPortalBounds_TeleportPosition
    by (try apply HA; try apply HB; assumption).
  unfold crossPoint in Hb. rewrite Hb. reflexivity.
Qed.

(** X13.  A teleport returns: for affine invertible frames, carrying
    an entity through the pair and back restores its position, its
    previous position and its transform, and neither teleport touches
    [isNearPortal] or [lastTeleportTime]. *)
Theorem TeleportEntity_round_trip
        (e : TeleportableEntity) (source target : PortalRenderer.Portal) :
  affine (PortalRenderer.transform source) ->
  affine (PortalRenderer.transform target) ->
  determinant (PortalRenderer.transform source) <> 0 ->
  determinant (PortalRenderer.transform target) <> 0 ->
  let e' := TeleportEntity normalize length
              (TeleportEntity normalize length e source target) target source in
  position e' = position e /\
  previousPosition e' = previousPosition e /\
  transform e' = transform e /\
  isNearPortal e' = isNearPortal e /\
  lastTeleportTime e' = lastTeleportTime e.
Proof.
  intros HaA HaB HA HB. cbv zeta. unfold TeleportEntity.
  cbn [position previousPosition transform isNearPortal lastTeleportTime].
  rewrite !TeleportPosition_round_trip_affine by assumption.
  rewrite TeleportMatrix_swap by assumption. auto.
Qed.

(** X14.  The clone test agrees on the two sides of a pair: for rigid
    frames it gives, for the teleported entity at the target, the
    answer it gives for the entity at the source.  With a threshold
    that is not positive it never asks for a clone. *)
Theorem ShouldRenderClone_pair
        (e : TeleportableEntity) (source target : PortalRenderer.Portal)
        (threshold : Qc) :
  rigid (PortalRenderer.transform source) ->
  rigid (PortalRenderer.transform target) ->
  ShouldRenderClone (TeleportEntity normalize length e source target) target threshold
  = ShouldRenderClone e source threshold /\
  (threshold <= 0 -> ShouldRenderClone e source threshold = false).
Proof.
  intros HA HB. unfold ShouldRenderClone, TeleportEntity. cbn [position]. split.
  - rewrite GetSignedDistanceToPortal_TeleportPosition by assumption.
    rewrite abs_opp. reflexivity.
  - intros Ht.
    destruct (abs _ <? threshold) eqn:E; [| reflexivity].
    apply Qcltb_lt in E. exfalso.
    exact (Qclt_not_le _ _ E (Qcle_trans _ _ _ Ht (abs_nonneg _))).
Qed.

End Teleport.

Lemma TeleportEntity_crosses_target_witness :
  let e := mkEntity (Vec3 (dec (-5) 1) (dec 3 2) (- (1))) (Vec3 (dec (-5) 1) (dec 3 2) 1)
                    (Vec3 0 0 0) identity false 0 in
  fst (ShouldTeleport
         (TeleportEntity Scene.normalizeQ Scene.lengthQ
            (snd (ShouldTeleport e Scene.portalA 1 (dec 3 2) 0))
            Scene.portalA Scene.portalB)
         Scene.portalB 1 (dec 3 2) 0) = true.
Proof.
  intros e.
  apply (TeleportEntity_crosses_target Scene.normalizeQ Scene.lengthQ e
           Scene.portalA Scene.portalB 1 (dec 3 2) 0 0).
  - exact (proj1 scene_rigid).
  - exact (proj2 scene_rigid).
  - vm_compute. reflexivity.
  - vm_compute. reflexivity.
Defined.

Lemma TeleportEntity_round_trip_witness :
  position (TeleportEntity Scene.normalizeQ Scene.lengthQ
              (TeleportEntity Scene.normalizeQ Scene.lengthQ (Scene.crossingEntity 0)
                              Scene.portalA Scene.portalB)
              Scene.portalB Scene.portalA)
  = position (Scene.crossingEntity 0).
Proof.
  refine (proj1 (TeleportEntity_round_trip Scene.normalizeQ Scene.lengthQ
                   (Scene.crossingEntity 0) Scene.portalA Scene.portalB _ _ _ _)).
  - apply (proj1 scene_rigid).
  - apply (proj2 scene_rigid).
  - apply rigid_invertible, (proj1 scene_rigid).
  - apply rigid_invertible, (proj2 scene_rigid).
Defined.

Lemma ShouldRenderClone_pair_witness :
  ShouldRenderClone (TeleportEntity Scene.normalizeQ Scene.lengthQ (Scene.crossingEntity 0)
                                    Scene.portalA Scene.portalB)
                    Scene.portalB 1
  = ShouldRenderClone (Scene.crossingEntity 0) Scene.portalA 1.
Proof.
  exact (proj1 (ShouldRenderClone_pair Scene.normalizeQ Scene.lengthQ
                  (Scene.crossingEntity 0) Scene.portalA Scene.portalB 1
                  (proj1 scene_rigid) (proj2 scene_rigid))).
Defined.

Lemma GetSignedDistanceToPortal_flip (p : vec3) (m : mat4) :
  GetSignedDistanceToPortal p (mulMM m rotate180Y) = - GetSignedDistanceToPortal p m.
Proof.
  destruct p, m as [[] [] [] []]. unfold GetSignedDistanceToPortal.
  glm_unfold. ring.
Qed.

Lemma inverse_rotate180Y : inverse rotate180Y = rotate180Y.
Proof. symmetry. apply inverse_unique, rotate180Y_involutive. Qed.

Lemma localPoint_flip (p : vec3) (m : mat4) :
  determinant m <> 0 ->
  localPoint (mulMM m rotate180Y) p = mulMV rotate180Y (localPoint m p).
Proof.
  intros Hm. unfold localPoint. rewrite inverse_mulMM.
  - rewrite inverse_rotate180Y. apply mulMV_assoc.
  - exact Hm.
  - rewrite determinant_rotate180Y. exact one_neq_zero.
Qed.

(** X15.  The teleporter is two-sided: turning an invertible portal
    frame half a turn about its vertical axis, which swaps its front
    and its back, changes neither the answer of [ShouldTeleport] nor
    the entity it leaves. *)
Theorem ShouldTeleport_two_sided
        (e : TeleportableEntity) (portal turned : PortalRenderer.Portal) (hw hh t : Qc) :
  determinant (PortalRenderer.transform portal) <> 0 ->
  PortalRenderer.transform turned = mulMM (PortalRenderer.transform portal) rotate180Y ->
  ShouldTeleport e turned hw hh t = ShouldTeleport e portal hw hh t.
Proof.
  intros Hd Ht. unfold ShouldTeleport. rewrite Ht.
  destruct (cooldownActive e t); [reflexivity |].
  rewrite !GetSignedDistanceToPortal_flip, crossedPortal_opp.
  destruct (crossedPortal _ _) eqn:Hx; [| reflexivity]. cbn [negb].
  unfold crossPoint. rewrite crossing_parameter_opp by (apply crossedPortal_neq, Hx).
  rewrite !IsPointInPortalBounds_local, localPoint_flip by exact Hd.
  rewrite mulMV_rotate180Y. cbn [x4 y4]. rewrite abs_opp. reflexivity.
Qed.

Lemma ShouldTeleport_two_sided_witness :
  ShouldTeleport (Scene.crossingEntity 0)
                 (PortalRenderer.mkPortal rotate180Y (dec 2 1) (dec 2 1) None true) 1 1 0
  = ShouldTeleport (Scene.crossingEntity 0) Scene.originPortal 1 1 0.
Proof.
  apply ShouldTeleport_two_sided.
  - intros E. vm_compute in E. discriminate E.
  - apply mat4_eq; apply vec4_eq; qc_compute.
Defined.

(** X16.  The clone of the clone is the entity: through two portals
    of a registry that are linked to each other and whose frames are
    invertible, [CalculateCloneTransform] at the one and then at the
    other returns the transform.  At a portal without a partner it
    returns the transform as it is. *)
Theorem CalculateCloneTransform_round_trip
        (portals : list PortalRenderer.Portal) (i j : nat)
        (portal partner : PortalRenderer.Portal) (entityTransform : mat4) :
  nth_error portals i = Some portal ->
  nth_error portals j = Some partner ->
  PortalRenderer.linkedPortal portal = Some j ->
  PortalRenderer.linkedPortal partner = Some i ->
  determinant (PortalRenderer.transform portal) <> 0 ->
  determinant (PortalRenderer.transform partner) <> 0 ->
  CalculateCloneTransform portals
    (CalculateCloneTransform portals entityTransform portal) partner
  = entityTransform /\
  forall single, PortalRenderer.linkedPortal single = None ->
                 CalculateCloneTransform portals entityTransform single = entityTransform.
Proof.
  intros Hi Hj Li Lj Di Dj. split.
  - unfold CalculateCloneTransform. rewrite Li, Lj, Hi, Hj.
    apply TeleportMatrix_swap; assumption.
  - intros single H. unfold CalculateCloneTransform. rewrite H. reflexivity.
Qed.

Lemma CalculateCloneTransform_round_trip_witness :
  CalculateCloneTransform Scene.g_Portals
    (CalculateCloneTransform Scene.g_Portals (translate Scene.g_CameraPosition)
                             Scene.portalA)
    Scene.portalB
  = translate Scene.g_CameraPosition.
Proof.
  refine (proj1 (CalculateCloneTransform_round_trip
                   Scene.g_Portals 0 1 Scene.portalA Scene.portalB _
                   eq_refl eq_refl eq_refl eq_refl _ _)).
  - apply rigid_invertible, (proj1 scene_rigid).
  - apply rigid_invertible, (proj2 scene_rigid).
Defined.

End PairFacts.

(** ** The portal mesh *)
Module MeshFacts.
Import Spec GlmFacts LinearFacts PortalMath PortalMathFacts TransformFacts.
Import PortalTeleporter CrossingFacts PairFacts PortalRenderer.

Lemma localPoint_vWorldPos (m : mat4) (a : vec3) :
  affine m -> determinant m <> 0 -> localPoint m (vWorldPos m a) = ext a 1.
Proof.
  intros Ha Hd. unfold localPoint, vWorldPos.
  rewrite ext_xyz by (rewrite affine_mulMV_w by exact Ha; destruct a; reflexivity).
  apply inverse_mulMV, Hd.
Qed.

Lemma half_nonneg (w : Qc) : 0 <= w -> 0 <= w * dec 5 10.
Proof.
  intros H. rewrite <- (Qcmult_0_l (dec 5 10)).
  apply Qcmult_le_compat_r; [exact H | discriminate].
Qed.

Lemma half_eq (w : Qc) : w / dec 2 1 = w * dec 5 10.
Proof.
  unfold Qcdiv. f_equal. qc_compute.
Qed.

(** X17.  The quad of [CreatePortalMesh] is the rectangle of the
    teleporter: for a portal with a rigid frame and a width and a
    height that are not negative, each of the four vertices, placed in
    the world by the vertex shader, lies on the plane of the portal
    and within [IsPointInPortalBounds] for half the width and half the
    height, and so does the position of the portal. *)
Theorem CreatePortalMesh_in_bounds (portal : Portal) (i : nat) :
  rigid (transform portal) -> 0 <= width portal -> 0 <= height portal ->
  (i < 4)%nat ->
  let corner := vWorldPos (transform portal) (aPos (CreatePortalMesh_vertices portal) i) in
  GetSignedDistanceToPortal corner (transform portal) = 0 /\
  IsPointInPortalBounds corner (transform portal)
                        (width portal / dec 2 1) (height portal / dec 2 1) = true /\
  IsPointInPortalBounds (GetPosition portal) (transform portal)
                        (width portal / dec 2 1) (height portal / dec 2 1) = true.
Proof.
  intros (Ha & Ho & Hd3) Hw Hh Hi corner.
  assert (Hd : determinant (transform portal) <> 0)
    by (rewrite (determinant_affine _ Ha), Hd3; exact one_neq_zero).
  pose proof (half_nonneg _ Hw) as Hw'. pose proof (half_nonneg _ Hh) as Hh'.
  rewrite !half_eq.
  assert (Hle : forall a : Qc, 0 <= a -> (abs a <=? a) = true /\ (abs (- a) <=? a) = true).
  { intros a H0. rewrite abs_opp, (abs_of_nonneg a H0).
    split; apply Qcleb_le, Qcle_refl. }
  destruct (Hle _ Hw') as [Hw1 Hw2]. destruct (Hle _ Hh') as [Hh1 Hh2].
  split; [| split].
  - unfold corner, vWorldPos.
    rewrite GetSignedDistanceToPortal_local; [| exact Ho | reflexivity].
    destruct i as [| [| [| [| i]]]]; [| | | | lia]; cbn; ring.
  - rewrite IsPointInPortalBounds_local. unfold corner.
    rewrite localPoint_vWorldPos by assumption.
    destruct i as [| [| [| [| i]]]]; [| | | | lia];
      cbn [aPos CreatePortalMesh_vertices nth Nat.mul Nat.add ext x4 y4 x3 y3 z3];
      rewrite ?Hw1, ?Hw2, ?Hh1, ?Hh2; reflexivity.
  - rewrite IsPointInPortalBounds_local. unfold GetPosition, localPoint.
    rewrite ext_xyz by apply Ha.
    replace (c3 (transform portal)) with (mulMV (transform portal) (Vec4 0 0 0 1)).
    + rewrite inverse_mulMV by exact Hd. cbn [x4 y4].
      assert (A0 : abs 0 = 0) by reflexivity. rewrite A0.
      apply andb_true_iff; split; apply Qcleb_le; assumption.
    + destruct (transform portal) as [[] [] [] []].
      apply vec4_eq; glm_unfold; ring.
Qed.

Lemma CreatePortalMesh_in_bounds_witness :
  IsPointInPortalBounds
    (vWorldPos (transform Scene.portalA)
               (aPos (CreatePortalMesh_vertices Scene.portalA) 2))
    (transform Scene.portalA)
    (width Scene.portalA / dec 2 1) (height Scene.portalA / dec 2 1) = true.
Proof.
  refine (proj1 (proj2 (CreatePortalMesh_in_bounds Scene.portalA 2 _ _ _ _))).
  - exact (proj1 scene_rigid).
  - discriminate.
  - discriminate.
  - lia.
Defined.

End MeshFacts.

(** ** The player of main_example.cpp *)
Module PlayerFacts.
Import Spec PortalRenderer PortalTeleporter PortalTeleporterFacts CrossingFacts Player.

(** A refused call leaves the entity as it is; an accepted one changes
    the time of the last teleport only. *)
Lemma ShouldTeleport_false (e : TeleportableEntity) (portal : Portal) (hw hh t : Qc) :
  fst (ShouldTeleport e portal hw hh t) = false ->
  snd (ShouldTeleport e portal hw hh t) = e.
Proof.
  unfold ShouldTeleport.
  destruct (cooldownActive e t); [reflexivity |].
  destruct (negb _); [reflexivity |].
  destruct (IsPointInPortalBounds _ _ _ _); [discriminate | reflexivity].
Qed.

Lemma ShouldTeleport_keeps (e : TeleportableEntity) (portal : Portal) (hw hh t : Qc) :
  let e' := snd (ShouldTeleport e portal hw hh t) in
  position e' = position e /\ previousPosition e' = previousPosition e /\
  (lastTeleportTime e' = lastTeleportTime e \/ lastTeleportTime e' = t).
Proof.
  unfold ShouldTeleport.
  destruct (cooldownActive e t); [cbn; auto |].
  destruct (negb _); [cbn; auto |].
  destruct (IsPointInPortalBounds _ _ _ _); cbn; auto.
Qed.

Section Update.

Variable normalize : vec3 -> vec3.
Variable length : vec3 -> Qc.
Variables cosDegrees sinDegrees asinDegrees : Qc -> Qc.
Variable atan2Degrees : Qc -> Qc -> Qc.
Variable g_Portals : list Portal.

Local Abbreviation UpdatePlayer_loop :=
  (UpdatePlayer_loop normalize length cosDegrees sinDegrees asinDegrees
                     atan2Degrees g_Portals).
Local Abbreviation UpdatePlayer :=
  (UpdatePlayer normalize length cosDegrees sinDegrees asinDegrees
                atan2Degrees g_Portals).
Local Abbreviation teleportPlayer :=
  (teleportPlayer normalize length cosDegrees sinDegrees asinDegrees atan2Degrees).

Lemma Globals_eta (g : Globals) :
  mkGlobals (g_Player g) (g_CameraPosition g) (g_CameraYaw g) (g_CameraPitch g) = g.
Proof. destruct g; reflexivity. Qed.

(** The loop changes nothing when every test is refused. *)
Lemma UpdatePlayer_loop_refused (portals : list Portal) (t : Qc) (g : Globals) :
  (forall portal, In portal portals ->
     isActive portal = true -> linkedPortal portal <> None ->
     ShouldTeleport (g_Player g) portal (Scene.PORTAL_WIDTH / dec 2 1)
                    (Scene.PORTAL_HEIGHT / dec 2 1) t = (false, g_Player g)) ->
  UpdatePlayer_loop portals t g = g.
Proof.
  induction portals as [| portal rest IH]; intros H; [reflexivity |].
  cbn [Player.UpdatePlayer_loop].
  assert (IH' : UpdatePlayer_loop rest t g = g)
    by (apply IH; intros p Hp; apply H; right; exact Hp).
  destruct (linkedPortal portal) as [linked |] eqn:L; [| exact IH'].
  destruct (isActive portal) eqn:A; cbn [negb]; [| exact IH'].
  rewrite (H portal (or_introl eq_refl) A) by (rewrite L; discriminate).
  rewrite Globals_eta. exact IH'.
Qed.

(** X18.  No teleport for a player at rest or in the cooldown: when
    the camera has not moved since the last update, or when the time
    is positive and less than 0.3 s after the last teleport,
    [UpdatePlayer] records the positions and changes nothing else,
    whatever the portals. *)
Theorem UpdatePlayer_stays (deltaTime currentTime : Qc) (g : Globals) :
  g_CameraPosition g = position (g_Player g) \/
  (0 < currentTime /\
   currentTime - lastTeleportTime (g_Player g) < TELEPORT_COOLDOWN) ->
  UpdatePlayer deltaTime currentTime g
  = mkGlobals (mkEntity (g_CameraPosition g) (position (g_Player g))
                        (velocity (g_Player g)) (transform (g_Player g))
                        (isNearPortal (g_Player g)) (lastTeleportTime (g_Player g)))
              (g_CameraPosition g) (g_CameraYaw g) (g_CameraPitch g).
Proof.
  intros H. unfold Player.UpdatePlayer. apply UpdatePlayer_loop_refused.
  intros portal _ _ _. cbn [g_Player]. destruct H as [H | [H0 H1]].
  - apply ShouldTeleport_no_crossing. left. cbn [position previousPosition]. exact H.
  - apply cooldown_suppresses; assumption.
Qed.

Lemma UpdatePlayer_loop_follows (portals : list Portal) (t : Qc) (g : Globals) :
  g_CameraPosition g = position (g_Player g) ->
  g_CameraPosition (UpdatePlayer_loop portals t g)
  = position (g_Player (UpdatePlayer_loop portals t g)).
Proof.
  revert g. induction portals as [| portal rest IH]; intros g H; [exact H |].
  cbn [Player.UpdatePlayer_loop].
  destruct (linkedPortal portal) as [linked |]; [| apply IH, H].
  destruct (isActive portal); cbn [negb]; [| apply IH, H].
  pose proof (ShouldTeleport_keeps (g_Player g) portal (Scene.PORTAL_WIDTH / dec 2 1)
                                   (Scene.PORTAL_HEIGHT / dec 2 1) t) as (Kp & _ & _).
  destruct (ShouldTeleport _ _ _ _ _) as [hit player]. cbn [snd] in Kp.
  destruct hit.
  - destruct (nth_error g_Portals linked); [reflexivity |].
    cbn [g_CameraPosition g_Player]. rewrite Kp. exact H.
  - apply IH. cbn [g_CameraPosition g_Player]. rewrite Kp. exact H.
Qed.

(** X19.  The camera and the player stay together: after every call
    of [UpdatePlayer], with or without a teleport, the camera position
    is the position of the player. *)
Theorem UpdatePlayer_camera_follows (deltaTime currentTime : Qc) (g : Globals) :
  g_CameraPosition (UpdatePlayer deltaTime currentTime g)
  = position (g_Player (UpdatePlayer deltaTime currentTime g)).
Proof. unfold Player.UpdatePlayer. apply UpdatePlayer_loop_follows. reflexivity. Qed.

Lemma UpdatePlayer_loop_first (pre rest : list Portal) (portal partner : Portal)
      (j : nat) (t : Qc) (g : Globals) :
  (forall p, In p pre ->
     isActive p = false \/ linkedPortal p = None \/
     fst (ShouldTeleport (g_Player g) p (Scene.PORTAL_WIDTH / dec 2 1)
                         (Scene.PORTAL_HEIGHT / dec 2 1) t) = false) ->
  isActive portal = true -> linkedPortal portal = Some j ->
  nth_error g_Portals j = Some partner ->
  fst (ShouldTeleport (g_Player g) portal (Scene.PORTAL_WIDTH / dec 2 1)
                      (Scene.PORTAL_HEIGHT / dec 2 1) t) = true ->
  UpdatePlayer_loop (pre ++ portal :: rest) t g
  = teleportPlayer
      (mkGlobals (snd (ShouldTeleport (g_Player g) portal (Scene.PORTAL_WIDTH / dec 2 1)
                                      (Scene.PORTAL_HEIGHT / dec 2 1) t))
                 (g_CameraPosition g) (g_CameraYaw g) (g_CameraPitch g))
      portal partner.
Proof.
  intros Hpre A L Hj Hit. induction pre as [| p pre IH].
  - cbn [app Player.UpdatePlayer_loop]. rewrite L, A. cbn [negb].
    destruct (ShouldTeleport _ _ _ _ _) as [hit player]. cbn [fst snd] in *.
    subst hit. rewrite Hj. reflexivity.
  - cbn [app Player.UpdatePlayer_loop].
    assert (IH' := IH (fun q Hq => Hpre q (or_intror Hq))).
    destruct (Hpre p (or_introl eq_refl)) as [Hp | [Hp | Hp]].
    + rewrite Hp. destruct (linkedPortal p); exact IH'.
    + rewrite Hp. exact IH'.
    + destruct (linkedPortal p); [| exact IH'].
      destruct (isActive p); cbn [negb]; [| exact IH'].
      pose proof (ShouldTeleport_false _ _ _ _ _ Hp) as Hs.
      destruct (ShouldTeleport (g_Player g) p _ _ _) as [hit player].
      cbn [fst snd] in *. subst hit player. rewrite Globals_eta. exact IH'.
Qed.

End Update.

(** X20.  The first portal takes the player: when the portals are
    [pre ++ portal :: rest], no portal of [pre] is active, linked and
    accepted by [ShouldTeleport], and [portal] is, [UpdatePlayer]
    teleports the player through [portal] to its partner, with the
    time stamped, and does not consult [rest]. *)
Theorem UpdatePlayer_first_portal
        (normalize : vec3 -> vec3) (length : vec3 -> Qc)
        (cosDegrees sinDegrees asinDegrees : Qc -> Qc) (atan2Degrees : Qc -> Qc -> Qc)
        (pre rest : list Portal) (portal partner : Portal) (j : nat)
        (deltaTime currentTime : Qc) (g : Globals) :
  let g_Portals := pre ++ portal :: rest in
  let player :=
    mkEntity (g_CameraPosition g) (position (g_Player g)) (velocity (g_Player g))
             (transform (g_Player g)) (isNearPortal (g_Player g))
             (lastTeleportTime (g_Player g)) in
  let test p :=
    ShouldTeleport player p (Scene.PORTAL_WIDTH / dec 2 1)
                   (Scene.PORTAL_HEIGHT / dec 2 1) currentTime in
  (forall p, In p pre ->
     isActive p = false \/ linkedPortal p = None \/ fst (test p) = false) ->
  isActive portal = true -> linkedPortal portal = Some j ->
  nth_error g_Portals j = Some partner ->
  fst (test portal) = true ->
  UpdatePlayer normalize length cosDegrees sinDegrees asinDegrees atan2Degrees
               g_Portals deltaTime currentTime g
  = teleportPlayer normalize length cosDegrees sinDegrees asinDegrees atan2Degrees
      (mkGlobals (snd (test portal)) (g_CameraPosition g) (g_CameraYaw g)
                 (g_CameraPitch g))
      portal partner /\
  lastTeleportTime
    (g_Player (UpdatePlayer normalize length cosDegrees sinDegrees asinDegrees
                            atan2Degrees g_Portals deltaTime currentTime g))
  = currentTime.
Proof.
  intros g_Portals player test Hpre A L Hj Hit.
  assert (E : UpdatePlayer normalize length cosDegrees sinDegrees asinDegrees atan2Degrees
                g_Portals deltaTime currentTime g
              = teleportPlayer normalize length cosDegrees sinDegrees asinDegrees
                  atan2Degrees
                  (mkGlobals (snd (test portal)) (g_CameraPosition g) (g_CameraYaw g)
                             (g_CameraPitch g))
                  portal partner).
  { unfold UpdatePlayer. fold player.
    exact (UpdatePlayer_loop_first normalize length cosDegrees sinDegrees asinDegrees
             atan2Degrees g_Portals pre rest portal partner j currentTime
             (mkGlobals player (g_CameraPosition g) (g_CameraYaw g) (g_CameraPitch g))
             Hpre A L Hj Hit). }
  split; [exact E |]. rewrite E.
  unfold teleportPlayer, TeleportEntity. cbn [g_Player lastTeleportTime].
  apply ShouldTeleport_stamps, Hit.
Qed.

Lemma UpdatePlayer_stays_witness :
  UpdatePlayer Scene.normalizeQ Scene.lengthQ (fun _ => 0) (fun _ => 0) (fun _ => 0)
               (fun _ _ => 0) Scene.g_Portals (dec 1 60) 0 (SetupPlayer initialGlobals)
  = SetupPlayer initialGlobals.
Proof.
  apply (UpdatePlayer_stays Scene.normalizeQ Scene.lengthQ (fun _ => 0) (fun _ => 0)
           (fun _ => 0) (fun _ _ => 0) Scene.g_Portals (dec 1 60) 0
           (SetupPlayer initialGlobals)).
  left. reflexivity.
Defined.

Lemma UpdatePlayer_first_portal_witness :
  let g := mkGlobals (mkEntity (Vec3 (dec (-5) 1) (dec 3 2) 1) (Vec3 (dec (-5) 1) (dec 3 2) 1)
                               (Vec3 0 0 0) identity false 0)
                     (Vec3 (dec (-5) 1) (dec 3 2) (- (1))) (dec (-90) 1) 0 in
  lastTeleportTime
    (g_Player (UpdatePlayer Scene.normalizeQ Scene.lengthQ (fun _ => 0) (fun _ => 0)
                            (fun _ => 0) (fun _ _ => 0)
                            ([] ++ Scene.portalA :: [Scene.portalB]) (dec 1 60) 1 g))
  = 1.
Proof.
  intros g.
  refine (proj2 (UpdatePlayer_first_portal
                   Scene.normalizeQ Scene.lengthQ (fun _ => 0) (fun _ => 0) (fun _ => 0)
                   (fun _ _ => 0) [] [Scene.portalB] Scene.portalA Scene.portalB 1
                   (dec 1 60) 1 g _ eq_refl eq_refl eq_refl _)).
  - intros p [].
  - vm_compute. reflexivity.
Defined.

End PlayerFacts.

(** ** The stencil tags of main_example.cpp *)
Module StencilTagFacts.
Import GL PortalRenderer MainExample TraceFacts MainExampleFacts CrossingFacts.

Lemma tags_app (t u : Trace) : tags (t ++ u) = tags t ++ tags u.
Proof. unfold tags. apply flat_map_app. Qed.

(** A loop over [v] from [i], with the index in range. *)
Lemma forEachFrom_forallb_range {A : Type} (P : Event -> bool) (v : list A)
      (body : nat -> A -> Trace) (i : nat) :
  (forall j a, (i <= j < i + List.length v)%nat -> forallb P (body j a) = true) ->
  forallb P (forEachFrom i v body) = true.
Proof.
  revert i. induction v as [| a v IH]; intros i H; [reflexivity |].
  cbn [forEachFrom]. rewrite forallb_app, H, IH; [reflexivity | | cbn [List.length]; lia].
  intros j b Hj. apply H. cbn [List.length]. lia.
Qed.

(** The tags of a loop whose iteration [j] starts at most one
    traversal, with the tag [s + j + 1]: they are distinct and above
    [s + i]. *)
Lemma forEachFrom_tags {A : Type} (s : Z) (v : list A) (body : nat -> A -> Trace) (i : nat) :
  (forall j a, tags (body j a) = [] \/ tags (body j a) = [(s + Z.of_nat j + 1)%Z]) ->
  NoDup (tags (forEachFrom i v body)) /\
  forall x, In x (tags (forEachFrom i v body)) -> (s + Z.of_nat i < x)%Z.
Proof.
  intros H. revert i. induction v as [| a v IH]; intros i.
  - split; [constructor | intros x []].
  - cbn [forEachFrom]. rewrite tags_app. destruct (IH (S i)) as [Hnd Hlt].
    destruct (H i a) as [-> | ->]; cbn [app].
    + split; [exact Hnd |]. intros x Hx. specialize (Hlt x Hx). lia.
    + split.
      * constructor; [| exact Hnd]. intros Hin. specialize (Hlt _ Hin). lia.
      * intros x [<- | Hx]; [lia |]. specialize (Hlt x Hx). lia.
Qed.

Section Walk.

Variable normalize : vec3 -> vec3.
Variable length : vec3 -> Qc.
Variable g_Portals : list Portal.

Lemma RenderPortalFramesExcluding_tagsWithin (parent limit : Z) viewMatrix projectionMatrix
      time excludePortal :
  forallb (tagsWithin parent limit)
          (RenderPortalFramesExcluding g_Portals viewMatrix projectionMatrix time excludePortal)
  = true.
Proof.
  unfold RenderPortalFramesExcluding, forEach.
  rewrite !forallb_app, forEachFrom_forallb; [reflexivity |].
  intros j a. destruct (isExcluded g_Portals excludePortal j); reflexivity.
Qed.

(** Inside a traversal, the walk it starts gets the tag of the
    traversal as its parent tag. *)
Lemma RenderPortalContent_tagsWithin
      (rec : mat4 -> mat4 -> vec3 -> vec3 -> Z -> Z -> Qc -> option nat -> Trace)
      (limit : Z) (portal : nat) (viewMatrix projectionMatrix : mat4) (cameraPos : vec3)
      (recursionLevel stencilValue : Z) (currentTime : Qc) (viewingSide : Z) :
  (forall v p c f t e,
      forallb (tagsWithin stencilValue limit)
              (rec v p c f (recursionLevel + 1)%Z stencilValue t e) = true) ->
  forallb (tagsWithin stencilValue limit)
    (RenderPortalContent normalize g_Portals rec portal viewMatrix projectionMatrix cameraPos
                         recursionLevel stencilValue currentTime viewingSide) = true.
Proof.
  intros H. unfold RenderPortalContent.
  destruct (nth_error g_Portals portal) as [this |]; [| reflexivity].
  destruct (linkedPortal this) as [linked |]; [| reflexivity].
  destruct (nth_error g_Portals linked) as [destPortal |]; [| reflexivity].
  match goal with
  | |- context [Call (FRenderPortalsRecursive _ _ _ _ _) ?r] =>
      assert (Hr : forallb (tagsWithin stencilValue limit) r = true) by apply H;
      set (walk := r) in *; clearbody walk
  end.
  match goal with
  | |- context [Call (FRenderPortalFramesExcluding _ _ _) ?fr] =>
      assert (Hfr : forallb (tagsWithin stencilValue limit) fr = true)
        by apply RenderPortalFramesExcluding_tagsWithin;
      set (frames := fr) in *; clearbody frames
  end.
  destruct (chooseClipStrategy _ _);
    cbn [applyClipStrategy drawPortalSurface RenderSkybox RenderScene
         forallb tagsWithin app andb];
    rewrite ?Hfr, ?Hr; reflexivity.
Qed.

Lemma RenderPortalsRecursive_fuel_tagsWithin (fuel : nat) :
  forall viewMatrix projectionMatrix cameraPos cameraForward recursionLevel stencilValue
         currentTime excludePortal limit,
    ((recursionLevel < MAX_PORTAL_RECURSION)%Z ->
     (stencilValue + (MAX_PORTAL_RECURSION - recursionLevel)
                     * Z.of_nat (List.length g_Portals) <= limit)%Z) ->
    forallb (tagsWithin stencilValue limit)
      (RenderPortalsRecursive_fuel normalize length g_Portals fuel viewMatrix projectionMatrix
         cameraPos cameraForward recursionLevel stencilValue currentTime excludePortal) = true.
Proof.
  induction fuel as [| fuel IH]; intros v p c f l s t e limit Hlim; [reflexivity |].
  cbn [RenderPortalsRecursive_fuel].
  destruct (Z.leb_spec MAX_PORTAL_RECURSION l) as [Hmax | Hmax]; [reflexivity |].
  specialize (Hlim Hmax).
  apply forEachFrom_forallb_range. intros i portal Hi.
  destruct (negb (isActive portal) || _); [reflexivity |].
  destruct (isExcluded g_Portals e i); [reflexivity |].
  destruct (negb (IsPortalVisible length portal _ f)); [reflexivity |].
  cbn [forallb tagsWithin].
  assert (Hup : (s + Z.of_nat i + 1 <= limit)%Z) by nia.
  rewrite (proj2 (Z.ltb_lt s (s + Z.of_nat i + 1)) ltac:(lia)).
  rewrite (proj2 (Z.leb_le _ _) Hup).
  rewrite RenderPortalContent_tagsWithin; [reflexivity |].
  intros. apply IH. intros Hl. nia.
Qed.

Lemma RenderPortalsRecursive_fuel_tags (fuel : nat) viewMatrix projectionMatrix cameraPos
      cameraForward recursionLevel stencilValue currentTime excludePortal :
  NoDup (tags (RenderPortalsRecursive_fuel normalize length g_Portals fuel viewMatrix
                 projectionMatrix cameraPos cameraForward recursionLevel stencilValue
                 currentTime excludePortal)).
Proof.
  destruct fuel as [| fuel]; [constructor |].
  cbn [RenderPortalsRecursive_fuel].
  destruct (MAX_PORTAL_RECURSION <=? recursionLevel)%Z; [constructor |].
  apply (forEachFrom_tags stencilValue). intros j portal.
  destruct (negb (isActive portal) || _); [left; reflexivity |].
  destruct (isExcluded g_Portals excludePortal j); [left; reflexivity |].
  destruct (negb (IsPortalVisible length portal _ cameraForward)); [left; reflexivity |].
  right. reflexivity.
Qed.

(** X21.  The stencil tags of a walk: every traversal, at every depth,
    carries a tag above the tag of the traversal that contains it (the
    stencil value of the walk, for those of its first level) and at most
    the stencil value of the walk plus the number of portals times
    the number of levels left; the traversals that a walk starts itself
    carry pairwise distinct tags. *)
Theorem RenderPortalsRecursive_tags viewMatrix projectionMatrix cameraPos cameraForward
        recursionLevel stencilValue currentTime excludePortal :
  let walk :=
    RenderPortalsRecursive normalize length g_Portals viewMatrix projectionMatrix
      cameraPos cameraForward recursionLevel stencilValue currentTime excludePortal in
  forallb (tagsWithin stencilValue
             (stencilValue + (MAX_PORTAL_RECURSION - recursionLevel)
                             * Z.of_nat (List.length g_Portals))) walk = true /\
  NoDup (tags walk).
Proof.
  split.
  - apply RenderPortalsRecursive_fuel_tagsWithin. intros _. apply Z.le_refl.
  - apply RenderPortalsRecursive_fuel_tags.
Qed.

(** X22.  The tags fit the stencil buffer: with at most 63 portals, no
    traversal of a frame, whose walk starts at level 0 with the stencil
    value 0, carries a tag outside 1 .. 255, the values that eight bits
    of stencil and the mask [0xFF] tell apart. *)
Theorem RenderPortalsRecursive_tags_fit viewMatrix projectionMatrix cameraPos cameraForward
        currentTime :
  (List.length g_Portals <= 63)%nat ->
  forallb (tagsWithin 0 255)
    (RenderPortalsRecursive normalize length g_Portals viewMatrix projectionMatrix
       cameraPos cameraForward 0 0 currentTime None) = true.
Proof.
  intros Hn. apply RenderPortalsRecursive_fuel_tagsWithin. intros _.
  unfold MAX_PORTAL_RECURSION. lia.
Qed.

End Walk.

Lemma RenderPortalsRecursive_tags_fit_witness :
  forallb (tagsWithin 0 255)
    (RenderPortalsRecursive Scene.normalizeQ Scene.lengthQ Scene.g_Portals
       Scene.viewMatrix Scene.projectionMatrix Scene.g_CameraPosition Scene.front
       0 0 0 None) = true.
Proof.
  apply RenderPortalsRecursive_tags_fit. cbn. lia.
Defined.

(** X23.  The front of the renderer is the back of the teleporter:
    [GetPortalViewingSide] answers 1, the front, exactly where
    [PortalMath::GetSignedDistanceToPortal] is negative, and -1
    elsewhere. *)
Theorem GetPortalViewingSide_signed_distance (portal : Portal) (cameraPos : vec3) :
  (GetPortalViewingSide portal cameraPos = 1%Z <->
   PortalMath.GetSignedDistanceToPortal cameraPos (transform portal) < 0) /\
  (GetPortalViewingSide portal cameraPos = (-1)%Z <->
   0 <= PortalMath.GetSignedDistanceToPortal cameraPos (transform portal)).
Proof.
  unfold GetPortalViewingSide.
  assert (E : dot3 (sub3 cameraPos (xyz (c3 (transform portal))))
                   (xyz (mulMV (transform portal) (Vec4 0 0 1 0)))
              = - PortalMath.GetSignedDistanceToPortal cameraPos (transform portal)).
  { destruct cameraPos, (transform portal) as [[] [] [] []].
    unfold PortalMath.GetSignedDistanceToPortal.
    cbv beta iota zeta delta [mulMV dot3 scale4 add4 neg3 sub3 xyz
                              x3 y3 z3 x4 y4 z4 w4 c0 c1 c2 c3].
    ring. }
  rewrite E. rewrite Qcltb_opp_pos.
  destruct (_ <? 0) eqn:H.
  - apply Qcltb_lt in H. split; split; try discriminate; auto.
    intros H'. destruct (Qclt_not_le _ _ H H').
  - split; split; try discriminate; auto.
    + intros H'. apply Qcltb_lt in H'. congruence.
    + intros _. apply Qcnot_lt_le. intros H'. apply Qcltb_lt in H'. congruence.
Qed.

End StencilTagFacts.

(** ** The state of the context during a frame of main_example.cpp *)
Module GLStateFacts.
Import GL GLState PortalRenderer MainExample TraceFacts MainExampleFacts.

Lemma run_Call (f : Callee) (body : Trace) (s : State) :
  run (Call f body) s = runTrace body s.
Proof. reflexivity. Qed.

Lemma runTrace_cons (e : Event) (t : Trace) (s : State) :
  runTrace (e :: t) s = runTrace t (run e s).
Proof. reflexivity. Qed.

Lemma runTrace_app (t u : Trace) (s : State) :
  runTrace (t ++ u) s = runTrace u (runTrace t s).
Proof. unfold runTrace. apply fold_left_app. Qed.

Lemma draws_Step (around : option (Z * Z)) (inStep : option StepName)
      (n : StepName) (body : Trace) (s : State) :
  draws around inStep (Step n body) s = drawsIn around (Some n) body s.
Proof.
  cbn [draws]. revert s. induction body as [| e t IH]; intros s; [reflexivity |].
  cbn [drawsIn]. rewrite <- IH. reflexivity.
Qed.

Lemma draws_Call (around : option (Z * Z)) (inStep : option StepName)
      (f : Callee) (body : Trace) (s : State) :
  draws around inStep (Call f body) s = drawsIn (traversalOf f around) inStep body s.
Proof.
  cbn [draws]. revert s. induction body as [| e t IH]; intros s; [reflexivity |].
  cbn [drawsIn]. rewrite <- IH. reflexivity.
Qed.

Lemma drawsIn_app (around : option (Z * Z)) (inStep : option StepName)
      (t u : Trace) (s : State) :
  drawsIn around inStep (t ++ u) s
  = drawsIn around inStep t s ++ drawsIn around inStep u (runTrace t s).
Proof.
  revert s. induction t as [| e t IH]; intros s; [reflexivity |].
  cbn [app drawsIn]. rewrite IH, <- app_assoc. reflexivity.
Qed.

(** A loop keeps what each of its iterations keeps. *)
Lemma forEachFrom_runTrace {A : Type} (I : State -> Prop) (v : list A)
      (body : nat -> A -> Trace) (i : nat) (s : State) :
  (forall j a s', I s' -> I (runTrace (body j a) s')) ->
  I s -> I (runTrace (forEachFrom i v body) s).
Proof.
  intros H. revert i s. induction v as [| a v IH]; intros i s Hs; [exact Hs |].
  cbn [forEachFrom]. rewrite runTrace_app. apply IH, H, Hs.
Qed.

Lemma forEachFrom_drawsIn {A : Type} (P : Draw -> Prop) (v : list A)
      (body : nat -> A -> Trace) (i : nat)
      (around : option (Z * Z)) (inStep : option StepName) (s : State) :
  (forall j a s', Forall P (drawsIn around inStep (body j a) s')) ->
  Forall P (drawsIn around inStep (forEachFrom i v body) s).
Proof.
  intros H. revert i s. induction v as [| a v IH]; intros i s; [constructor |].
  cbn [forEachFrom]. rewrite drawsIn_app. apply Forall_app. split; [apply H | apply IH].
Qed.

Lemma forEachFrom_draws_inv {A : Type} (I : State -> Prop) (P : Draw -> Prop) (v : list A)
      (body : nat -> A -> Trace) (i : nat)
      (around : option (Z * Z)) (inStep : option StepName) (s : State) :
  (forall j a s', I s' -> Forall P (drawsIn around inStep (body j a) s') /\
                          I (runTrace (body j a) s')) ->
  I s ->
  Forall P (drawsIn around inStep (forEachFrom i v body) s) /\
  I (runTrace (forEachFrom i v body) s).
Proof.
  intros H. revert i s. induction v as [| a v IH]; intros i s Hs.
  - split; [constructor | exact Hs].
  - cbn [forEachFrom]. rewrite drawsIn_app, runTrace_app.
    destruct (H i a s Hs) as [H1 H2]. destruct (IH (S i) _ H2) as [H3 H4].
    split; [apply Forall_app; split; assumption | exact H4].
Qed.

(** *** The stencil update *)

Lemma writeMasked_same (mask stored : Z) : writeMasked mask stored stored = stored.
Proof.
  unfold writeMasked. apply Z.bits_inj'. intros n Hn.
  rewrite Z.lor_spec, !Z.land_spec, Z.lnot_spec by exact Hn.
  destruct (Z.testbit stored n), (Z.testbit mask n); reflexivity.
Qed.

Lemma writeMasked_0 (value stored : Z) : writeMasked 0 value stored = stored.
Proof.
  unfold writeMasked. apply Z.bits_inj'. intros n Hn.
  rewrite Z.lor_spec, !Z.land_spec, Z.lnot_spec, Z.bits_0 by exact Hn.
  destruct (Z.testbit stored n), (Z.testbit value n); reflexivity.
Qed.

Lemma writeMasked_equal (mask ref stored : Z) :
  Z.land ref mask = Z.land stored mask -> writeMasked mask ref stored = stored.
Proof.
  intros H. unfold writeMasked. rewrite H. apply writeMasked_same.
Qed.

(** Nothing is written under a write mask of zero. *)
Lemma stencilAfterFragment_masked (s : State) (d : bool) (stored : Z) :
  stencilWritemask s = 0%Z -> stencilAfterFragment s d stored = stored.
Proof.
  intros H. unfold stencilAfterFragment. rewrite H.
  destruct (stencilTest s); [| reflexivity].
  destruct (stencilFunc s) as [[func ref] mask], (stencilOp s) as [[sfail dpfail] dppass].
  apply writeMasked_0.
Qed.

(** A fragment that passes [GL_EQUAL] against the reference under the
    write mask, and replaces the value by the reference, writes what
    is there. *)
Lemma stencilAfterFragment_replace_equal (s : State) (d : bool) (stored ref mask : Z) :
  stencilFunc s = (GL_EQUAL, ref, mask) ->
  stencilOp s = (GL_KEEP, GL_KEEP, GL_REPLACE) ->
  stencilWritemask s = mask ->
  stencilAfterFragment s d stored = stored.
Proof.
  intros Hf Ho Hm. unfold stencilAfterFragment. rewrite Hf, Ho, Hm.
  destruct (stencilTest s); [| reflexivity]. cbn [stencilPasses].
  destruct (Z.eqb_spec (Z.land ref mask) (Z.land stored mask)) as [E | E].
  - destruct d; cbn [applyStencilAction].
    + apply writeMasked_equal, E.
    + apply writeMasked_same.
  - apply writeMasked_same.
Qed.

Lemma land_255 (x : Z) : (0 <= x <= 255)%Z -> Z.land x 255 = x.
Proof.
  intros H. change 255%Z with (Z.ones 8). rewrite Z.land_ones by lia.
  apply Z.mod_small. lia.
Qed.

Lemma writeMasked_255 (value stored : Z) :
  (0 <= value <= 255)%Z -> (0 <= stored <= 255)%Z -> writeMasked 255 value stored = value.
Proof.
  intros Hv Hs. unfold writeMasked. rewrite (land_255 value Hv).
  change 255%Z with (Z.ones 8).
  replace (Z.land stored (Z.lnot (Z.ones 8))) with 0%Z; [apply Z.lor_0_r |].
  symmetry. change (Z.ldiff stored (Z.ones 8) = 0%Z).
  rewrite Z.ldiff_ones_r by lia.
  rewrite Z.shiftr_div_pow2 by lia. rewrite Z.div_small by lia. reflexivity.
Qed.

End GLStateFacts.

(** ** The stencil discipline of main_example.cpp *)
Module StencilFacts.
Import GL GLState PortalRenderer MainExample TraceFacts MainExampleFacts GLStateFacts.

Lemma Forall_drawsIn_cons (P : Draw -> Prop) (around : option (Z * Z))
      (inStep : option StepName) (e : Event) (t : Trace) (s : State) :
  Forall P (draws around inStep e s) ->
  Forall P (drawsIn around inStep t (run e s)) ->
  Forall P (drawsIn around inStep (e :: t) s).
Proof. intros H1 H2. cbn [drawsIn]. apply Forall_app. split; assumption. Qed.

(** The evaluation of the state through the commands of a trace. *)
Ltac eval_state :=
  cbn [runTrace run exec setCapability fold_left app
       drawPortalSurface RenderSkybox RenderScene applyClipStrategy
       stencilTest cullFace stencilFunc stencilOp stencilWritemask colorWritemask
       depthWritemask depthFunc depthRange stencilClearValue currentProgram
       vertexArrayBinding traversal step state].

Section Walk.

Variable normalize : vec3 -> vec3.
Variable length : vec3 -> Qc.
Variable g_Portals : list Portal.

(** The frames are drawn in the stencil state in which the loop is
    entered. *)
Lemma RenderPortalFramesExcluding_draws (around : option (Z * Z)) (inStep : option StepName)
      viewMatrix projectionMatrix time excludePortal (s : State) :
  Forall (fun d => traversal d = around /\ step d = inStep /\
                   stencilTest (state d) = stencilTest s /\
                   stencilFunc (state d) = stencilFunc s /\
                   stencilOp (state d) = stencilOp s /\
                   stencilWritemask (state d) = stencilWritemask s)
         (drawsIn around inStep
            (RenderPortalFramesExcluding g_Portals viewMatrix projectionMatrix time
                                         excludePortal) s).
Proof.
  unfold RenderPortalFramesExcluding, forEach.
  rewrite !drawsIn_app.
  apply Forall_app; split; [cbn [drawsIn draws app]; constructor |].
  apply Forall_app; split; [| cbn [drawsIn draws app]; constructor].
  apply (forEachFrom_draws_inv
           (fun s' => stencilTest s' = stencilTest s /\ stencilFunc s' = stencilFunc s /\
                      stencilOp s' = stencilOp s /\
                      stencilWritemask s' = stencilWritemask s)).
  - intros j a s' E. destruct (isExcluded _ excludePortal j).
    + split; [constructor | exact E].
    + cbn [drawsIn draws app]. eval_state. split; [| exact E].
      constructor; [| constructor]. cbn [traversal step state]. tauto.
  - eval_state. tauto.
Qed.

Ltac solve_draw :=
  split;
  [ unfold stencilWrites; cbn [traversal step state Z.eqb];
    first
      [ intros d stored; apply stencilAfterFragment_masked; reflexivity
      | intros d stored;
        eapply (stencilAfterFragment_replace_equal _ d stored _ 255%Z); reflexivity
      | intros Htag stored Hstored; unfold stencilAfterFragment; eval_state;
        cbn [stencilPasses applyStencilAction];
        split; [apply writeMasked_255; assumption | apply writeMasked_same] ]
  | unfold confined; cbn [traversal step state];
    first
      [ exact I
      | unfold confinedTo; eval_state; rewrite Z.eqb_refl; reflexivity ] ].

Ltac solve_frames Hfr :=
  cbn [traversalOf];
  eapply Forall_impl; [| apply Hfr];
  let d := fresh "d" in
  intros d (Ht & Hs & H1 & H2 & H3 & H4);
  unfold stencilWrites, confined, confinedTo, keepsStencil;
  rewrite Ht, Hs, H1, H2, H4; eval_state;
  split; [intros dp stored; apply stencilAfterFragment_masked; rewrite H4; reflexivity
         | rewrite Z.eqb_refl; reflexivity].

Ltac step_draws walk Hw frames Hfr :=
  repeat lazymatch goal with
  | |- Forall _ (drawsIn _ _ [] _) => constructor
  | |- Forall _ (drawsIn _ _ (_ :: _) _) => apply Forall_drawsIn_cons
  | |- Forall _ (draws _ _ (Step _ _) _) => rewrite draws_Step
  | |- Forall _ (draws _ _ (Call _ walk) _) => rewrite draws_Call; apply Hw
  | |- Forall _ (draws _ _ (Call _ frames) _) => rewrite draws_Call; solve_frames Hfr
  | |- Forall _ (draws _ _ (Call _ _) _) =>
      rewrite draws_Call; cbn [traversalOf];
      cbv beta zeta delta [RenderSkybox RenderScene]
  | |- Forall _ (draws _ _ (Gl glDrawArrays) _) =>
      cbn [draws]; constructor; [solve_draw | constructor]
  | |- Forall _ (draws _ _ (Gl _) _) => cbn [draws]; constructor
  end.

Lemma RenderPortalContent_draws
      (rec : mat4 -> mat4 -> vec3 -> vec3 -> Z -> Z -> Qc -> option nat -> Trace)
      (inStep : option StepName) (portal : nat) (viewMatrix projectionMatrix : mat4)
      (cameraPos : vec3) (recursionLevel stencilValue : Z) (currentTime : Qc)
      (viewingSide : Z) (s : State) :
  (forall v p c f t e around inStep' s',
      Forall (fun d => stencilWrites d /\ confined d)
             (drawsIn around inStep' (rec v p c f (recursionLevel + 1)%Z stencilValue t e) s')) ->
  Forall (fun d => stencilWrites d /\ confined d)
         (drawsIn (Some (recursionLevel, stencilValue)) inStep
            (RenderPortalContent normalize g_Portals rec portal viewMatrix projectionMatrix
               cameraPos recursionLevel stencilValue currentTime viewingSide) s).
Proof.
  intros H. unfold RenderPortalContent.
  destruct (nth_error g_Portals portal) as [this |]; [| constructor].
  destruct (linkedPortal this) as [linked |]; [| constructor].
  destruct (nth_error g_Portals linked) as [destPortal |]; [| constructor].
  match goal with
  | |- context [Call (FRenderPortalsRecursive _ _ _ _ _) ?r] =>
      assert (Hw : forall around inStep' s',
                 Forall (fun d => stencilWrites d /\ confined d)
                        (drawsIn around inStep' r s')) by (intros; apply H);
      set (walk := r) in *; clearbody walk
  end.
  match goal with
  | |- context [Call (FRenderPortalFramesExcluding _ _ _) ?fr] =>
      assert (Hfr : forall around inStep' s',
                 Forall (fun d => traversal d = around /\ step d = inStep' /\
                                  stencilTest (state d) = stencilTest s' /\
                                  stencilFunc (state d) = stencilFunc s' /\
                                  stencilOp (state d) = stencilOp s' /\
                                  stencilWritemask (state d) = stencilWritemask s')
                        (drawsIn around inStep' fr s'))
        by (intros; apply RenderPortalFramesExcluding_draws);
      set (frames := fr) in *; clearbody frames
  end.
  clear H.
  destruct (chooseClipStrategy _ _); destruct recursionLevel;
    cbn [applyClipStrategy drawPortalSurface RenderSkybox RenderScene app Z.eqb];
    step_draws walk Hw frames Hfr.
Qed.

Lemma RenderPortalsRecursive_fuel_draws (fuel : nat) :
  forall viewMatrix projectionMatrix cameraPos cameraForward recursionLevel stencilValue
         currentTime excludePortal around inStep s,
    Forall (fun d => stencilWrites d /\ confined d)
           (drawsIn around inStep
              (RenderPortalsRecursive_fuel normalize length g_Portals fuel viewMatrix
                 projectionMatrix cameraPos cameraForward recursionLevel stencilValue
                 currentTime excludePortal) s).
Proof.
  induction fuel as [| fuel IH]; intros v p c f l tag t e around inStep s; [constructor |].
  cbn [RenderPortalsRecursive_fuel].
  destruct (MAX_PORTAL_RECURSION <=? l)%Z; [constructor |].
  apply forEachFrom_drawsIn. intros i portal s'.
  destruct (negb (isActive portal) || _); [constructor |].
  destruct (isExcluded g_Portals e i); [constructor |].
  destruct (negb (IsPortalVisible length portal _ f)); [constructor |].
  cbn [drawsIn]. rewrite app_nil_r, draws_Call. cbn [traversalOf].
  apply RenderPortalContent_draws. intros. apply IH.
Qed.

(** X24.  Who writes the stencil buffer: among the draws of a walk,
    only the mark of a traversal at level 0 changes a stencil value,
    and it writes the tag of its traversal where the depth test
    passes.  The mark of a nested traversal compares the buffer with
    the value it would write, and every other draw is issued under a
    write mask of zero: they leave the stencil buffer as it is. *)
Theorem stencil_written_by_top_marks viewMatrix projectionMatrix cameraPos cameraForward
        recursionLevel stencilValue currentTime excludePortal around inStep s :
  Forall stencilWrites
         (drawsIn around inStep
            (RenderPortalsRecursive normalize length g_Portals viewMatrix projectionMatrix
               cameraPos cameraForward recursionLevel stencilValue currentTime
               excludePortal) s).
Proof.
  eapply Forall_impl; [| apply RenderPortalsRecursive_fuel_draws].
  intros d [H _]. exact H.
Qed.

(** X25.  A traversal draws inside its tag: every draw that a
    traversal issues after its mark, be it the depth clear, the
    skybox, the scene, the frames or the depth seal, is issued with the
    stencil test on, passing where the buffer equals the tag of the
    traversal, and with stencil writes masked off. *)
Theorem draws_confined_to_tag viewMatrix projectionMatrix cameraPos cameraForward
        recursionLevel stencilValue currentTime excludePortal around inStep s :
  Forall confined
         (drawsIn around inStep
            (RenderPortalsRecursive normalize length g_Portals viewMatrix projectionMatrix
               cameraPos cameraForward recursionLevel stencilValue currentTime
               excludePortal) s).
Proof.
  eapply Forall_impl; [| apply RenderPortalsRecursive_fuel_draws].
  intros d [_ H]. exact H.
Qed.

End Walk.

End StencilFacts.

(** ** The state that a frame of main_example.cpp restores *)
Module FrameStateFacts.
Import GL GLState PortalRenderer MainExample TraceFacts MainExampleFacts GLStateFacts.
Import StencilFacts.

Lemma baseline_true (s : State) :
  baseline s = true ->
  colorWritemask s = true /\ depthWritemask s = true /\ cullFace s = true /\
  depthFunc s = GL_LESS /\ depthRange s = (0, 1).
Proof.
  unfold baseline. intros H.
  repeat (apply andb_true_iff in H; destruct H as [H ?]).
  destruct (depthFunc s); try discriminate.
  destruct (depthRange s) as [near far].
  match goal with
  | K : _ && _ = true |- _ => apply andb_true_iff in K; destruct K as [K1 K2]
  end.
  apply Qc_eq_bool_correct in K1, K2. subst. auto.
Qed.

Ltac use_baseline H :=
  let Hc := fresh "Hc" in let Hd := fresh "Hd" in let Hf := fresh "Hf" in
  let Hl := fresh "Hl" in let Hr := fresh "Hr" in
  apply baseline_true in H; destruct H as (Hc & Hd & Hf & Hl & Hr).

Ltac solve_baseline :=
  unfold baseline; eval_state;
  repeat match goal with
         | H : colorWritemask _ = _ |- _ => rewrite H; clear H
         | H : depthWritemask _ = _ |- _ => rewrite H; clear H
         | H : cullFace _ = _ |- _ => rewrite H; clear H
         | H : depthFunc _ = _ |- _ => rewrite H; clear H
         | H : depthRange _ = _ |- _ => rewrite H; clear H
         end;
  reflexivity.

(** The state after the frames and the walk of a traversal is known
    through what they keep. *)
Ltac after_walk walk frames Hw Hfr :=
  match goal with
  | |- context [fold_left ?f walk (fold_left ?f frames ?st)] =>
      let Hb := fresh "Hb" in
      assert (Hb : baseline (runTrace walk (runTrace frames st)) = true)
        by (apply Hw, Hfr; reflexivity);
      change (fold_left f walk (fold_left f frames st))
        with (runTrace walk (runTrace frames st));
      let sw := fresh "sw" in
      set (sw := runTrace walk (runTrace frames st)) in *; clearbody sw;
      repeat match goal with
             | H : colorWritemask _ = _ |- _ => clear H
             | H : depthWritemask _ = _ |- _ => clear H
             | H : cullFace _ = _ |- _ => clear H
             | H : depthFunc _ = _ |- _ => clear H
             | H : depthRange _ = _ |- _ => clear H
             end;
      use_baseline Hb
  end.

Ltac after_trace t Ht :=
  match goal with
  | |- context [fold_left ?f t ?st] =>
      let Hb := fresh "Hb" in
      assert (Hb : baseline (runTrace t st) = true) by (apply Ht; solve_baseline);
      change (fold_left f t st) with (runTrace t st);
      let sw := fresh "sw" in
      set (sw := runTrace t st) in *; clearbody sw;
      repeat match goal with
             | H : colorWritemask _ = _ |- _ => clear H
             | H : depthWritemask _ = _ |- _ => clear H
             | H : cullFace _ = _ |- _ => clear H
             | H : depthFunc _ = _ |- _ => clear H
             | H : depthRange _ = _ |- _ => clear H
             end;
      use_baseline Hb
  end.

Section Walk.

Variable normalize : vec3 -> vec3.
Variable length : vec3 -> Qc.
Variable g_Portals : list Portal.

Lemma RenderPortalFramesExcluding_baseline viewMatrix projectionMatrix time excludePortal
      (s : State) :
  baseline s = true ->
  baseline (runTrace (RenderPortalFramesExcluding g_Portals viewMatrix projectionMatrix time
                                                  excludePortal) s) = true.
Proof.
  intros H. unfold RenderPortalFramesExcluding, forEach. rewrite !runTrace_app.
  assert (K : forall s', baseline s' = true ->
                         baseline (runTrace [Gl (glBindVertexArray None)] s') = true)
    by (intros s' H'; rewrite <- H'; unfold baseline; eval_state; reflexivity).
  apply K. apply (forEachFrom_runTrace (fun s' => baseline s' = true)).
  - intros j a s' H'. destruct (isExcluded _ excludePortal j); [exact H' |].
    rewrite <- H'. unfold baseline. eval_state. reflexivity.
  - rewrite <- H. unfold baseline. eval_state. reflexivity.
Qed.

Lemma RenderPortalContent_baseline
      (rec : mat4 -> mat4 -> vec3 -> vec3 -> Z -> Z -> Qc -> option nat -> Trace)
      (portal : nat) (viewMatrix projectionMatrix : mat4)
      (cameraPos : vec3) (recursionLevel stencilValue : Z) (currentTime : Qc)
      (viewingSide : Z) (s : State) :
  (forall v p c f t e s',
      baseline s' = true ->
      baseline (runTrace (rec v p c f (recursionLevel + 1)%Z stencilValue t e) s') = true) ->
  baseline s = true ->
  baseline (runTrace
              (RenderPortalContent normalize g_Portals rec portal viewMatrix projectionMatrix
                 cameraPos recursionLevel stencilValue currentTime viewingSide) s) = true.
Proof.
  intros H Hs. unfold RenderPortalContent.
  destruct (nth_error g_Portals portal) as [this |]; [| exact Hs].
  destruct (linkedPortal this) as [linked |]; [| exact Hs].
  destruct (nth_error g_Portals linked) as [destPortal |]; [| exact Hs].
  match goal with
  | |- context [Call (FRenderPortalsRecursive _ _ _ _ _) ?r] =>
      assert (Hw : forall s', baseline s' = true -> baseline (runTrace r s') = true)
        by (intros; apply H; assumption);
      set (walk := r) in *; clearbody walk
  end.
  match goal with
  | |- context [Call (FRenderPortalFramesExcluding _ _ _) ?fr] =>
      assert (Hfr : forall s', baseline s' = true -> baseline (runTrace fr s') = true)
        by (intros; apply RenderPortalFramesExcluding_baseline; assumption);
      set (frames := fr) in *; clearbody frames
  end.
  clear H. use_baseline Hs.
  destruct (chooseClipStrategy _ _); destruct recursionLevel;
    cbn [applyClipStrategy app Z.eqb]; eval_state.
  all: try solve_baseline.
  all: after_walk walk frames Hw Hfr; solve_baseline.
Qed.

Lemma RenderPortalsRecursive_fuel_baseline (fuel : nat) :
  forall viewMatrix projectionMatrix cameraPos cameraForward recursionLevel stencilValue
         currentTime excludePortal s,
    baseline s = true ->
    baseline (runTrace
                (RenderPortalsRecursive_fuel normalize length g_Portals fuel viewMatrix
                   projectionMatrix cameraPos cameraForward recursionLevel stencilValue
                   currentTime excludePortal) s) = true.
Proof.
  induction fuel as [| fuel IH]; intros v p c f l tag t e s Hs; [exact Hs |].
  cbn [RenderPortalsRecursive_fuel].
  destruct (MAX_PORTAL_RECURSION <=? l)%Z; [exact Hs |].
  apply (forEachFrom_runTrace (fun s' => baseline s' = true)); [| exact Hs].
  intros i portal s' Hs'.
  destruct (negb (isActive portal) || _); [exact Hs' |].
  destruct (isExcluded g_Portals e i); [exact Hs' |].
  destruct (negb (IsPortalVisible length portal _ f)); [exact Hs' |].
  rewrite runTrace_cons, run_Call. change (runTrace [] ?x) with x.
  apply RenderPortalContent_baseline; [| exact Hs'].
  intros. apply IH. assumption.
Qed.

(** X26.  A frame leaves the context as it found it: started with
    colour and depth writes on, the depth comparison [GL_LESS] over the
    whole depth range and face culling on, [RenderFrame] ends in such
    a state, whatever the portals and the depth of the recursion, with
    the stencil test off and the stencil write mask [0xFF], so that
    the clear of the next frame reaches every stencil bit. *)
Theorem RenderFrame_restores_state viewMatrix projectionMatrix cameraPosition front
        currentTime (s : State) :
  baseline s = true ->
  let s' := runTrace (RenderFrame normalize length g_Portals viewMatrix projectionMatrix
                                  cameraPosition front currentTime) s in
  baseline s' = true /\ stencilTest s' = false /\ stencilWritemask s' = 255%Z.
Proof.
  intros Hs s'. subst s'. unfold RenderFrame, RenderPortalFrames.
  pose proof (RenderPortalsRecursive_fuel_baseline
                (fuelFor 0) viewMatrix projectionMatrix cameraPosition front 0 0
                currentTime None) as Hw.
  fold (RenderPortalsRecursive normalize length g_Portals viewMatrix projectionMatrix
          cameraPosition front 0 0 currentTime None) in Hw.
  set (walk := RenderPortalsRecursive _ _ _ _ _ _ _ _ _ _ _) in *. clearbody walk.
  pose proof (RenderPortalFramesExcluding_baseline viewMatrix projectionMatrix
                currentTime None) as Hfr.
  set (frames := RenderPortalFramesExcluding _ _ _ _ _) in *. clearbody frames.
  use_baseline Hs. cbn [app]. eval_state.
  after_trace walk Hw. after_trace frames Hfr.
  split; [solve_baseline | split; reflexivity].
Qed.

End Walk.

Lemma RenderFrame_restores_state_witness :
  baseline (runTrace (RenderFrame Scene.normalizeQ Scene.lengthQ Scene.g_Portals
                                  Scene.viewMatrix Scene.projectionMatrix
                                  Scene.g_CameraPosition Scene.front 0)
                     mainState) = true.
Proof.
  exact (proj1 (RenderFrame_restores_state Scene.normalizeQ Scene.lengthQ Scene.g_Portals
                  Scene.viewMatrix Scene.projectionMatrix Scene.g_CameraPosition
                  Scene.front 0 mainState eq_refl)).
Defined.

End FrameStateFacts.

(** ** The callbacks of PortalRenderer.h *)
Module CallbackFacts.
Import GL PortalRenderer TraceFacts PortalRendererFacts.

(** A loop in which the iteration of one index makes no call, and the
    others at most [k] each. *)
Lemma forEachFrom_countCalls_skip {A : Type} (p : Callee -> bool) (v : list A)
      (body : nat -> A -> Trace) (i k skip : nat) :
  (i <= skip < i + List.length v)%nat ->
  (forall a, countCallsIn p (body skip a) = 0%nat) ->
  (forall j a, (countCallsIn p (body j a) <= k)%nat) ->
  (countCallsIn p (forEachFrom i v body) <= (List.length v - 1) * k)%nat.
Proof.
  intros Hskip H0 Hk. revert i Hskip.
  induction v as [| a v IH]; intros i Hskip; [cbn [List.length] in Hskip; lia |].
  cbn [forEachFrom List.length] in *. rewrite countCallsIn_app.
  destruct (Nat.eq_dec i skip) as [-> | Hne].
  - rewrite H0. pose proof (forEachFrom_countCalls p v body (S skip) k Hk). lia.
  - specialize (IH (S i) ltac:(lia)). specialize (Hk i a).
    destruct v as [| b v]; [cbn [List.length] in Hskip; lia |].
    cbn [List.length] in *. nia.
Qed.

Section Recursive.

Variable allPortals : list Portal.
Variable renderScene : mat4 -> mat4 -> Trace.

Hypothesis renderScene_leaf :
  forall view projection, countCallsIn isSceneCallback (renderScene view projection) = 0%nat.

Lemma RenderPortalRecursive_fuel_callbacks (fuel : nat) :
  forall portal context currentRecursion,
    (countCallsIn isSceneCallback
       (RenderPortalRecursive_fuel allPortals renderScene fuel portal context
                                   currentRecursion)
     <= callbackBound (List.length allPortals)
                      (Z.to_nat (MAX_PORTAL_RECURSION - currentRecursion)))%nat.
Proof.
  induction fuel as [| fuel IH]; intros portal context l; [apply Nat.le_0_l |].
  cbn [RenderPortalRecursive_fuel]. unfold RenderPortalRecursive_body.
  destruct (Z.leb_spec MAX_PORTAL_RECURSION l) as [Hmax | Hmax]; [apply Nat.le_0_l |].
  destruct (nth_error allPortals portal) as [this |] eqn:Hthis; [| apply Nat.le_0_l].
  destruct (linkedPortal this) as [linked |]; [| apply Nat.le_0_l].
  destruct (negb (isActive this)); [apply Nat.le_0_l |].
  destruct (nth_error allPortals linked) as [target |]; [| apply Nat.le_0_l].
  replace (Z.to_nat (MAX_PORTAL_RECURSION - l))
    with (S (Z.to_nat (MAX_PORTAL_RECURSION - (l + 1)))) by lia.
  cbn [callbackBound].
  assert (Hlt : (portal < List.length allPortals)%nat)
    by (apply nth_error_Some; rewrite Hthis; discriminate).
  match goal with
  | |- context [Step RecurseNestedPortals ?loop] =>
      assert (Hloop : (countCallsIn isSceneCallback loop
                       <= (List.length allPortals - 1)
                          * callbackBound (List.length allPortals)
                                          (Z.to_nat (MAX_PORTAL_RECURSION - (l + 1))))%nat);
      [| set (nested := loop) in *; clearbody nested ]
  end.
  { unfold forEach. apply (forEachFrom_countCalls_skip _ _ _ 0 _ portal).
    - lia.
    - intros a. rewrite Nat.eqb_refl. reflexivity.
    - intros j a. destruct (negb (Nat.eqb j portal) && isActive a); [| apply Nat.le_0_l].
      unfold countCallsIn. cbn [map countCalls list_sum fold_right isSceneCallback].
      rewrite Nat.add_0_r. apply IH. }
  pose proof (renderScene_leaf
                (PortalMath.CalculatePortalView (transform this) (transform target)
                                                (viewMatrix context))
                (PortalMath.CalculateObliqueProjection
                   (projectionMatrix context)
                   (PortalMath.CalculatePortalView (transform this) (transform target)
                                                   (viewMatrix context))
                   (PortalMath.GetPortalPlane (transform target)))) as Hleaf.
  unfold countCallsIn in *.
  cbn [map countCalls list_sum fold_right isSceneCallback Nat.add].
  rewrite Hleaf. lia.
Qed.

(** X27.  The callback runs a bounded number of times: with a
    callback that does not itself run the callback, [RenderPortals]
    over [n] portals runs it at most [n * (1 + m + m^2 + m^3)] times,
    where [m = n - 1]: once for each traversal, and a traversal starts
    no traversal of its own portal and none at level 4. *)
Theorem RenderPortals_callbacks (context : RenderContext) :
  let n := List.length allPortals in
  (countCallsIn isSceneCallback (RenderPortals allPortals renderScene context)
   <= n * callbackBound n 4)%nat /\
  callbackBound n 4
  = (1 + (n - 1) + (n - 1) * (n - 1) + (n - 1) * (n - 1) * (n - 1))%nat.
Proof.
  intros n. split; [| cbn [callbackBound]; nia].
  unfold RenderPortals, forEach. rewrite !countCallsIn_app.
  assert (H1 : (countCallsIn isSceneCallback
                  (forEachFrom 0 allPortals (fun portal _ =>
                     [ Call (FRenderPortalRecursive portal (viewMatrix context)
                                                    (projectionMatrix context) 0)
                            (RenderPortalRecursive allPortals renderScene portal context 0) ]))
                <= n * callbackBound n 4)%nat).
  { apply forEachFrom_countCalls. intros j a.
    unfold countCallsIn. cbn [map countCalls list_sum fold_right isSceneCallback].
    rewrite Nat.add_0_r.
    apply (RenderPortalRecursive_fuel_callbacks (fuelFor 0) j context 0). }
  assert (H2 : countCallsIn isSceneCallback
                 (forEachFrom 0 allPortals (fun portal this =>
                    if negb (isActive this) then [] else
                    [ Gl (glUseProgram (shaderProgram portal));
                      Gl (glBindVertexArray (Some (meshVAO portal)));
                      Gl (glUniformMatrix4fv uModel (transform this));
                      Gl (glUniformMatrix4fv uView (viewMatrix context));
                      Gl (glUniformMatrix4fv uProjection (projectionMatrix context));
                      Gl glDrawElements;
                      Gl (glBindVertexArray None) ])) = 0%nat).
  { apply forEachFrom_countCalls_zero. intros j a.
    destruct (negb (isActive a)); reflexivity. }
  rewrite H2. unfold countCallsIn at 1 3.
  cbn [map countCalls list_sum fold_right]. lia.
Qed.

End Recursive.

Lemma RenderPortals_callbacks_witness :
  (countCallsIn isSceneCallback
     (RenderPortals Scene.g_Portals MainExample.RenderScene Scene.context)
   <= 2 * callbackBound 2 4)%nat.
Proof.
  refine (proj1 (RenderPortals_callbacks Scene.g_Portals MainExample.RenderScene _
                                         Scene.context)).
  intros view projection. reflexivity.
Defined.

End CallbackFacts.
